(** * The HLS cache-and-relay core of [livepeer-handler.py]

    A shallow embedding of [fetch_and_cache_hls], of the request handler
    of [serve_cached_content] and of [stream_video_to_livepeer], with the
    properties of the specification proved (or refuted) on it.

    Python values are modelled as follows.
    - A [str] is the list of its Unicode code points ([list N]); [lit]
      turns a Rocq string literal into such a list.
    - [bytes] are lists of [N] as well.
    - A [dict] with string keys is a [gmap (list N) _].
    - The file system is a finite map from canonical paths (lists of
      names, from the root) to nodes; path strings are resolved against
      it component by component, as the operating system does.
    - The origin is a function from the requests made so far and a URL
      to the outcome of a GET; the GETs a run issues are logged.
    - Exceptions carry their class, so that [except aiohttp.ClientError]
      and [except Exception] catch what they catch in Python. *)

From Stdlib Require Import ZArith NArith List Ascii String DecimalString Lia.
From stdpp Require Import gmap list.

Local Open Scope N_scope.

(** ** Python strings *)

Definition lit (s : string) : list N :=
  map N_of_ascii (list_ascii_of_string s).

Definition slash : N := 47.
Definition hash : N := 35.
Definition quote : N := 34.
Definition apostrophe : N := 39.

(** [s.startswith(p)] *)
Fixpoint startswith (s p : list N) {struct p} : bool :=
  match p, s with
  | [], _ => true
  | c :: p', d :: s' => (c =? d) && startswith s' p'
  | _ :: _, [] => false
  end.

(** [s.endswith(p)] *)
Definition endswith (s p : list N) : bool :=
  startswith (reverse s) (reverse p).

(** [old in s]: a literal occurrence of [old] in [s]. *)
Definition occurs (old s : list N) : Prop :=
  exists a b, s = a ++ old ++ b.

Fixpoint occursb (old s : list N) : bool :=
  startswith s old
  || match s with [] => false | _ :: s' => occursb old s' end.

(** [s.replace(old, new)] scans [s] from the left; at an occurrence of
    [old] it emits [new] and resumes after the occurrence, elsewhere it
    copies one character.  [skip] counts the characters of the current
    occurrence that are still to be passed over. *)
Fixpoint replace_from (skip : nat) (s old new : list N) : list N :=
  match s with
  | [] => []
  | c :: s' =>
      match skip with
      | S k => replace_from k s' old new
      | O =>
          if startswith s old
          then new ++ replace_from (length old - 1) s' old new
          else c :: replace_from 0 s' old new
      end
  end.

Definition replace (s old new : list N) : list N :=
  match old with
  | [] => new ++ flat_map (fun c => c :: new) s
  | _ :: _ => replace_from 0 s old new
  end.

(** [s.rsplit(sep, 1)]: [Some head] when [sep] occurs in [s], [head]
    being what precedes its last occurrence. *)
Fixpoint rsplit_head (s : list N) (sep : N) : option (list N) :=
  match s with
  | [] => None
  | c :: s' =>
      match rsplit_head s' sep with
      | Some h => Some (c :: h)
      | None => if c =? sep then Some [] else None
      end
  end.

(** [s.rsplit(sep, 1)[0]] *)
Definition rsplit1_0 (s : list N) (sep : N) : list N :=
  match rsplit_head s sep with
  | Some h => h
  | None => s
  end.

(** The line boundaries of [str.splitlines]: LF, VT, FF, CR, FS, GS, RS,
    NEL, LS and PS. *)
Definition is_linebreak (c : N) : bool :=
  (c =? 10) || (c =? 11) || (c =? 12) || (c =? 13) || (c =? 28) ||
  (c =? 29) || (c =? 30) || (c =? 133) || (c =? 8232) || (c =? 8233).

(** [s.splitlines()]: CR LF is one boundary, and a final boundary opens
    no empty last line. *)
Fixpoint splitlines (s : list N) : list (list N) :=
  match s with
  | [] => []
  | c :: s' =>
      if is_linebreak c then
        match s' with
        | d :: s'' =>
            if (c =? 13) && (d =? 10) then [] :: splitlines s''
            else [] :: splitlines s'
        | [] => [[]]
        end
      else
        match splitlines s' with
        | [] => [[c]]
        | l :: ls => (c :: l) :: ls
        end
  end.

(** [sep.join(parts)] *)
Fixpoint join (sep : list N) (parts : list (list N)) : list N :=
  match parts with
  | [] => []
  | [p] => p
  | p :: ps => p ++ sep ++ join sep ps
  end.

(** [s.split(sep)] for a one-character separator. *)
Fixpoint split (sep : N) (s : list N) : list (list N) :=
  match s with
  | [] => [[]]
  | c :: s' =>
      if c =? sep then [] :: split sep s'
      else match split sep s' with
           | [] => [[c]]
           | p :: ps => (c :: p) :: ps
           end
  end.

(** [s.rstrip('/')] and the scan of [s.rfind('/')], both on the reversed
    string. *)
Fixpoint drop_while (f : N -> bool) (s : list N) : list N :=
  match s with
  | [] => []
  | c :: s' => if f c then drop_while f s' else s
  end.

(** ** posixpath *)

Definition dot : list N := Eval cbv in lit ".".
Definition dotdot : list N := Eval cbv in lit "..".

(** [os.path.isabs(p)] *)
Definition isabs (p : list N) : bool := startswith p [slash].

(** [os.path.join(a, b)] *)
Definition path_join (a b : list N) : list N :=
  if startswith b [slash] then b
  else if match a with [] => true | _ :: _ => endswith a [slash] end
       then a ++ b
       else a ++ [slash] ++ b.

(** One round of the loop of [posixpath.normpath] over the components. *)
Definition norm_step (initial_slashes : bool) (new_comps : list (list N))
    (comp : list N) : list (list N) :=
  if bool_decide (comp = []) || bool_decide (comp = dot) then new_comps
  else if negb (bool_decide (comp = dotdot))
          || (negb initial_slashes && bool_decide (new_comps = []))
          || bool_decide (last new_comps = Some dotdot)
       then new_comps ++ [comp]
       else removelast new_comps.

(** [os.path.normpath(path)] *)
Definition normpath (path : list N) : list N :=
  match path with
  | [] => dot
  | _ :: _ =>
      let initial_slashes : nat :=
        if startswith path [slash] then
          if startswith path [slash; slash]
             && negb (startswith path [slash; slash; slash])
          then 2%nat else 1%nat
        else 0%nat in
      let comps :=
        fold_left (norm_step (bool_decide (initial_slashes <> 0%nat)))
                  (split slash path) [] in
      match replicate initial_slashes slash ++ join [slash] comps with
      | [] => dot
      | p => p
      end
  end.

(** [os.path.dirname(p)]: the head is [p] up to and including its last
    slash, with the trailing slashes removed unless it holds slashes
    only. *)
Definition dirname (p : list N) : list N :=
  let rhead := drop_while (fun c => negb (c =? slash)) (reverse p) in
  if forallb (fun c => c =? slash) rhead then reverse rhead
  else reverse (drop_while (fun c => c =? slash) rhead).

(** ** Exceptions *)

Inductive exn_class : Set :=
| ClientError      (* aiohttp.ClientError and its subclasses *)
| OSError          (* FileNotFoundError, PermissionError, ... *)
| TimeoutError     (* asyncio.TimeoutError *)
| ValueError       (* UnicodeDecodeError, JSON decoding, ... *)
| PlainException.  (* raise Exception(...) *)

Record exn : Type := Exn { exn_class_of : exn_class; exn_msg : list N }.

Definition is_client_error (e : exn) : bool :=
  match exn_class_of e with ClientError => true | _ => false end.

(** ** The file system *)

(** A node is a regular file with its contents or a directory;
    [readable] is the read permission of the serving process.  There
    are no symbolic links and no special files. *)
Inductive node : Type :=
| File (readable : bool) (data : list N)
| Dir (readable : bool).

(** The root always exists. *)
Definition node_at (fs : gmap (list (list N)) node) (p : list (list N))
    : option node :=
  match p with
  | [] => Some (Dir true)
  | _ :: _ => fs !! p
  end.

Definition is_dir (fs : gmap (list (list N)) node) (p : list (list N))
    : bool :=
  match node_at fs p with Some (Dir _) => true | _ => false end.

Definition good_name (c : list N) : bool :=
  negb (bool_decide (c = [])) && negb (bool_decide (c = dot))
  && negb (bool_decide (c = dotdot)) && forallb (fun x => negb (x =? slash)) c.

(** One component of a path string, followed from directory [cur]. *)
Definition step (cur : list (list N)) (c : list N) : list (list N) :=
  if bool_decide (c = []) || bool_decide (c = dot) then cur
  else if bool_decide (c = dotdot) then removelast cur
  else cur ++ [c].

(** Path resolution: every component is looked up in a directory that
    exists; the last one may name nothing. *)
Fixpoint walk (fs : gmap (list (list N)) node) (cur : list (list N))
    (comps : list (list N)) : option (list (list N)) :=
  match comps with
  | [] => Some cur
  | c :: cs => if is_dir fs cur then walk fs (step cur c) cs else None
  end.

Definition resolve (fs : gmap (list (list N)) node) (cwd : list (list N))
    (p : list N) : option (list (list N)) :=
  match p with
  | [] => None
  | _ :: _ => walk fs (if isabs p then [] else cwd) (split slash p)
  end.

(** Whether a path string names something. *)
Definition exists_in (fs : gmap (list (list N)) node) (cwd : list (list N))
    (p : list N) : bool :=
  match resolve fs cwd p with
  | Some q => match node_at fs q with Some _ => true | None => false end
  | None => false
  end.

(** Every entry has a proper name and lies in a directory. *)
Definition entry_ok (fs : gmap (list (list N)) node) (p : list (list N))
    : bool :=
  match reverse p with
  | [] => false
  | c :: rq => good_name c && is_dir fs (reverse rq)
  end.

Definition fs_wf (fs : gmap (list (list N)) node) : Prop :=
  map_Forall (fun (p : list (list N)) (_ : node) => entry_ok fs p = true) fs.

(** The names in directory [q], in the order of the directory. *)
Definition children (fs : gmap (list (list N)) node) (q : list (list N))
    : list (list N) :=
  omap (fun kv : list (list N) * node =>
          match reverse (fst kv) with
          | c :: rq => if bool_decide (reverse rq = q) then Some c else None
          | [] => None
          end) (map_to_list fs).

Definition errno_msg (what : string) (p : list N) : list N :=
  lit what ++ lit ": " ++ [apostrophe] ++ p ++ [apostrophe].

(** [os.makedirs(name, exist_ok=True)], from directory [cur] on: the
    directories that are missing along the path are made; a file in the
    way is an error. *)
Fixpoint makedirs_from (fs : gmap (list (list N)) node)
    (cur : list (list N)) (comps : list (list N)) (name : list N)
    : exn + gmap (list (list N)) node :=
  match comps with
  | [] => inr fs
  | c :: cs =>
      if is_dir fs cur then
        let nxt := step cur c in
        match node_at fs nxt with
        | Some (Dir _) => makedirs_from fs nxt cs name
        | Some (File _ _) =>
            inl (Exn OSError
                   (errno_msg (match cs with
                               | [] => "[Errno 17] File exists"
                               | _ :: _ => "[Errno 20] Not a directory"
                               end) name))
        | None => makedirs_from (<[nxt := Dir true]> fs) nxt cs name
        end
      else
        inl (Exn OSError
               (errno_msg "[Errno 2] No such file or directory" name))
  end.

(** ** The environment and the world *)

(** What [session.get(url)] gives: the status, and the outcome of
    awaiting [resp.text()] and [resp.read()]. *)
Record response : Type := Response {
  status : Z;
  text : exn + list N;
  read : exn + list N
}.

Inductive get_outcome : Type :=
| GetRaises (e : exn)
| GetResponse (r : response).

(** The environment of a run: the working directory, the encoding of
    text files, and the origin, which answers a GET knowing the GETs
    issued before it. *)
Record Env : Type := {
  env_cwd : list (list N);
  env_encode : list N -> list N;
  env_get : list (list N) -> list N -> get_outcome
}.

(** The world a run changes: the file system and the GETs issued so far,
    oldest first. *)
Record World : Type := {
  fs : gmap (list (list N)) node;
  gets : list (list N)
}.

(** ** Computations that change a state and may raise *)

Definition M (S A : Type) : Type := S -> S * (exn + A).

Definition ret {S A} (a : A) : M S A := fun s => (s, inr a).

Definition raise {S A} (e : exn) : M S A := fun s => (s, inl e).

Definition bind {S A B} (m : M S A) (k : A -> M S B) : M S B :=
  fun s =>
    match m s with
    | (s', inr a) => k a s'
    | (s', inl e) => (s', inl e)
    end.

Notation "'let*' x ':=' m 'in' k" := (bind m (fun x => k))
  (at level 10, x pattern, m at level 100, k at level 200).
Notation "m ';;;' k" := (bind m (fun _ => k))
  (at level 100, k at level 200, right associativity).

(** [try: m  except aiohttp.ClientError as e: h e] *)
Definition except_ClientError {S A} (m : M S A) (h : exn -> M S A) : M S A :=
  fun s =>
    match m s with
    | (s', inl e) => if is_client_error e then h e s' else (s', inl e)
    | r => r
    end.

(** [try: m  except Exception as e: h e]; every class of [exn_class] is
    a subclass of [Exception]. *)
Definition except_Exception {S A} (m : M S A) (h : exn -> M S A) : M S A :=
  fun s =>
    match m s with
    | (s', inl e) => h e s'
    | r => r
    end.

Definition of_result {S A} (r : exn + A) : M S A :=
  match r with inl e => raise e | inr a => ret a end.

(** *** File-system and network operations on the world *)

Section Operations.
Variable E : Env.

Definition start_dir (p : list N) : list (list N) :=
  if isabs p then [] else env_cwd E.

(** [os.getcwd()] *)
Definition getcwd : list N := [slash] ++ join [slash] (env_cwd E).

(** [os.path.abspath(p)] *)
Definition abspath (p : list N) : list N :=
  normpath (if isabs p then p else path_join getcwd p).

(** [os.path.exists(p)] *)
Definition path_exists (p : list N) : M World bool :=
  fun w => (w, inr (exists_in (fs w) (env_cwd E) p)).

(** [os.makedirs(p, exist_ok=True)] *)
Definition makedirs (p : list N) : M World unit :=
  fun w =>
    match p with
    | [] =>
        (w, inl (Exn OSError
                   (errno_msg "[Errno 2] No such file or directory" p)))
    | _ :: _ =>
        match makedirs_from (fs w) (start_dir p) (split slash p) p with
        | inl e => (w, inl e)
        | inr fs' => ({| fs := fs'; gets := gets w |}, inr tt)
        end
    end.

(** [aiofiles.open(p, "w")] and [aiofiles.open(p, "wb")]: the file is
    created, or emptied when it exists; the handle is where it lies. *)
Definition open_w (p : list N) : M World (list (list N)) :=
  fun w =>
    match resolve (fs w) (env_cwd E) p with
    | None =>
        (w, inl (Exn OSError
                   (errno_msg "[Errno 2] No such file or directory" p)))
    | Some q =>
        match node_at (fs w) q with
        | Some (Dir _) =>
            (w, inl (Exn OSError (errno_msg "[Errno 21] Is a directory" p)))
        | Some (File r _) =>
            ({| fs := <[q := File r []]> (fs w); gets := gets w |}, inr q)
        | None =>
            ({| fs := <[q := File true []]> (fs w); gets := gets w |}, inr q)
        end
    end.

(** [f.write(data)] on a handle just opened for writing. *)
Definition write (f : list (list N)) (data : list N) : M World unit :=
  fun w =>
    ({| fs := <[f := match fs w !! f with
                     | Some (File r _) => File r data
                     | _ => File true data
                     end]> (fs w);
        gets := gets w |}, inr tt).

(** [session.get(url)] *)
Definition session_get (url : list N) : M World response :=
  fun w =>
    let w' := {| fs := fs w; gets := gets w ++ [url] |} in
    match env_get E (gets w) url with
    | GetRaises e => (w', inl e)
    | GetResponse r => (w', inr r)
    end.

End Operations.

(** ** The cache filler: [fetch_and_cache_hls] *)

Definition LOCAL_CACHE_DIR : list N := Eval cbv in lit "./cache/livepeer".
Definition LOCAL_PLAYBACK_URL_BASE : list N :=
  Eval cbv in lit "http://localhost:8080/cache/".
Definition dot_ts : list N := Eval cbv in lit ".ts".
Definition dot_m3u8 : list N := Eval cbv in lit ".m3u8".
Definition index_m3u8 : list N := Eval cbv in lit "index.m3u8".

Record StreamProfile : Type := {
  name : list N;
  width : Z;
  height : Z;
  bitrate : Z;
  url : option (list N)
}.

(** The state of a fill: the world and the dict [local_urls], which the
    function updates in place. *)
Record FillState : Type := {
  fill_world : World;
  local_urls : gmap (list N) (list N)
}.

Definition in_world {A} (m : M World A) : M FillState A :=
  fun s =>
    match m (fill_world s) with
    | (w', r) => ({| fill_world := w'; local_urls := local_urls s |}, r)
    end.

(** [local_urls[key] = value] *)
Definition set_local_url (key value : list N) : M FillState unit :=
  fun s =>
    ({| fill_world := fill_world s;
        local_urls := <[key := value]> (local_urls s) |}, inr tt).

Fixpoint for_each {S A} (body : A -> M S unit) (l : list A) : M S unit :=
  match l with
  | [] => ret tt
  | x :: l' => body x ;;; for_each body l'
  end.

(** A line the loop over the lines downloads, with the URL it is
    fetched from. *)
Record reference : Type := {
  relativePath : list N;
  resolvedRemoteURL : list N
}.

(** The lines that pass the two tests of the loop, in its order. *)
Fixpoint references (base_url : list N) (lines : list (list N))
    : list reference :=
  match lines with
  | [] => []
  | line :: rest =>
      if endswith line dot_ts || endswith line dot_m3u8 then
        if startswith line [hash] then references base_url rest
        else {| relativePath := line;
                resolvedRemoteURL := base_url ++ [slash] ++ line |}
             :: references base_url rest
      else references base_url rest
  end.

Section Filler.
Variable E : Env.

(** [base_url = playlist_url.rsplit('/', 1)[0]] *)
Definition base_url_of (playlist_url : list N) : list N :=
  rsplit1_0 playlist_url slash.

(** [playlist_content.replace(base_url + '/',
    f"{LOCAL_PLAYBACK_URL_BASE}{profile.name}/")] *)
Definition modified_content_of (playlist_content playlist_url
    profile_name : list N) : list N :=
  replace playlist_content (base_url_of playlist_url ++ [slash])
          (LOCAL_PLAYBACK_URL_BASE ++ profile_name ++ [slash]).

(** The body of the loop over the lines, for a line that passed the two
    tests: from [os.makedirs] on. *)
Definition download_segment (segment_url local_segment_path : list N)
    : M World unit :=
  makedirs E (dirname (abspath E local_segment_path)) ;;;
  let* there := path_exists E local_segment_path in
  if negb there then
    except_ClientError
      (let* segment_resp := session_get E segment_url in
       if (status segment_resp =? 200)%Z then
         let* f := open_w E local_segment_path in
         let* data := of_result (read segment_resp) in
         write f data
       else ret tt)
      (fun _ => ret tt)
  else ret tt.

(** [for line in playlist_content.splitlines(): ...] *)
Fixpoint download_segments (base_url profile_dir : list N)
    (lines : list (list N)) : M World unit :=
  match lines with
  | [] => ret tt
  | line :: rest =>
      (if endswith line dot_ts || endswith line dot_m3u8 then
         if startswith line [hash] then ret tt
         else download_segment (base_url ++ [slash] ++ line)
                               (path_join profile_dir line)
       else ret tt) ;;;
      download_segments base_url profile_dir rest
  end.

(** The body of the loop over the profiles. *)
Definition cache_profile (profile : StreamProfile) : M FillState unit :=
  match url profile with
  | None => ret tt
  | Some [] => ret tt
  | Some playlist_url =>
      except_ClientError
        (let profile_dir := path_join LOCAL_CACHE_DIR (name profile) in
         in_world (makedirs E profile_dir) ;;;
         let* resp := in_world (session_get E playlist_url) in
         if (status resp =? 200)%Z then
           let* playlist_content := of_result (text resp) in
           let local_playlist_path := path_join profile_dir index_m3u8 in
           let base_url := base_url_of playlist_url in
           let modified_content :=
             modified_content_of playlist_content playlist_url
                                 (name profile) in
           let* f := in_world (open_w E local_playlist_path) in
           in_world (write f (env_encode E modified_content)) ;;;
           set_local_url (name profile)
             (LOCAL_PLAYBACK_URL_BASE ++ name profile
                ++ [slash] ++ index_m3u8) ;;;
           in_world (download_segments base_url profile_dir
                       (splitlines playlist_content))
         else ret tt)
        (fun _ => ret tt)
  end.

Definition fetch_and_cache_hls (CACHE_ENABLED : bool)
    (playback_urls : list StreamProfile)
    : M World (gmap (list N) (list N)) :=
  if negb CACHE_ENABLED then ret ∅
  else
    (let* there := path_exists E LOCAL_CACHE_DIR in
     if negb there then makedirs E LOCAL_CACHE_DIR else ret tt) ;;;
    fun w =>
      match for_each cache_profile playback_urls
                     {| fill_world := w; local_urls := ∅ |} with
      | (s, inr _) => (fill_world s, inr (local_urls s))
      | (s, inl e) => (fill_world s, inl e)
      end.

End Filler.

(** ** The local content server: [handle] of [serve_cached_content] *)

Inductive http_body : Type :=
| BodyBytes (b : list N)   (* [web.Response(body=...)] *)
| BodyText (t : list N).   (* [web.Response(text=...)] *)

Record http_response : Type := HttpResponse {
  http_status : Z;
  content_type : list N;
  http_body_of : http_body
}.

Definition mpegurl : list N := Eval cbv in lit "application/vnd.apple.mpegurl".
Definition mp2t : list N := Eval cbv in lit "video/MP2T".
Definition text_html : list N := Eval cbv in lit "text/html".
Definition text_plain : list N := Eval cbv in lit "text/plain".
Definition file_not_found : list N := Eval cbv in lit "File not found".

Section Server.
Variable E : Env.

(** [os.path.isfile(p)] *)
Definition path_isfile (p : list N) : M World bool :=
  fun w =>
    (w, inr match resolve (fs w) (env_cwd E) p with
            | Some q => match node_at (fs w) q with
                        | Some (File _ _) => true
                        | _ => false
                        end
            | None => false
            end).

(** [async with aiofiles.open(p, 'rb') as f: await f.read()] *)
Definition read_rb (p : list N) : M World (list N) :=
  fun w =>
    (w, match resolve (fs w) (env_cwd E) p with
        | Some q =>
            match node_at (fs w) q with
            | Some (File true data) => inr data
            | Some (File false _) =>
                inl (Exn OSError (errno_msg "[Errno 13] Permission denied" p))
            | Some (Dir _) =>
                inl (Exn OSError (errno_msg "[Errno 21] Is a directory" p))
            | None =>
                inl (Exn OSError
                       (errno_msg "[Errno 2] No such file or directory" p))
            end
        | None =>
            inl (Exn OSError
                   (errno_msg "[Errno 2] No such file or directory" p))
        end).

(** [os.listdir(p)] *)
Definition listdir (p : list N) : M World (list (list N)) :=
  fun w =>
    (w, match resolve (fs w) (env_cwd E) p with
        | Some q =>
            match node_at (fs w) q with
            | Some (Dir true) => inr (children (fs w) q)
            | Some (Dir false) =>
                inl (Exn OSError (errno_msg "[Errno 13] Permission denied" p))
            | Some (File _ _) =>
                inl (Exn OSError (errno_msg "[Errno 20] Not a directory" p))
            | None =>
                inl (Exn OSError
                       (errno_msg "[Errno 2] No such file or directory" p))
            end
        | None =>
            inl (Exn OSError
                   (errno_msg "[Errno 2] No such file or directory" p))
        end).

(** The listing built by the loop over [files]. *)
Definition listing_item (file : list N) : list N :=
  lit "<li><a href=" ++ [quote] ++ file ++ [quote] ++ lit ">" ++ file
  ++ lit "</a></li>".

Definition listing_html (files : list (list N)) : list N :=
  fold_left (fun html file => html ++ listing_item file) files
            (lit "<html><body><ul>")
  ++ lit "</ul></body></html>".

(** [handle(request)], [filename] being [request.match_info] at
    ['filename']. *)
Definition handle (filename : list N) : M World http_response :=
  let filepath := path_join LOCAL_CACHE_DIR filename in
  let* there := path_exists E filepath in
  if there then
    except_Exception
      (let* isfile := path_isfile filepath in
       if isfile then
         let* content := read_rb filepath in
         let content_type :=
           if endswith filepath dot_m3u8 then mpegurl else mp2t in
         ret (HttpResponse 200 content_type (BodyBytes content))
       else
         let* files := listdir filepath in
         ret (HttpResponse 200 text_html (BodyText (listing_html files))))
      (fun e => ret (HttpResponse 500 text_plain (BodyText (exn_msg e))))
  else ret (HttpResponse 404 text_plain (BodyText file_not_found)).

End Server.

(** ** The session: [create_stream], [push_to_livepeer] and
    [stream_video_to_livepeer] *)

Record StreamInfo : Type := {
  info_id : list N;
  info_name : list N;
  ingest : list N;
  playback : list StreamProfile
}.

(** The JSON object the origin answers with; [None] is an absent key. *)
Record api_profile : Type := {
  api_name : list N;
  api_width : Z;
  api_height : Z;
  api_bitrate : Z
}.

Record api_stream : Type := {
  api_id : option (list N);
  api_stream_name : option (list N);
  api_rtmpIngestUrl : option (list N);
  api_playbackId : option (list N);
  api_profiles : option (list api_profile)
}.

Record post_response : Type := {
  post_status : Z;
  post_text : exn + list N;
  post_json : exn + api_stream
}.

Inductive post_outcome : Type :=
| PostRaises (e : exn)
| PostResponse (r : post_response).

(** What the collaborators of one session do: the origin's answer to the
    allocation request, the encoder (it cannot be started, or ends with
    a return code), and the start and the shutdown of the HTTP server. *)
Record Session : Type := {
  post_stream : post_outcome;
  ffmpeg : exn + Z;
  server_start : option exn;
  server_cleanup : option exn
}.

(** [f"{n}"] for an [int] *)
Definition str_of_int (n : Z) : list N :=
  lit (NilZero.string_of_int (Z.to_int n)).

Definition with_url (p : StreamProfile) (u : list N) : StreamProfile :=
  {| name := name p; width := width p; height := height p;
     bitrate := bitrate p; url := Some u |}.

(** [LivepeerClient.create_stream] *)
Definition create_stream (S : Session) (stream_name : list N)
    (profiles : list StreamProfile) : exn + StreamInfo :=
  match post_stream S with
  | PostRaises e => inl e
  | PostResponse response =>
      if negb (post_status response =? 200)%Z then
        match post_text response with
        | inl e => inl e
        | inr error_text =>
            inl (Exn PlainException
                   (lit "Failed to create stream: "
                    ++ str_of_int (post_status response)
                    ++ lit " - " ++ error_text))
        end
      else
        match post_json response with
        | inl e => inl e
        | inr data =>
            let stream_profiles :=
              map (fun profile =>
                     {| name := api_name profile;
                        width := api_width profile;
                        height := api_height profile;
                        bitrate := api_bitrate profile;
                        url := None |})
                  (default [] (api_profiles data)) in
            let playback_urls :=
              match api_playbackId data with
              | Some playback_id =>
                  map (fun profile =>
                         with_url profile
                           (lit "https://cdn.livepeer.studio/hls/"
                            ++ playback_id ++ [slash] ++ name profile
                            ++ [slash] ++ index_m3u8))
                      stream_profiles
              | None => []
              end in
            inr {| info_id := default [] (api_id data);
                   info_name := default [] (api_stream_name data);
                   ingest := default [] (api_rtmpIngestUrl data);
                   playback := playback_urls |}
        end
  end.

(** [push_to_livepeer]: every exception of the encoder is caught. *)
Definition push_to_livepeer (E : Env) (S : Session)
    (ingest_url video_path : list N) : M World bool :=
  let* there := path_exists E video_path in
  if negb there then ret false
  else
    except_Exception
      (let* returncode := of_result (ffmpeg S) in
       if (returncode =? 0)%Z then ret true else ret false)
      (fun _ => ret false).

(** [serve_cached_content]: the runner, or [None] when caching is off. *)
Definition serve_cached_content (S : Session) (CACHE_ENABLED : bool)
    : M World (option unit) :=
  if negb CACHE_ENABLED then ret None
  else match server_start S with
       | Some e => raise e
       | None => ret (Some tt)
       end.

(** The values of the result dict. *)
Inductive pyval : Type :=
| VNone
| VBool (b : bool)
| VStr (s : list N)
| VDict (d : gmap (list N) (option (list N))).

Definition k_success : list N := Eval cbv in lit "success".
Definition k_stream_id : list N := Eval cbv in lit "stream_id".
Definition k_ingest_url : list N := Eval cbv in lit "ingest_url".
Definition k_playback_urls : list N := Eval cbv in lit "playback_urls".
Definition k_local_playback_urls : list N :=
  Eval cbv in lit "local_playback_urls".
Definition k_error : list N := Eval cbv in lit "error".

(** The state of a session: the world and the dict [result]. *)
Record OrchState : Type := {
  orch_world : World;
  result : gmap (list N) pyval
}.

Definition in_orch_world {A} (m : M World A) : M OrchState A :=
  fun s =>
    match m (orch_world s) with
    | (w', r) => ({| orch_world := w'; result := result s |}, r)
    end.

(** [result[key] = value] *)
Definition set_result (key : list N) (value : pyval) : M OrchState unit :=
  fun s =>
    ({| orch_world := orch_world s;
        result := <[key := value]> (result s) |}, inr tt).

(** [result["playback_urls"][profile.name] = profile.url] *)
Definition set_playback_url (profile : StreamProfile) : M OrchState unit :=
  fun s =>
    ({| orch_world := orch_world s;
        result :=
          match result s !! k_playback_urls with
          | Some (VDict d) =>
              <[k_playback_urls := VDict (<[name profile := url profile]> d)]>
                (result s)
          | _ => result s
          end |}, inr tt).

Definition STREAM_NAME : list N := Eval cbv in lit "decentralized-video-stream".

Definition session_profiles : list StreamProfile :=
  [ {| name := lit "720p"; width := 1280; height := 720;
       bitrate := 2000000; url := None |};
    {| name := lit "480p"; width := 854; height := 480;
       bitrate := 1000000; url := None |};
    {| name := lit "360p"; width := 640; height := 360;
       bitrate := 500000; url := None |} ].

Definition initial_result : gmap (list N) pyval :=
  <[k_success := VBool false]>
    (<[k_stream_id := VNone]>
       (<[k_ingest_url := VNone]>
          (<[k_playback_urls := VDict ∅]>
             (<[k_local_playback_urls := VDict ∅]> ∅)))).

(** The body of the [try] of [stream_video_to_livepeer].  The push task
    and the cache task run while the function sleeps and waits; the push
    task touches nothing of the world, so each is run where it starts. *)
Definition session_body (E : Env) (S : Session) (CACHE_ENABLED : bool)
    (video_path : list N) : M OrchState unit :=
  let* stream := of_result (create_stream S STREAM_NAME session_profiles) in
  for_each set_playback_url (playback stream) ;;;
  set_result k_stream_id (VStr (info_id stream)) ;;;
  set_result k_ingest_url (VStr (ingest stream)) ;;;
  set_result k_success (VBool true) ;;;
  let* push_success :=
    in_orch_world (push_to_livepeer E S (ingest stream) video_path) in
  let* server_runner := in_orch_world (serve_cached_content S CACHE_ENABLED) in
  let* local_urls :=
    in_orch_world (fetch_and_cache_hls E CACHE_ENABLED (playback stream)) in
  set_result k_local_playback_urls (VDict (Some <$> local_urls)) ;;;
  match server_runner with
  | Some _ =>
      match server_cleanup S with
      | Some e => raise e
      | None => ret tt
      end
  | None => ret tt
  end.

(** [stream_video_to_livepeer(video_path)] *)
Definition stream_video_to_livepeer (E : Env) (S : Session)
    (CACHE_ENABLED : bool) (video_path : list N)
    : M World (gmap (list N) pyval) :=
  fun w =>
    match except_Exception
            (session_body E S CACHE_ENABLED video_path)
            (fun e => set_result k_error (VStr (exn_msg e)))
            {| orch_world := w; result := initial_result |} with
    | (s, inr _) => (orch_world s, inr (result s))
    | (s, inl e) => (orch_world s, inl e)
    end.

(** ** Notions the properties are stated with *)

Definition is_reference_line (line : list N) : Prop :=
  ~ [hash] `prefix_of` line
  /\ (dot_ts `suffix_of` line \/ dot_m3u8 `suffix_of` line).

#[local] Instance is_reference_line_dec (line : list N) :
  Decision (is_reference_line line).
Proof. unfold is_reference_line. apply _. Defined.


(** A world is well formed when its file system is and the working
    directory exists. *)
Definition world_wf (E : Env) (w : World) : Prop :=
  fs_wf (fs w) /\ is_dir (fs w) (env_cwd E) = true.

(** The origin answers a GET by its URL alone. *)
Definition origin_static (E : Env) : Prop :=
  forall (history : list (list N)) (u : list N),
    env_get E history u = env_get E [] u.

(** The playlist of the profile can be had: the profile has a URL, the
    origin answers 200 and the text of the answer arrives. *)
Definition playlist_ok (E : Env) (profile : StreamProfile) : bool :=
  match url profile with
  | Some (c :: u) =>
      match env_get E [] (c :: u) with
      | GetResponse r =>
          (status r =? 200)%Z
          && match text r with inr _ => true | inl _ => false end
      | GetRaises _ => false
      end
  | _ => false
  end.

Definition local_playlist_url (profile_name : list N) : list N :=
  LOCAL_PLAYBACK_URL_BASE ++ profile_name ++ [slash] ++ index_m3u8.

(** The [LocalURLMap] of the profiles: each name with its local
    playlist URL. *)
Definition url_map (profiles : list StreamProfile)
    (m : gmap (list N) (list N)) : gmap (list N) (list N) :=
  fold_left (fun m p => <[name p := local_playlist_url (name p)]> m)
            profiles m.




(** The profile is fully cached: its directory is there, the playlist
    file holds the rewritten playlist the origin serves, and every
    reference of the playlist names something in the cache. *)
Definition cached_profile (E : Env) (fs : gmap (list (list N)) node)
    (profile : StreamProfile) : bool :=
  match url profile with
  | Some (c :: u) =>
      let profile_dir := path_join LOCAL_CACHE_DIR (name profile) in
      match env_get E [] (c :: u) with
      | GetResponse r =>
          (status r =? 200)%Z
          && match text r with
             | inr content =>
                 match resolve fs (env_cwd E) profile_dir with
                 | Some d => is_dir fs d
                 | None => false
                 end
                 && match resolve fs (env_cwd E)
                                  (path_join profile_dir index_m3u8) with
                    | Some q =>
                        match fs !! q with
                        | Some (File _ data) =>
                            bool_decide
                              (data = env_encode E
                                        (modified_content_of content (c :: u)
                                           (name profile)))
                        | _ => false
                        end
                    | None => false
                    end
                 && forallb
                      (fun r => exists_in fs (env_cwd E)
                                  (path_join profile_dir (relativePath r)))
                      (references (base_url_of (c :: u))
                                  (splitlines content))
             | inl _ => false
             end
      | GetRaises _ => false
      end
  | _ => true
  end.

Definition fully_cached (E : Env) (fs : gmap (list (list N)) node)
    (profiles : list StreamProfile) : bool :=
  exists_in fs (env_cwd E) LOCAL_CACHE_DIR
  && forallb (cached_profile E fs) profiles.

(** The playlist URLs of the profiles that have one, in order. *)
Definition playlist_urls (profiles : list StreamProfile) : list (list N) :=
  omap (fun p => match url p with
                 | Some (c :: u) => Some (c :: u)
                 | _ => None
                 end) profiles.

(** The session with another run of the encoder. *)
Definition with_ffmpeg (S : Session) (outcome : exn + Z) : Session :=
  {| post_stream := post_stream S;
     ffmpeg := outcome;
     server_start := server_start S;
     server_cleanup := server_cleanup S |}.

(** The dict of playback URLs the loop over [stream.playback] builds. *)
Definition playback_dict (profiles : list StreamProfile)
    (d : gmap (list N) (option (list N))) : gmap (list N) (option (list N)) :=
  fold_left (fun d p => <[name p := url p]> d) profiles d.

(** The result dict once the stream is allocated. *)
Definition allocated_result (stream : StreamInfo) : gmap (list N) pyval :=
  <[k_success := VBool true]>
    (<[k_ingest_url := VStr (ingest stream)]>
       (<[k_stream_id := VStr (info_id stream)]>
          (<[k_playback_urls := VDict (playback_dict (playback stream) ∅)]>
             initial_result))).

(** The keys a result dict can have. *)
Definition result_keys : gset (list N) :=
  {[ k_success; k_stream_id; k_ingest_url; k_playback_urls;
     k_local_playback_urls; k_error ]}.

(** ** Decidable equality, for facts settled by computation *)

#[local] Instance exn_class_eq_dec : EqDecision exn_class.
Proof. solve_decision. Defined.

#[local] Instance exn_eq_dec : EqDecision exn.
Proof. solve_decision. Defined.

#[local] Instance node_eq_dec : EqDecision node.
Proof. solve_decision. Defined.

#[local] Instance World_eq_dec : EqDecision World.
Proof. solve_decision. Defined.

#[local] Instance FillState_eq_dec : EqDecision FillState.
Proof. solve_decision. Defined.

#[local] Instance http_body_eq_dec : EqDecision http_body.
Proof. solve_decision. Defined.

#[local] Instance http_response_eq_dec : EqDecision http_response.
Proof. solve_decision. Defined.

#[local] Instance pyval_eq_dec : EqDecision pyval.
Proof. solve_decision. Defined.

#[local] Instance fs_wf_dec (fs : gmap (list (list N)) node) :
  Decision (fs_wf fs).
Proof. unfold fs_wf. apply _. Defined.

#[local] Instance world_wf_dec (E : Env) (w : World) :
  Decision (world_wf E w).
Proof. unfold world_wf. apply _. Defined.

Ltac by_computation :=
  cbv zeta; apply (bool_decide_unpack _); vm_compute; exact I.

(** ** Concrete worlds *)

Definition nl : list N := [10].

Definition ok_response (body : list N) : get_outcome :=
  GetResponse {| status := 200; text := inr body; read := inr body |}.

Definition status_response (code : Z) : get_outcome :=
  GetResponse {| status := code; text := inr []; read := inr [] |}.

(** A server whose working directory [/srv] holds nothing yet. *)
Definition empty_world : World :=
  {| fs := {[ [lit "srv"] := Dir true ]}; gets := [] |}.

Definition url_480p : list N :=
  lit "https://cdn.example/hls/abc/480p/index.m3u8".
Definition url_720p : list N :=
  lit "https://cdn.example/hls/abc/720p/index.m3u8".

Definition profile_480p : StreamProfile :=
  {| name := lit "480p"; width := 854; height := 480;
     bitrate := 1000000; url := Some url_480p |}.
Definition profile_720p : StreamProfile :=
  {| name := lit "720p"; width := 1280; height := 720;
     bitrate := 2000000; url := Some url_720p |}.

(** The end-to-end scenario of the specification: one profile, a
    playlist of two segments, both of which can be had. *)
Definition demo_playlist : list N :=
  lit "#EXTM3U" ++ nl ++ lit "#EXT-X-VERSION:3" ++ nl
  ++ lit "seg0.ts" ++ nl ++ lit "seg1.ts" ++ nl.

Definition demo_env : Env :=
  {| env_cwd := [lit "srv"];
     env_encode := fun s => s;
     env_get := fun _ u =>
       if bool_decide (u = url_480p) then ok_response demo_playlist
       else if bool_decide (u = lit "https://cdn.example/hls/abc/480p/seg0.ts")
       then ok_response (lit "SEGMENT0")
       else if bool_decide (u = lit "https://cdn.example/hls/abc/480p/seg1.ts")
       then ok_response (lit "SEGMENT1")
       else status_response 404 |}.

Definition demo_first : World * (exn + gmap (list N) (list N)) :=
  fetch_and_cache_hls demo_env true [profile_480p] empty_world.

Definition demo_map : gmap (list N) (list N) :=
  {[ lit "480p" := lit "http://localhost:8080/cache/480p/index.m3u8" ]}.

Definition dir_480p : list (list N) :=
  [lit "srv"; lit "cache"; lit "livepeer"; lit "480p"].

(** A session: the origin allocates a stream with one rendition, the
    video to push is on the disk, and the origin has no playlist yet. *)
Definition session_env : Env :=
  {| env_cwd := [lit "srv"];
     env_encode := fun s => s;
     env_get := fun _ _ => status_response 404 |}.

Definition session_world : World :=
  {| fs := <[ [lit "srv"; lit "output"; lit "compressed_video.mp4"]
              := File true (lit "VIDEO") ]>
             (<[ [lit "srv"; lit "output"] := Dir true ]>
                {[ [lit "srv"] := Dir true ]});
     gets := [] |}.

Definition video_path : list N := lit "output/compressed_video.mp4".

Definition allocated : post_outcome :=
  PostResponse
    {| post_status := 200;
       post_text := inr [];
       post_json :=
         inr {| api_id := Some (lit "stream-1");
                api_stream_name := Some STREAM_NAME;
                api_rtmpIngestUrl := Some (lit "rtmp://origin/live/key");
                api_playbackId := Some (lit "abc");
                api_profiles :=
                  Some [ {| api_name := lit "480p"; api_width := 854;
                            api_height := 480; api_bitrate := 1000000 |} ]
             |} |}.

Definition session_pushed : Session :=
  {| post_stream := allocated; ffmpeg := inr 0%Z;
     server_start := None; server_cleanup := None |}.

Definition session_push_failed : Session :=
  {| post_stream := allocated; ffmpeg := inr 1%Z;
     server_start := None; server_cleanup := None |}.

(** What both sessions return. *)
Definition session_result : gmap (list N) pyval :=
  <[k_success := VBool true]>
    (<[k_stream_id := VStr (lit "stream-1")]>
       (<[k_ingest_url := VStr (lit "rtmp://origin/live/key")]>
          (<[k_playback_urls :=
               VDict {[ lit "480p" :=
                          Some (lit "https://cdn.livepeer.studio/hls/abc/480p/index.m3u8") ]}]>
             (<[k_local_playback_urls := VDict ∅]> ∅)))).

Definition base_480p : list N := lit "https://cdn.example/hls/abc/480p".
Definition local_dir_480p : list N := lit "./cache/livepeer/480p".


(** The partial-failure scenario of the specification: three segments,
    and the origin answers the second one with a server error. *)
Definition three_segments : list N :=
  lit "#EXTM3U" ++ nl ++ lit "seg0.ts" ++ nl ++ lit "seg1.ts" ++ nl
  ++ lit "seg2.ts" ++ nl.

Definition flaky_env : Env :=
  {| env_cwd := [lit "srv"];
     env_encode := fun s => s;
     env_get := fun _ u =>
       if bool_decide (u = url_480p) then ok_response three_segments
       else if bool_decide (u = lit "https://cdn.example/hls/abc/480p/seg0.ts")
       then ok_response (lit "SEGMENT0")
       else if bool_decide (u = lit "https://cdn.example/hls/abc/480p/seg2.ts")
       then ok_response (lit "SEGMENT2")
       else status_response 500 |}.



(** The connection drops while the body of the only segment is read:
    [segment_resp.read()] raises [aiohttp.ClientPayloadError]. *)
Definition payload_error : exn :=
  Exn ClientError (lit "Response payload is not completed").

Definition one_segment : list N :=
  lit "#EXTM3U" ++ nl ++ lit "seg0.ts" ++ nl.

Definition broken_env : Env :=
  {| env_cwd := [lit "srv"];
     env_encode := fun s => s;
     env_get := fun _ u =>
       if bool_decide (u = url_480p) then ok_response one_segment
       else if bool_decide (u = lit "https://cdn.example/hls/abc/480p/seg0.ts")
       then GetResponse {| status := 200; text := inl payload_error;
                           read := inl payload_error |}
       else status_response 404 |}.

Definition broken_first : World * (exn + gmap (list N) (list N)) :=
  fetch_and_cache_hls broken_env true [profile_480p] empty_world.

(** A playlist whose key line holds the URI of the key, under the
    origin's own prefix. *)
Definition key_line : list N :=
  lit "#EXT-X-KEY:METHOD=AES-128,URI=" ++ [quote]
  ++ lit "https://cdn.example/hls/abc/720p/key.bin" ++ [quote].

Definition key_line_rewritten : list N :=
  lit "#EXT-X-KEY:METHOD=AES-128,URI=" ++ [quote]
  ++ lit "http://localhost:8080/cache/720p/key.bin" ++ [quote].

Definition key_playlist : list N :=
  lit "#EXTM3U" ++ nl ++ key_line ++ nl ++ lit "seg0.ts" ++ nl.

(** A server whose cache is empty, on a machine with [/etc/passwd]. *)
Definition traversal_world : World :=
  {| fs := <[ [lit "etc"; lit "passwd"] := File true (lit "root:x:0:0") ]>
             (<[ [lit "etc"] := Dir true ]>
                (<[ [lit "srv"; lit "cache"; lit "livepeer"] := Dir true ]>
                   (<[ [lit "srv"; lit "cache"] := Dir true ]>
                      {[ [lit "srv"] := Dir true ]})));
     gets := [] |}.

Definition traversal_filename : list N := lit "../../../etc/passwd".

(** The cache of [demo_first], with a segment the server may not read. *)
Definition locked_world : World :=
  {| fs := <[ dir_480p ++ [lit "seg0.ts"] := File false (lit "SEGMENT0") ]>
             (fs (fst demo_first));
     gets := [] |}.

(** ** Further notions: what a run leaves of the world *)

(** Two nodes of the same kind, with the same permission. *)
Definition same_kind (a b : node) : Prop :=
  match a, b with
  | File r _, File r' _ => r = r'
  | Dir r, Dir r' => r = r'
  | _, _ => False
  end.

(** Every entry is still there, a file as a file and a directory as a
    directory. *)
Definition fs_keeps (fs fs' : gmap (list (list N)) node) : Prop :=
  forall q nd, fs !! q = Some nd ->
               exists nd', fs' !! q = Some nd' /\ same_kind nd nd'.

(** The later world has every entry of the earlier one, and its GETs
    begin with the earlier ones. *)
Definition world_keeps (w w' : World) : Prop :=
  fs_keeps (fs w) (fs w') /\ gets w `prefix_of` gets w'.

(** The later world has the GETs of the earlier one, followed by GETs
    of URLs in [G] only. *)
Definition gets_within (G : list N -> Prop) (w w' : World) : Prop :=
  exists new, gets w' = gets w ++ new /\ Forall G new.

(** The URLs of a list of profiles, and everything below their base
    URLs. *)
Definition origin_of (profiles : list StreamProfile) (u : list N) : Prop :=
  exists p pu, p ∈ profiles /\ url p = Some pu
               /\ (u = pu \/ (base_url_of pu ++ [slash]) `prefix_of` u).

(** Whatever it returns or raises, a computation leaves a world related
    to the one it started in. *)
Definition keeps {S A} (R : relation World) (proj : S -> World)
    (m : M S A) : Prop :=
  forall s, R (proj s) (proj (m s).1).

(** Well-formedness, once there, stays. *)
Definition wf_kept (E : Env) (w w' : World) : Prop :=
  world_wf E w -> world_wf E w'.

(** No file is closed to the process. *)
Definition all_readable (fs : gmap (list (list N)) node) : Prop :=
  map_Forall (fun (_ : list (list N)) (nd : node) =>
                match nd with File false _ => false | _ => true end = true)
             fs.

#[global] Instance all_readable_dec (fs : gmap (list (list N)) node) :
  Decision (all_readable fs).
Proof. unfold all_readable. apply _. Defined.

#[local] Instance response_eq_dec : EqDecision response.
Proof. solve_decision. Defined.

#[local] Instance get_outcome_eq_dec : EqDecision get_outcome.
Proof. solve_decision. Defined.

(** The first segment of the demo, fetched into the empty world. *)
Definition seg0_url : list N := base_480p ++ [slash] ++ lit "seg0.ts".

Definition seg0_fetched : World :=
  fst (download_segment demo_env seg0_url
         (path_join (path_join LOCAL_CACHE_DIR (lit "480p")) (lit "seg0.ts"))
         empty_world).

(** The state after the body of the loop over the profiles has run for
    the 480p profile of the demo, in the empty world. *)
Definition fill_start : FillState :=
  {| fill_world := empty_world; local_urls := ∅ |}.

Definition playlist_cached : FillState :=
  fst (cache_profile demo_env profile_480p fill_start).

#[local] Instance StreamProfile_eq_dec : EqDecision StreamProfile.
Proof. solve_decision. Defined.

#[local] Instance StreamInfo_eq_dec : EqDecision StreamInfo.
Proof. solve_decision. Defined.

#[local] Instance api_profile_eq_dec : EqDecision api_profile.
Proof. solve_decision. Defined.

#[local] Instance api_stream_eq_dec : EqDecision api_stream.
Proof. solve_decision. Defined.

#[local] Instance post_response_eq_dec : EqDecision post_response.
Proof. solve_decision. Defined.

#[local] Instance post_outcome_eq_dec : EqDecision post_outcome.
Proof. solve_decision. Defined.

(** The stream that [allocated] describes. *)
Definition studio_url : list N :=
  lit "https://cdn.livepeer.studio/hls/abc/480p/index.m3u8".

Definition studio_stream : StreamInfo :=
  {| info_id := lit "stream-1";
     info_name := STREAM_NAME;
     ingest := lit "rtmp://origin/live/key";
     playback := [ {| name := lit "480p"; width := 854; height := 480;
                      bitrate := 1000000; url := Some studio_url |} ] |}.

(** An origin that has the playlist of that stream and its segments. *)
Definition studio_env : Env :=
  {| env_cwd := [lit "srv"];
     env_encode := fun s => s;
     env_get := fun _ u =>
       if bool_decide (u = studio_url) then ok_response demo_playlist
       else if bool_decide
                 (u = lit "https://cdn.livepeer.studio/hls/abc/480p/seg0.ts")
       then ok_response (lit "SEGMENT0")
       else if bool_decide
                 (u = lit "https://cdn.livepeer.studio/hls/abc/480p/seg1.ts")
       then ok_response (lit "SEGMENT1")
       else status_response 404 |}.

(** A session whose local server finds its port taken. *)
Definition port_taken : exn :=
  Exn OSError (lit "[Errno 98] address already in use").

Definition session_port_taken : Session :=
  {| post_stream := allocated; ffmpeg := inr 0%Z;
     server_start := Some port_taken; server_cleanup := None |}.

(** A session whose API key the origin does not accept. *)
Definition refusal : post_response :=
  {| post_status := 401;
     post_text := inr (lit "unauthorized");
     post_json := inl (Exn ValueError (lit "Expecting value")) |}.

Definition session_refused : Session :=
  {| post_stream := PostResponse refusal; ffmpeg := inr 0%Z;
     server_start := None; server_cleanup := None |}.

(** [f"https://cdn.livepeer.studio/hls/{playback_id}/{profile.name}/index.m3u8"] *)
Definition playback_url (playback_id profile_name : list N) : list N :=
  lit "https://cdn.livepeer.studio/hls/" ++ playback_id ++ [slash]
  ++ profile_name ++ [slash] ++ index_m3u8.

(** Readability of every file, once there, stays. *)
Definition readable_kept (w w' : World) : Prop :=
  all_readable (fs w) -> all_readable (fs w').

(** The playlist of the profile of that name lies in the cache, as a
    file the server may read. *)
Definition playlist_in_cache (E : Env) (w : World) (profile_name : list N)
    : Prop :=
  exists (f : list (list N)) (data : list N),
    resolve (fs w) (env_cwd E)
            (path_join (path_join LOCAL_CACHE_DIR profile_name) index_m3u8)
    = Some f
    /\ f <> [] /\ fs w !! f = Some (File true data).

(** * The pipeline of [pipeline.py]

    [process_video] and what it calls, with the helpers of the
    configuration.

    - A JSON value, which is what a configuration, a metadata file and
      the result of the pipeline hold, is a [json]; a [dict] is the list
      of its items in insertion order.
    - The compression model, the node scripts, the clock and the JSON
      parser are tools of the environment: what they return, raise and
      do to the files is given by a [Tools]; the commands started are
      logged.
    - Every handler of the pipeline is [except Exception] and reads only
      [str(e)]; an exception whose class [exn_class] does not name
      ([KeyError], [TypeError], [RuntimeError]) has the class
      [PlainException] here.  Messages are those of CPython 3.11. *)

From Stdlib Require SpecFloat.

#[warnings="-register-all"] Inductive json : Type :=
| JNull
| JBool (b : bool)
| JInt (n : Z)
| JFloat (f : SpecFloat.spec_float)
| JStr (s : list N)
| JList (l : list json)
| JDict (items : list (list N * json)).

(** [bool(v)] *)
Definition truthy (v : json) : bool :=
  match v with
  | JNull => false
  | JBool b => b
  | JInt n => negb (n =? 0)%Z
  | JFloat f => match f with SpecFloat.S754_zero _ => false | _ => true end
  | JStr s => match s with [] => false | _ :: _ => true end
  | JList l => match l with [] => false | _ :: _ => true end
  | JDict items => match items with [] => false | _ :: _ => true end
  end.

(** [type(v).__name__] *)
Definition type_name (v : json) : list N :=
  match v with
  | JNull => lit "NoneType"
  | JBool _ => lit "bool"
  | JInt _ => lit "int"
  | JFloat _ => lit "float"
  | JStr _ => lit "str"
  | JList _ => lit "list"
  | JDict _ => lit "dict"
  end.

(** [d.get(k)] *)
Fixpoint dict_get (k : list N) (d : list (list N * json)) : option json :=
  match d with
  | [] => None
  | (k', v) :: d' => if bool_decide (k' = k) then Some v else dict_get k d'
  end.

(** [k in d] *)
Definition dict_has (k : list N) (d : list (list N * json)) : bool :=
  match dict_get k d with Some _ => true | None => false end.

(** [d[k] = v]: the value of a key that is there is replaced where it
    is, a new key goes last. *)
Fixpoint dict_set (k : list N) (v : json) (d : list (list N * json))
    : list (list N * json) :=
  match d with
  | [] => [(k, v)]
  | (k', v') :: d' =>
      if bool_decide (k' = k) then (k, v) :: d'
      else (k', v') :: dict_set k v d'
  end.

(** [v[k]] for a [str] key. *)
Definition subscript (v : json) (k : list N) : exn + json :=
  match v with
  | JDict items =>
      match dict_get k items with
      | Some x => inr x
      | None => inl (Exn PlainException ([apostrophe] ++ k ++ [apostrophe]))
      end
  | JStr _ =>
      inl (Exn PlainException
             (lit "string indices must be integers, not 'str'"))
  | JList _ =>
      inl (Exn PlainException
             (lit "list indices must be integers or slices, not str"))
  | _ =>
      inl (Exn PlainException
             ([apostrophe] ++ type_name v
              ++ lit "' object is not subscriptable"))
  end.

(** [k in v] for a [str] key: a key of a dict, a substring of a string,
    an element of a list. *)
Definition contains (v : json) (k : list N) : exn + bool :=
  match v with
  | JDict items => inr (dict_has k items)
  | JStr s => inr (occursb k s)
  | JList l =>
      inr (existsb (fun x => match x with
                             | JStr s => bool_decide (s = k)
                             | _ => false
                             end) l)
  | _ =>
      inl (Exn PlainException
             (lit "argument of type '" ++ type_name v
              ++ lit "' is not iterable"))
  end.

(** [v[k] = x] for a [str] key. *)
Definition assign_item (v : json) (k : list N) (x : json) : exn + json :=
  match v with
  | JDict items => inr (JDict (dict_set k x items))
  | JList _ =>
      inl (Exn PlainException
             (lit "list indices must be integers or slices, not str"))
  | _ =>
      inl (Exn PlainException
             ([apostrophe] ++ type_name v
              ++ lit "' object does not support item assignment"))
  end.

(** ** The configuration *)

(** [_update_nested_dict(d, u)], by the dict [u]: the loop over
    [u.items()] runs inside. *)
Fixpoint update_from (u : json) (d : list (list N * json)) {struct u}
    : list (list N * json) :=
  match u with
  | JDict items =>
      (fix loop (items : list (list N * json)) (d : list (list N * json))
         : list (list N * json) :=
         match items with
         | [] => d
         | (k, v) :: rest =>
             loop rest
               match v, dict_get k d with
               | JDict _, Some (JDict dk) =>
                   dict_set k (JDict (update_from v dk)) d
               | _, _ => dict_set k v d
               end
         end) items d
  | _ => d
  end.

Definition _update_nested_dict (d u : list (list N * json))
    : list (list N * json) :=
  update_from (JDict u) d.

(** [if section in safe_config: if key in safe_config[section]:
    safe_config[section][key] = ""] *)
Definition blank (section key : list N) (safe_config : list (list N * json))
    : exn + list (list N * json) :=
  match dict_get section safe_config with
  | None => inr safe_config
  | Some held =>
      match contains held key with
      | inl e => inl e
      | inr false => inr safe_config
      | inr true =>
          match assign_item held key (JStr []) with
          | inl e => inl e
          | inr held' => inr (dict_set section held' safe_config)
          end
      end
  end.

Definition k_ethereum : list N := Eval cbv in lit "ethereum".
Definition k_private_key : list N := Eval cbv in lit "private_key".
Definition k_ipfs : list N := Eval cbv in lit "ipfs".
Definition k_token : list N := Eval cbv in lit "token".
Definition k_livepeer : list N := Eval cbv in lit "livepeer".
Definition k_api_key : list N := Eval cbv in lit "api_key".

(** [_get_safe_config(config)]; [json.loads(json.dumps(config))] gives
    a copy of the value. *)
Definition _get_safe_config (config : list (list N * json))
    : exn + list (list N * json) :=
  match blank k_ethereum k_private_key config with
  | inl e => inl e
  | inr c1 =>
      match blank k_ipfs k_token c1 with
      | inl e => inl e
      | inr c2 => blank k_livepeer k_api_key c2
      end
  end.

(** ** Strings and paths of the pipeline *)

Definition colon : N := 58.
Definition period : N := 46.

(** [c.isspace()] *)
Definition is_space (c : N) : bool :=
  ((9 <=? c) && (c <=? 13)) || ((28 <=? c) && (c <=? 32)) || (c =? 133)
  || (c =? 160) || (c =? 5760) || ((8192 <=? c) && (c <=? 8202))
  || (c =? 8232) || (c =? 8233) || (c =? 8239) || (c =? 8287)
  || (c =? 12288).

(** [s.strip()] *)
Definition strip (s : list N) : list N :=
  reverse (drop_while is_space (reverse (drop_while is_space s))).

Fixpoint take_while (f : N -> bool) (s : list N) : list N :=
  match s with
  | [] => []
  | c :: s' => if f c then c :: take_while f s' else []
  end.

(** [os.path.basename(p)]: what follows the last slash. *)
Definition basename (p : list N) : list N :=
  reverse (take_while (fun c => negb (c =? slash)) (reverse p)).

(** [os.path.splitext(p)[0]]: [p] up to the last dot of its last
    component, unless only dots precede that dot in the component. *)
Definition splitext_root (p : list N) : list N :=
  let tail := basename p in
  let head := take (length p - length tail) p in
  match rsplit_head tail period with
  | Some stem =>
      if forallb (fun c => c =? period) stem then p else head ++ stem
  | None => p
  end.

(** The first of the lines that holds the marker. *)
Fixpoint first_with (marker : list N) (lines : list (list N))
    : option (list N) :=
  match lines with
  | [] => None
  | line :: rest =>
      if occursb marker line then Some line else first_with marker rest
  end.

(** The loop that looks for a marker in the output of a script:
    [line.split(":")[-1].strip()] of the first line that holds it, or
    [None]. *)
Definition parse_after (marker output : list N) : json :=
  match first_with marker (splitlines output) with
  | Some line => JStr (strip (List.last (split colon line) []))
  | None => JNull
  end.

(** ** The tools and the machine *)

(** A process that has ended: its return code, and what decoding its
    output gives. *)
Record process : Type := {
  returncode : Z;
  stdout_decode : exn + list N;
  stderr_decode : exn + list N
}.

Record Tools : Type := {
  (** [compress_video(model, input_path, output_path, device)]: what it
      leaves of the files, and the exception it raises, if any. *)
  compress :
    list N -> list N -> gmap (list (list N)) node
    -> gmap (list (list N)) node * option exn;
  (** [asyncio.create_subprocess_exec] and [process.communicate()], by
      the command and the variables set in [env]. *)
  run_command :
    list json -> list (list N * json) -> gmap (list (list N)) node
    -> gmap (list (list N)) node * (exn + process);
  (** [os.environ[name] = value]: the exception it raises, if any, for
      a value that is no [str] or that the environment cannot hold. *)
  putenv : list N -> json -> option exn;
  (** [time.strftime('%Y-%m-%d')] *)
  today : list N;
  (** [json.load(f)], by what the file holds. *)
  json_load : list N -> exn + json;
  (** The text [json.dump(v, f, indent=2)] writes. *)
  json_dump : json -> list N;
  (** [os.environ] when the pipeline starts. *)
  environ : list N -> option (list N)
}.

(** The machine the pipeline runs on: the world, and the commands
    started so far, oldest first. *)
Record Machine : Type := {
  machine_world : World;
  spawned : list (list json)
}.

Definition in_machine {A} (m : M World A) : M Machine A :=
  fun s =>
    match m (machine_world s) with
    | (w', r) => ({| machine_world := w'; spawned := spawned s |}, r)
    end.

Section Pipeline.
Variable E : Env.
Variable T : Tools.
Variable S : Session.

Definition create_subprocess_exec (cmd : list json)
    (env : list (list N * json)) : M Machine process :=
  fun s =>
    match run_command T cmd env (fs (machine_world s)) with
    | (fs', r) =>
        ({| machine_world := {| fs := fs'; gets := gets (machine_world s) |};
            spawned := spawned s ++ [cmd] |}, r)
    end.

Definition compress_video (input_path output_path : list N)
    : M Machine (list N) :=
  fun s =>
    match compress T input_path output_path (fs (machine_world s)) with
    | (fs', outcome) =>
        ({| machine_world := {| fs := fs'; gets := gets (machine_world s) |};
            spawned := spawned s |},
         match outcome with
         | Some e => inl e
         | None => inr output_path
         end)
    end.

(** What both scripts are awaited with: a return code other than 0 is
    an exception, after [stderr] is decoded for the message printed. *)
Definition communicate (what : string) (cmd : list json)
    (env : list (list N * json)) : M Machine (list N) :=
  let* p := create_subprocess_exec cmd env in
  if negb (returncode p =? 0)%Z then
    let* _ := of_result (stderr_decode p) in
    raise (Exn PlainException
             (lit what ++ lit " failed with code "
              ++ str_of_int (returncode p)))
  else of_result (stdout_decode p).

Definition k_registered : list N := Eval cbv in lit "registered".
Definition k_reason : list N := Eval cbv in lit "reason".
Definition k_ipfsHash : list N := Eval cbv in lit "ipfsHash".
Definition k_title : list N := Eval cbv in lit "title".
Definition k_description : list N := Eval cbv in lit "description".
Definition k_videoId : list N := Eval cbv in lit "videoId".
Definition k_output : list N := Eval cbv in lit "output".
Definition k_contract_address : list N := Eval cbv in lit "contract_address".
Definition k_provider_url : list N := Eval cbv in lit "provider_url".

Definition not_registered (reason : list N) : json :=
  JDict [(k_registered, JBool false); (k_reason, JStr reason)].

(** [register_on_blockchain(metadata, price)] *)
Definition register_on_blockchain (config : json)
    (metadata : list (list N * json)) (price : list N) : M Machine json :=
  let* ethereum := of_result (subscript config k_ethereum) in
  let* contract_address := of_result (subscript ethereum k_contract_address) in
  if negb (truthy contract_address) then
    ret (not_registered (lit "No contract address provided"))
  else
    let* private_key := of_result (subscript ethereum k_private_key) in
    if negb (truthy private_key) then
      ret (not_registered (lit "No private key provided"))
    else
      let ipfs_hash := default JNull (dict_get k_ipfsHash metadata) in
      let title := default JNull (dict_get k_title metadata) in
      let description := default (JStr []) (dict_get k_description metadata) in
      if negb (truthy ipfs_hash) then
        ret (not_registered (lit "No IPFS hash in metadata"))
      else
        let* provider_url := of_result (subscript ethereum k_provider_url) in
        let env := [(lit "PROVIDER_URL", provider_url);
                    (lit "CONTRACT_ADDRESS", contract_address);
                    (lit "PRIVATE_KEY", private_key)] in
        let cmd := [JStr (lit "node"); JStr (lit "web3client.js");
                    JStr (lit "upload"); title; description; ipfs_hash;
                    JStr price] in
        except_Exception
          (let* output := communicate "Blockchain registration" cmd env in
           ret (JDict
                  [(k_registered, JBool true);
                   (k_videoId,
                    parse_after (lit "Video uploaded successfully with ID:")
                                output);
                   (k_output, JStr output)]))
          (fun e =>
             ret (JDict [(k_registered, JBool false);
                         (k_reason, JStr (exn_msg e));
                         (k_error, JStr (exn_msg e))])).

Definition ipfs_handler_web3storage : list N :=
  Eval cbv in lit "ipfs_handler_web3storage.js".
Definition metadata_path : list N :=
  Eval cbv in path_join (lit "output") (lit "metadata.json").

(** The variables [run_ipfs_upload] sets in the environment of the
    script: [if "ipfs" in self.config and "token" in
    self.config["ipfs"]: env["WEB3STORAGE_TOKEN"] = ...]. *)
Definition upload_environment (config : json)
    : exn + list (list N * json) :=
  match contains config k_ipfs with
  | inl e => inl e
  | inr false => inr []
  | inr true =>
      match subscript config k_ipfs with
      | inl e => inl e
      | inr ipfs =>
          match contains ipfs k_token with
          | inl e => inl e
          | inr false => inr []
          | inr true =>
              match subscript ipfs k_token with
              | inl e => inl e
              | inr token => inr [(lit "WEB3STORAGE_TOKEN", token)]
              end
          end
      end
  end.

(** [run_ipfs_upload(video_path, title, description)]; its handler
    prints the exception and raises it again. *)
Definition run_ipfs_upload (config : json)
    (video_path title description : list N) : M Machine json :=
  let* there := in_machine (path_exists E video_path) in
  if negb there then
    raise (Exn OSError (lit "Video file not found: " ++ video_path))
  else
    let* env := of_result (upload_environment config) in
    let* there := in_machine (path_exists E ipfs_handler_web3storage) in
    let ipfs_script :=
      if there then ipfs_handler_web3storage else lit "ipfs_handler.js" in
    let cmd := [JStr (lit "node"); JStr ipfs_script; JStr video_path;
                JStr title; JStr description] in
    let* output := communicate "IPFS upload" cmd env in
    let ipfs_hash := parse_after (lit "Video IPFS Hash:") output in
    let* there := in_machine (path_exists E metadata_path) in
    if there then
      let* content := in_machine (read_rb E metadata_path) in
      of_result (json_load T content)
    else
      ret (JDict [(k_ipfsHash, ipfs_hash); (k_title, JStr title);
                  (k_description, JStr description)]).

Definition running_loop_message : list N :=
  Eval cbv in
    lit "asyncio.run() cannot be called from a running event loop".

(** [stream_video(video_path)]: [asyncio.run] refuses to run where an
    event loop is running, as one is wherever a coroutine calls it. *)
Definition stream_video (loop_running CACHE_ENABLED : bool)
    (video_path : list N) : M World (gmap (list N) pyval) :=
  if loop_running then raise (Exn PlainException running_loop_message)
  else stream_video_to_livepeer E S CACHE_ENABLED video_path.

Definition json_of_pyval (v : pyval) : json :=
  match v with
  | VNone => JNull
  | VBool b => JBool b
  | VStr s => JStr s
  | VDict d =>
      JDict (map (fun kv : list N * option (list N) =>
                    (fst kv, match snd kv with
                             | Some s => JStr s
                             | None => JNull
                             end)) (map_to_list d))
  end.

(** The result dict of a session, its keys in the order they are
    set. *)
Definition json_of_result (d : gmap (list N) pyval) : json :=
  JDict (omap (fun k => v ← d !! k; Some (k, json_of_pyval v))
              [k_success; k_stream_id; k_ingest_url; k_playback_urls;
               k_local_playback_urls; k_error]).

Definition k_input : list N := Eval cbv in lit "input".
Definition k_compression : list N := Eval cbv in lit "compression".
Definition k_streaming : list N := Eval cbv in lit "streaming".
Definition k_blockchain : list N := Eval cbv in lit "blockchain".
Definition k_output_path : list N := Eval cbv in lit "output_path".
Definition k_directories : list N := Eval cbv in lit "directories".
Definition k_stream_name : list N := Eval cbv in lit "stream_name".
Definition k_cache_enabled : list N := Eval cbv in lit "cache_enabled".
Definition k_server_port : list N := Eval cbv in lit "server_port".

Definition failed (e : exn) : json :=
  JDict [(k_success, JBool false); (k_error, JStr (exn_msg e))].

(** The first argument of [os.path.join] has to be a [str]. *)
Definition fspath (v : json) : exn + list N :=
  match v with
  | JStr s => inr s
  | _ =>
      inl (Exn PlainException
             (lit "expected str, bytes or os.PathLike object, not "
              ++ type_name v))
  end.

(** [os.environ[name] = value] *)
Definition environ_set (name : list N) (value : json) : exn + unit :=
  match putenv T name value with
  | Some e => inl e
  | None => inr tt
  end.

(** Step 1 of [process_video]: the result and the video the next steps
    work on. *)
Definition compression_step (config : json) (input_path : list N)
    (res : list (list N * json))
    : M Machine (list (list N * json) * list N) :=
  except_Exception
    (let* directories := of_result (subscript config k_directories) in
     let* output := of_result (subscript directories k_output) in
     let* output := of_result (fspath output) in
     let output_path :=
       path_join output (lit "compressed_" ++ basename input_path) in
     let* compressed_path := compress_video input_path output_path in
     ret (dict_set k_compression
            (JDict [(k_success, JBool true);
                    (k_output_path, JStr compressed_path)]) res,
          compressed_path))
    (fun e => ret (dict_set k_compression (failed e) res, input_path)).

(** Step 2; the coroutine runs in an event loop. *)
Definition streaming_step (config : json) (working_video : list N)
    (res : list (list N * json)) : M Machine (list (list N * json)) :=
  except_Exception
    (let* livepeer := of_result (subscript config k_livepeer) in
     let* api_key := of_result (subscript livepeer k_api_key) in
     let* _ := of_result (environ_set (lit "LIVEPEER_API_KEY") api_key) in
     let* _ := of_result (subscript livepeer k_stream_name) in
     let* cache_enabled := of_result (subscript livepeer k_cache_enabled) in
     let* _ := of_result (subscript livepeer k_server_port) in
     let* stream_result :=
       in_machine (stream_video true (truthy cache_enabled) working_video) in
     ret (dict_set k_streaming (json_of_result stream_result) res))
    (fun e => ret (dict_set k_streaming (failed e) res)).

(** [{"success": True, **ipfs_result}] *)
Definition with_success (ipfs_result : json)
    : exn + list (list N * json) :=
  match ipfs_result with
  | JDict items =>
      inr (fold_left (fun d kv => dict_set (fst kv) (snd kv) d) items
                     [(k_success, JBool true)])
  | _ =>
      inl (Exn PlainException
             ([apostrophe] ++ type_name ipfs_result
              ++ lit "' object is not a mapping"))
  end.

(** Step 3 *)
Definition ipfs_step (config : json)
    (working_video title description : list N)
    (res : list (list N * json)) : M Machine (list (list N * json)) :=
  except_Exception
    (let* ipfs_result :=
       run_ipfs_upload config working_video title description in
     let* entry := of_result (with_success ipfs_result) in
     ret (dict_set k_ipfs (JDict entry) res))
    (fun e => ret (dict_set k_ipfs (failed e) res)).

(** Step 4 *)
Definition blockchain_step (config : json) (price : list N)
    (metadata : list (list N * json))
    (res : list (list N * json)) : M Machine (list (list N * json)) :=
  except_Exception
    (let* blockchain_result := register_on_blockchain config metadata price in
     ret (dict_set k_blockchain blockchain_result res))
    (fun e => ret (dict_set k_blockchain (failed e) res)).

(** [register_blockchain and result["ipfs"] and
    result["ipfs"]["success"]]: the metadata step 4 is run with. *)
Definition registrable (register_blockchain : bool)
    (res : list (list N * json)) : option (list (list N * json)) :=
  if register_blockchain then
    match dict_get k_ipfs res with
    | Some (JDict items) =>
        if truthy (JDict items)
           && truthy (default JNull (dict_get k_success items))
        then Some items else None
    | _ => None
    end
  else None.

Definition initial_pipeline_result (input_path : list N)
    : list (list N * json) :=
  [(k_input, JStr input_path); (k_compression, JNull);
   (k_streaming, JNull); (k_ipfs, JNull); (k_blockchain, JNull)].

(** [process_video(input_path, title, description, price, stream,
    upload_to_ipfs, register_blockchain)] *)
Definition process_video (config : json) (input_path : list N)
    (title description : option (list N)) (price : list N)
    (stream upload_to_ipfs register_blockchain : bool)
    : M Machine (list (list N * json)) :=
  let res := initial_pipeline_result input_path in
  let* there := in_machine (path_exists E input_path) in
  if negb there then ret res
  else
    let title :=
      match title with
      | Some (c :: t) => c :: t
      | _ => splitext_root (basename input_path)
      end in
    let description :=
      match description with
      | Some (c :: d) => c :: d
      | _ =>
          lit "Video processed by Decentralized Video Pipeline on "
          ++ today T
      end in
    let* (res, working_video) := compression_step config input_path res in
    let* res :=
      if stream then streaming_step config working_video res else ret res in
    let* res :=
      if upload_to_ipfs
      then ipfs_step config working_video title description res
      else ret res in
    match registrable register_blockchain res with
    | Some metadata => blockchain_step config price metadata res
    | None => ret res
    end.

End Pipeline.

(** ** Loading and saving the configuration *)

Section Configuration.
Variable E : Env.
Variable T : Tools.

(** [os.environ.get(name, fallback)] *)
Definition environ_get (name fallback : list N) : list N :=
  default fallback (environ T name).

(** The default configuration of [_load_config]. *)
Definition default_config : list (list N * json) :=
  [(k_directories,
    JDict [(k_input, JStr (lit "input"));
           (k_output, JStr (lit "output"));
           (lit "model", JStr (lit "model"));
           (lit "cache", JStr (lit "cache"))]);
   (lit "model",
    JDict [(lit "path", JStr (lit "model/residual_encoder.pth"));
           (lit "training_video", JNull)]);
   (k_livepeer,
    JDict [(k_api_key, JStr (environ_get (lit "LIVEPEER_API_KEY") []));
           (k_stream_name, JStr (lit "decentralized-video-stream"));
           (k_cache_enabled, JBool true);
           (k_server_port, JInt 8080)]);
   (k_ipfs,
    JDict [(lit "service", JStr (lit "web3.storage"));
           (k_token, JStr (environ_get (lit "WEB3STORAGE_TOKEN") []));
           (lit "gateway", JStr (lit "https://{cid}.ipfs.w3s.link"))]);
   (k_ethereum,
    JDict [(k_provider_url,
            JStr (environ_get (lit "PROVIDER_URL")
                              (lit "http://localhost:8545")));
           (k_contract_address,
            JStr (environ_get (lit "CONTRACT_ADDRESS") []));
           (k_private_key, JStr (environ_get (lit "PRIVATE_KEY") []))])].

(** [_save_config(config, config_path)] *)
Definition _save_config (config : list (list N * json))
    (config_path : list N) : M World unit :=
  except_Exception
    (makedirs E (dirname (abspath E config_path)) ;;;
     let* safe_config := of_result (_get_safe_config config) in
     let* f := open_w E config_path in
     write f (env_encode E (json_dump T (JDict safe_config))))
    (fun _ => ret tt).

(** [if name in os.environ: config[section][key] = os.environ[name]] *)
Definition from_environ (name section key : list N)
    (config : list (list N * json)) : exn + list (list N * json) :=
  match environ T name with
  | None => inr config
  | Some value =>
      match subscript (JDict config) section with
      | inl e => inl e
      | inr held =>
          match assign_item held key (JStr value) with
          | inl e => inl e
          | inr held' => inr (dict_set section held' config)
          end
      end
  end.

(** [_load_config(config_path)] *)
Definition _load_config (config_path : list N)
    : M World (list (list N * json)) :=
  let* config :=
    except_Exception
      (let* there := path_exists E config_path in
       if there then
         let* content := read_rb E config_path in
         let* loaded_config := of_result (json_load T content) in
         match loaded_config with
         | JDict u => ret (_update_nested_dict default_config u)
         | _ =>
             raise (Exn PlainException
                      ([apostrophe] ++ type_name loaded_config
                       ++ lit "' object has no attribute 'items'"))
         end
       else
         _save_config default_config config_path ;;;
         ret default_config)
      (fun _ => ret default_config) in
  let* config :=
    of_result (from_environ (lit "LIVEPEER_API_KEY") k_livepeer k_api_key
                            config) in
  of_result (from_environ (lit "WEB3STORAGE_TOKEN") k_ipfs k_token config).

(** [init_directories()] *)
Definition init_directories (config : json) : M World unit :=
  let* directories := of_result (subscript config k_directories) in
  match directories with
  | JDict items =>
      for_each (fun item : list N * json =>
                  match snd item with
                  | JStr dir_path => makedirs E dir_path
                  | v =>
                      raise (Exn PlainException
                               (lit "expected str, bytes or os.PathLike object, not "
                                ++ type_name v))
                  end) items
  | _ =>
      raise (Exn PlainException
               ([apostrophe] ++ type_name directories
                ++ lit "' object has no attribute 'items'"))
  end.

End Configuration.

(** ** Notions the properties of the pipeline are stated with *)

(** What a value holds along a path of keys. *)
Fixpoint get_path (path : list (list N)) (v : json) : option json :=
  match path with
  | [] => Some v
  | k :: rest =>
      match v with
      | JDict items =>
          match dict_get k items with
          | Some x => get_path rest x
          | None => None
          end
      | _ => None
      end
  end.

(** No dict of the value has a key twice, as is the case of every
    Python dict. *)
Fixpoint json_ok (v : json) : bool :=
  match v with
  | JDict items =>
      bool_decide (NoDup (map fst items))
      && (fix all (items : list (list N * json)) : bool :=
            match items with
            | [] => true
            | (_, x) :: rest => json_ok x && all rest
            end) items
  | JList l =>
      (fix all (l : list json) : bool :=
         match l with
         | [] => true
         | x :: rest => json_ok x && all rest
         end) l
  | _ => true
  end.

(** The update has a value at the path, or at a point above it that is
    no dict: it says what the path holds afterwards. *)
Fixpoint overrides (u : list (list N * json)) (path : list (list N))
    {struct path} : bool :=
  match path with
  | [] => true
  | k :: rest =>
      match dict_get k u with
      | None => false
      | Some (JDict vu) =>
          match rest with [] => true | _ :: _ => overrides vu rest end
      | Some _ => true
      end
  end.

Definition is_dict (v : json) : bool :=
  match v with JDict _ => true | _ => false end.

(** The sections and keys that hold the secrets. *)
Definition secrets : list (list N * list N) :=
  [(k_ethereum, k_private_key); (k_ipfs, k_token); (k_livepeer, k_api_key)].

(** ** A concrete pipeline *)

(** The default configuration of [_load_config], in an environment that
    sets the API key, the token, the contract address and the private
    key. *)
Definition demo_config : list (list N * json) :=
  [(lit "directories",
    JDict [(lit "input", JStr (lit "input"));
           (lit "output", JStr (lit "output"));
           (lit "model", JStr (lit "model"));
           (lit "cache", JStr (lit "cache"))]);
   (lit "model",
    JDict [(lit "path", JStr (lit "model/residual_encoder.pth"));
           (lit "training_video", JNull)]);
   (lit "livepeer",
    JDict [(lit "api_key", JStr (lit "lp-secret"));
           (lit "stream_name", JStr (lit "decentralized-video-stream"));
           (lit "cache_enabled", JBool true);
           (lit "server_port", JInt 8080)]);
   (lit "ipfs",
    JDict [(lit "service", JStr (lit "web3.storage"));
           (lit "token", JStr (lit "w3-secret"));
           (lit "gateway", JStr (lit "https://{cid}.ipfs.w3s.link"))]);
   (lit "ethereum",
    JDict [(lit "provider_url", JStr (lit "http://localhost:8545"));
           (lit "contract_address", JStr (lit "0xC0FFEE"));
           (lit "private_key", JStr (lit "0xKEY"))])].

(** A configuration file that moves the server and the provider. *)
Definition loaded_config : list (list N * json) :=
  [(lit "livepeer", JDict [(lit "server_port", JInt 9090)]);
   (lit "ethereum",
    JDict [(lit "provider_url", JStr (lit "https://rpc.example"))])].

Definition demo_safe_config : list (list N * json) :=
  match _get_safe_config demo_config with
  | inr safe => safe
  | inl _ => []
  end.

(** The same configuration without a contract address. *)
Definition config_without_contract : json :=
  JDict [(lit "ethereum",
          JDict [(lit "provider_url", JStr (lit "http://localhost:8545"));
                 (lit "contract_address", JStr []);
                 (lit "private_key", JStr (lit "0xKEY"))])].

(** Tools that work: the model writes the compressed video, the upload
    script prints a hash and the registration script an id. *)
Definition demo_tools : Tools :=
  {| compress := fun _ _ fs =>
       (<[ [lit "srv"; lit "output"; lit "compressed_compressed_video.mp4"]
           := File true (lit "SMALL") ]> fs, None);
     run_command := fun cmd _ fs =>
       (fs,
        inr {| returncode := 0;
               stdout_decode :=
                 inr (match cmd with
                      | _ :: JStr script :: _ =>
                          if bool_decide (script = lit "web3client.js")
                          then lit "Video uploaded successfully with ID: 7"
                          else lit "Video IPFS Hash: bafy123"
                      | _ => []
                      end);
               stderr_decode := inr [] |});
     putenv := fun _ v =>
       match v with
       | JStr _ => None
       | _ => Some (Exn PlainException (lit "str expected, not " ++ type_name v))
       end;
     today := lit "2024-01-01";
     json_load := fun content =>
       if bool_decide (content = lit "{}") then inr (JDict [])
       else inl (Exn ValueError (lit "Expecting value"));
     json_dump := fun v =>
       match get_path [k_ethereum; k_private_key] v with
       | Some (JStr key) => lit "private_key=" ++ key
       | _ => []
       end;
     environ := fun name =>
       if bool_decide (name = lit "LIVEPEER_API_KEY")
       then Some (lit "lp-secret")
       else if bool_decide (name = lit "WEB3STORAGE_TOKEN")
       then Some (lit "w3-secret")
       else if bool_decide (name = lit "CONTRACT_ADDRESS")
       then Some (lit "0xC0FFEE")
       else if bool_decide (name = lit "PRIVATE_KEY")
       then Some (lit "0xKEY")
       else None |}.

Definition demo_machine : Machine :=
  {| machine_world := session_world; spawned := [] |}.

Definition demo_metadata : list (list N * json) :=
  [(k_success, JBool true); (k_ipfsHash, JStr (lit "bafy123"));
   (k_title, JStr (lit "compressed_video"));
   (k_description, JStr (lit "a video"))].

(** The run of the whole pipeline on the video of the session. *)
Definition demo_run : Machine * (exn + list (list N * json)) :=
  process_video session_env demo_tools session_pushed (JDict demo_config)
                video_path None (Some (lit "a video")) (lit "0.1")
                true true true demo_machine.

Definition demo_result : list (list N * json) :=
  match snd demo_run with inr res => res | inl _ => [] end.

(** The machine of the session with a configuration file that is no
    JSON. *)
Definition world_with_bad_config : World :=
  {| fs := <[ [lit "srv"; lit "config.json"] := File true (lit "{oops") ]>
             (fs session_world);
     gets := [] |}.

(** What [_load_config] returns where there is no configuration file. *)
Definition demo_loaded_config : list (list N * json) :=
  match snd (_load_config session_env demo_tools (lit "config.json")
                          session_world) with
  | inr config => config
  | inl _ => []
  end.

(** The world after [init_directories]. *)
Definition world_with_directories : World :=
  fst (init_directories session_env (JDict demo_config) session_world).

#[local] Instance process_eq_dec : EqDecision process.
Proof. solve_decision. Defined.

(** The machine of the session with a metadata file left in [output]. *)
Definition machine_with_metadata : Machine :=
  {| machine_world :=
       {| fs := <[ [lit "srv"; lit "output"; lit "metadata.json"]
                   := File true (lit "{}") ]> (fs session_world);
          gets := [] |};
     spawned := [] |}.

Definition upload_command : list json :=
  [JStr (lit "node"); JStr (lit "ipfs_handler.js"); JStr video_path;
   JStr (lit "a title"); JStr (lit "a video")].

(** * Properties *)

(** ** Strings and the rewriter *)

Lemma startswith_prefix (s p : list N) :
  startswith s p = true <-> p `prefix_of` s.
Proof.
  revert s. induction p as [|c p IH]; intros s; simpl.
  - split; [intros _; apply prefix_nil | done].
  - destruct s as [|d s].
    + split; [done | intros [k Hk]; discriminate].
    + rewrite andb_true_iff, N.eqb_eq, IH. split.
      * intros [-> Hp]. by apply prefix_cons.
      * intros [k Hk]. injection Hk as -> ->. split; [done | by exists k].
Qed.

Lemma endswith_suffix (s p : list N) :
  endswith s p = true <-> p `suffix_of` s.
Proof.
  unfold endswith. rewrite startswith_prefix. split.
  - intros [k Hk]. exists (reverse k).
    apply (inj reverse). by rewrite reverse_app, reverse_involutive.
  - intros [k ->]. exists (reverse k). by rewrite reverse_app.
Qed.

Lemma startswith_app (p t : list N) : startswith (p ++ t) p = true.
Proof. apply startswith_prefix. by exists t. Qed.

Lemma replace_from_drop (k : nat) (s old new : list N) :
  replace_from k s old new = replace_from 0 (drop k s) old new.
Proof.
  revert k. induction s as [|c s IH]; intros [|k]; try reflexivity.
  simpl. apply IH.
Qed.

(** The three equations of [str.replace] for a pattern that is not
    empty. *)
Lemma replace_nil (c : N) (old new : list N) :
  replace [] (c :: old) new = [].
Proof. reflexivity. Qed.

Lemma replace_match (c : N) (old new t : list N) :
  replace ((c :: old) ++ t) (c :: old) new
  = new ++ replace t (c :: old) new.
Proof.
  unfold replace. change ((c :: old) ++ t) with (c :: (old ++ t)).
  cbn [replace_from].
  change (c :: (old ++ t)) with ((c :: old) ++ t).
  rewrite startswith_app, replace_from_drop. f_equal.
  cbn [length]. rewrite Nat.sub_succ, Nat.sub_0_r.
  by rewrite drop_app_length.
Qed.

Lemma replace_skip (d : N) (s old new : list N) :
  old <> [] ->
  startswith (d :: s) old = false ->
  replace (d :: s) old new = d :: replace s old new.
Proof.
  intros Hne Hs. destruct old as [|c old]; [done |].
  unfold replace. cbn [replace_from]. by rewrite Hs.
Qed.

Lemma join_cons (sep p : list N) (ps : list (list N)) :
  join sep (p :: ps)
  = p ++ match ps with [] => [] | _ :: _ => sep ++ join sep ps end.
Proof. destruct ps; simpl; [by rewrite app_nil_r | done]. Qed.

Lemma occurs_nil (old : list N) : old <> [] -> ~ occurs old [].
Proof.
  intros Hne (a & b & H). symmetry in H.
  apply app_eq_nil in H as [_ H]. by apply app_eq_nil in H as [? _].
Qed.

Lemma occurs_cons (old : list N) (d : N) (s : list N) :
  occurs old (d :: s) -> old `prefix_of` (d :: s) \/ occurs old s.
Proof.
  intros ([|d' a] & b & H).
  - left. by exists b.
  - right. injection H as _ ->. by exists a, b.
Qed.

(** [str.replace] cuts the string at occurrences of [old]: the pieces
    hold no occurrence, [old] stood between them and [new] stands there
    in the result. *)
Lemma replace_chunks (s old new : list N) :
  old <> [] ->
  exists chunks : list (list N),
    chunks <> [] /\ s = join old chunks
    /\ replace s old new = join new chunks
    /\ Forall (fun chunk => ~ occurs old chunk) chunks.
Proof.
  intros Hne. remember (length s) as n eqn:Hn. revert s Hn.
  induction n as [n IH] using lt_wf_ind. intros s Hn.
  destruct s as [|d s].
  - exists [[]]. destruct old as [|c old]; [done |].
    repeat split; try done. constructor; [|constructor].
    by apply occurs_nil.
  - destruct (startswith (d :: s) old) eqn:Hs.
    + apply startswith_prefix in Hs as [t Ht].
      destruct old as [|c old]; [done |].
      destruct (IH (length t)) with (s := t)
        as (chunks & Hc & Hj & Hr & Hf); [| done |].
      { subst n. rewrite Ht, length_app. simpl. lia. }
      exists ([] :: chunks). rewrite Ht, replace_match, !join_cons.
      destruct chunks as [|ch rest]; [done |].
      rewrite <- Hj, <- Hr. split_and!; try done.
      constructor; [by apply occurs_nil | done].
    + destruct (IH (length s)) with (s := s)
        as (chunks & Hc & Hj & Hr & Hf); [subst n; simpl; lia | done |].
      destruct chunks as [|ch rest]; [done |].
      exists ((d :: ch) :: rest). rewrite replace_skip by done.
      rewrite !join_cons in *. rewrite <- !app_comm_cons, <- Hj, <- Hr.
      split_and!; try done.
      apply Forall_cons in Hf as [Hch Hrest].
      constructor; [| done]. intros Ho.
      apply occurs_cons in Ho as [[k Hk] | Ho]; [| done].
      assert (startswith (d :: s) old = true) as Hs'; [| congruence].
      apply startswith_prefix. rewrite Hj, app_comm_cons, Hk.
      rewrite <- !app_assoc. by eexists.
Qed.

Lemma replace_absent (s old new : list N) :
  old <> [] -> ~ occurs old s -> replace s old new = s.
Proof.
  intros Hne. induction s as [|d s IH]; intros Ho.
  - by destruct old.
  - rewrite replace_skip; [f_equal; apply IH | done |].
    + intros (a & b & ->). apply Ho. by exists (d :: a), b.
    + destruct (startswith (d :: s) old) eqn:Hs; [| done].
      apply startswith_prefix in Hs as [k Hk]. destruct Ho.
      by exists [], k.
Qed.

Lemma rsplit_head_Some (s : list N) (sep : N) (h : list N) :
  rsplit_head s sep = Some h ->
  exists t, (sep ∉ t) /\ s = h ++ sep :: t.
Proof.
  revert h. induction s as [|c s IH]; intros h; simpl; [done |].
  destruct (rsplit_head s sep) as [h' |] eqn:Hs.
  - intros [= <-]. destruct (IH h' eq_refl) as (t & Ht & ->).
    by exists t.
  - assert (sep ∉ s) as Hnot.
    { clear IH. induction s as [|d s IHs]; [apply not_elem_of_nil |].
      simpl in Hs. destruct (rsplit_head s sep); [done |].
      destruct (N.eqb_spec d sep); [done |].
      apply not_elem_of_cons. split; [done | by apply IHs]. }
    destruct (N.eqb_spec c sep) as [-> |]; [| done].
    intros [= <-]. by exists s.
Qed.

Lemma rsplit_head_None (s : list N) (sep : N) :
  rsplit_head s sep = None -> sep ∉ s.
Proof.
  induction s as [|d s IHs]; [intros _; apply not_elem_of_nil |].
  simpl. destruct (rsplit_head s sep); [done |].
  destruct (N.eqb_spec d sep); [done |]. intros _.
  apply not_elem_of_cons. split; [done | by apply IHs].
Qed.

Lemma references_filter (base_url : list N) (lines : list (list N)) :
  references base_url lines
  = (fun line => {| relativePath := line;
                    resolvedRemoteURL := base_url ++ [slash] ++ line |})
      <$> filter is_reference_line lines.
Proof.
  induction lines as [|line rest IH]; [done |].
  rewrite filter_cons. cbn [references].
  destruct (endswith line dot_ts || endswith line dot_m3u8) eqn:He.
  - destruct (startswith line [hash]) eqn:Hs.
    + apply startswith_prefix in Hs.
      rewrite decide_False; [done |]. by intros [? _].
    + rewrite decide_True; [by rewrite fmap_cons, IH |]. split.
      * rewrite <- startswith_prefix. congruence.
      * apply orb_true_iff in He. by rewrite <- !endswith_suffix.
  - rewrite decide_False; [done |]. intros [_ H].
    rewrite <- !endswith_suffix in H. apply orb_true_iff in H. congruence.
Qed.

Lemma occursb_occurs (old s : list N) :
  occursb old s = true <-> occurs old s.
Proof.
  induction s as [|d s IH]; simpl; rewrite orb_true_iff, startswith_prefix.
  - split.
    + intros [[k Hk] | ?]; [by exists [], k | done].
    + intros ([|? ?] & b & H); [left; by exists b | done].
  - rewrite IH. split.
    + intros [[k Hk] | (a & b & ->)]; [by exists [], k |].
      by exists (d :: a), b.
    + intros H. by apply occurs_cons in H.
Qed.

Lemma base_url_of_prefix (playlist_url : list N) :
  base_url_of playlist_url `prefix_of` playlist_url.
Proof.
  unfold base_url_of, rsplit1_0.
  destruct (rsplit_head playlist_url slash) as [h |] eqn:Hh; [| done].
  apply rsplit_head_Some in Hh as (t & _ & ->). by eexists.
Qed.

(** C1. The rewriter: [originBase] is the playlist URL up to its last
    slash; the rewritten text is the playlist with every occurrence of
    [originBase + "/"] (found from the left, one after the other)
    replaced by [LOCAL_PLAYBACK_URL_BASE + profile name + "/"]; and the
    references are exactly the lines that do not start with [#] and end
    in [.ts] or [.m3u8], in the order of the playlist, each with its
    remote URL [originBase + "/" + line] and the line as relative
    path. *)
Theorem rewriter_replaces_prefix_and_lists_references
    (playlist_content playlist_url profile_name : list N) :
  let originBase := base_url_of playlist_url in
  (((slash ∉ playlist_url) /\ originBase = playlist_url)
   \/ exists last, (slash ∉ last)
                   /\ playlist_url = originBase ++ [slash] ++ last)
  /\ (exists chunks : list (list N),
        playlist_content = join (originBase ++ [slash]) chunks
        /\ modified_content_of playlist_content playlist_url profile_name
           = join (LOCAL_PLAYBACK_URL_BASE ++ profile_name ++ [slash]) chunks
        /\ Forall (fun chunk => ~ occurs (originBase ++ [slash]) chunk)
                  chunks)
  /\ references originBase (splitlines playlist_content)
     = (fun line => {| relativePath := line;
                       resolvedRemoteURL := originBase ++ [slash] ++ line |})
         <$> filter is_reference_line (splitlines playlist_content).
Proof.
  intros originBase. split_and!.
  - subst originBase. unfold base_url_of, rsplit1_0.
    destruct (rsplit_head playlist_url slash) as [h |] eqn:Hh.
    + right. apply rsplit_head_Some in Hh as (t & Ht & ->). by exists t.
    + left. split; [by apply rsplit_head_None | done].
  - unfold modified_content_of. fold originBase.
    destruct (replace_chunks playlist_content (originBase ++ [slash])
                (LOCAL_PLAYBACK_URL_BASE ++ profile_name ++ [slash]))
      as (chunks & _ & Hj & Hr & Hf); [by destruct originBase |].
    by exists chunks.
  - apply references_filter.
Qed.

(** *** Lines and replacement *)

Lemma splitlines_cons_plain (c : N) (s : list N) :
  is_linebreak c = false ->
  splitlines (c :: s)
  = match splitlines s with [] => [[c]] | l :: ls => (c :: l) :: ls end.
Proof. intros Hc. cbn [splitlines]. by rewrite Hc. Qed.

Lemma splitlines_prepend (x t : list N) :
  x <> [] -> Forall (fun c => is_linebreak c = false) x ->
  splitlines (x ++ t)
  = match splitlines t with [] => [x] | l :: ls => (x ++ l) :: ls end.
Proof.
  induction x as [|c x IH]; [done |]. intros _ [Hc Hx]%Forall_cons.
  rewrite <- app_comm_cons, splitlines_cons_plain by done.
  destruct x as [|c' x'].
  - cbn [app]. by destruct (splitlines t).
  - rewrite IH by done. by destruct (splitlines t).
Qed.

Lemma first_line_prefix (s l : list N) (ls : list (list N)) :
  splitlines s = l :: ls -> l `prefix_of` s.
Proof.
  revert l ls. induction s as [|c s IH]; intros l ls; [done |].
  cbn [splitlines]. destruct (is_linebreak c).
  - destruct s as [|d s'].
    + intros [= <- _]. apply prefix_nil.
    + destruct ((c =? 13) && (d =? 10)); intros [= <- _]; apply prefix_nil.
  - destruct (splitlines s) as [|l' ls'] eqn:Hs.
    + intros [= <- _]. by apply prefix_cons, prefix_nil.
    + intros [= <- _]. by apply prefix_cons, (IH l' ls').
Qed.

Lemma startswith_line_false (old : list N) (d : N) (s l : list N) :
  startswith (d :: s) old = false -> l `prefix_of` s ->
  startswith (d :: l) old = false.
Proof.
  intros Hs [k ->]. destruct (startswith (d :: l) old) eqn:Hl; [| done].
  apply startswith_prefix in Hl as [k' Hk'].
  assert (startswith (d :: l ++ k) old = true) as H; [| congruence].
  apply startswith_prefix. exists (k' ++ k).
  by rewrite app_comm_cons, Hk', <- app_assoc.
Qed.

Lemma startswith_linebreak (old : list N) (e : N) (s : list N) :
  old <> [] -> Forall (fun c => is_linebreak c = false) old ->
  is_linebreak e = true -> startswith (e :: s) old = false.
Proof.
  intros Hne Hold He. destruct old as [|c old]; [done |].
  apply Forall_cons in Hold as [Hc _]. cbn [startswith].
  destruct (N.eqb_spec c e) as [-> |]; [congruence | done].
Qed.

(** The first character of a replaced text is a line boundary only
    when that of the text is, and then it is the same. *)
Lemma replace_head (old new : list N) (e : N) (s : list N) :
  old <> [] -> new <> [] ->
  Forall (fun c => is_linebreak c = false) new ->
  exists e' X,
    replace (e :: s) old new = e' :: X
    /\ (e' = e \/ is_linebreak e' = false).
Proof.
  intros Hne Hnew Hn. destruct (startswith (e :: s) old) eqn:Hs.
  - apply startswith_prefix in Hs as [t ->].
    destruct old as [|c old]; [done |]. rewrite replace_match.
    destruct new as [|n new]; [done |].
    apply Forall_cons in Hn as [Hn _]. exists n, (new ++ replace t (c :: old) (n :: new)).
    split; [done | by right].
  - rewrite replace_skip by done. eexists _, _. split; [done | by left].
Qed.

(** A replacement that involves no line boundary works line by line. *)
Lemma splitlines_replace (s old new : list N) :
  old <> [] -> new <> [] ->
  Forall (fun c => is_linebreak c = false) old ->
  Forall (fun c => is_linebreak c = false) new ->
  splitlines (replace s old new)
  = (fun l => replace l old new) <$> splitlines s.
Proof.
  intros Hne Hnew Hold Hn. remember (length s) as n eqn:Hlen.
  revert s Hlen. induction n as [n IH] using lt_wf_ind. intros s Hlen.
  destruct s as [|d s]; [by destruct old |].
  destruct (startswith (d :: s) old) eqn:Hs.
  - apply startswith_prefix in Hs as [t Ht]. rewrite Ht.
    destruct old as [|c old]; [done |]. rewrite replace_match.
    rewrite !splitlines_prepend by done.
    rewrite (IH (length t)) with (s := t); [| | done].
    2:{ subst n. rewrite Ht, length_app. simpl. lia. }
    destruct (splitlines t) as [|l ls]; cbn [fmap list_fmap].
    + rewrite <- (app_nil_r (c :: old)) at 1.
      by rewrite replace_match, replace_nil, app_nil_r.
    + by rewrite replace_match.
  - rewrite replace_skip by done.
    destruct (is_linebreak d) eqn:Hd.
    + cbn [splitlines]. rewrite Hd. destruct s as [|e s'].
      * by destruct old.
      * destruct (replace_head old new e s' Hne Hnew Hn)
          as (e' & X & HX & He').
        destruct ((d =? 13) && (e =? 10)) eqn:Hcr.
        -- apply andb_true_iff in Hcr as [Hd13 He10].
           rewrite replace_skip; [| done |].
           2:{ apply startswith_linebreak; try done.
               apply N.eqb_eq in He10. by subst e. }
           rewrite Hd13, He10. cbn [andb fmap list_fmap].
           rewrite (IH (length s')) with (s := s'); [| | done].
           ++ by destruct old.
           ++ subst n. simpl. lia.
        -- rewrite HX.
           assert ((d =? 13) && (e' =? 10) = false) as ->.
           { destruct He' as [-> | He']; [done |].
             destruct (N.eqb_spec e' 10) as [-> |]; [done |].
             apply andb_false_r. }
           rewrite <- HX. cbn [fmap list_fmap].
           rewrite (IH (length (e :: s'))) with (s := e :: s'); [| | done].
           ++ by destruct old.
           ++ subst n. simpl. lia.
    + rewrite !splitlines_cons_plain by done.
      rewrite (IH (length s)) with (s := s); [| subst n; simpl; lia | done].
      destruct (splitlines s) as [|l ls] eqn:Hl; cbn [fmap list_fmap].
      * rewrite replace_skip; [by destruct old | done |].
        apply (startswith_line_false old d s []); [done | apply prefix_nil].
      * rewrite replace_skip; [done | done |].
        apply (startswith_line_false old d s l); [done |].
        by apply (first_line_prefix s l ls).
Qed.

(** C8 fails as stated: the key line of [key_playlist] starts with [#]
    and holds the URI of the key under the origin's prefix; the
    rewriter rewrites it. *)
Lemma key_line_is_rewritten :
  splitlines key_playlist !! 1%nat = Some key_line
  /\ startswith key_line [hash] = true
  /\ base_url_of url_720p ++ [slash]
     = lit "https://cdn.example/hls/abc/720p/"
  /\ splitlines (modified_content_of key_playlist url_720p (lit "720p"))
     !! 1%nat = Some key_line_rewritten
  /\ key_line_rewritten <> key_line.
Proof. by_computation. Qed.

(** C8, as the code has it.  No line that starts with [#] is among the
    references.  The substitution, however, does not tell directive
    lines from others: when the playlist URL and the profile name hold
    no line boundary, each line of the rewritten text is the line of
    the playlist with the occurrences of [originBase + "/"] replaced,
    and a line is left as it is if [originBase + "/"] does not occur in
    it. *)
Theorem directives_are_no_references (playlist_content playlist_url
    profile_name : list N) :
  let old := base_url_of playlist_url ++ [slash] in
  let new := LOCAL_PLAYBACK_URL_BASE ++ profile_name ++ [slash] in
  Forall (fun r => ~ [hash] `prefix_of` relativePath r)
         (references (base_url_of playlist_url)
                     (splitlines playlist_content))
  /\ (Forall (fun c => is_linebreak c = false)
             (playlist_url ++ profile_name) ->
      splitlines (modified_content_of playlist_content playlist_url
                                      profile_name)
      = (fun line => replace line old new) <$> splitlines playlist_content)
  /\ (forall line, ~ occurs old line -> replace line old new = line).
Proof.
  intros old new. split_and!.
  - rewrite references_filter. apply Forall_fmap, Forall_forall.
    intros line [[Hh _] _]%list_elem_of_filter. exact Hh.
  - intros [Hu Hp]%Forall_app. unfold modified_content_of.
    apply splitlines_replace.
    + subst old. by destruct (base_url_of playlist_url).
    + done.
    + apply Forall_app. split; [| by repeat constructor].
      destruct (base_url_of_prefix playlist_url) as [k Hk].
      rewrite Hk in Hu. by apply Forall_app in Hu as [? _].
    + apply Forall_app. split; [by_computation |].
      apply Forall_app. split; [done | by repeat constructor].
  - intros line Ho. apply replace_absent; [| done].
    subst old. by destruct (base_url_of playlist_url).
Qed.

(** The playlist with the key line is rewritten line by line, and its
    first line, which holds no prefix, stays. *)
Lemma directives_are_no_references_witness :
  splitlines (modified_content_of key_playlist url_720p (lit "720p"))
  = (fun line => replace line (base_url_of url_720p ++ [slash])
                         (LOCAL_PLAYBACK_URL_BASE ++ lit "720p" ++ [slash]))
      <$> splitlines key_playlist
  /\ replace (lit "#EXTM3U") (base_url_of url_720p ++ [slash])
             (LOCAL_PLAYBACK_URL_BASE ++ lit "720p" ++ [slash])
     = lit "#EXTM3U".
Proof.
  destruct (directives_are_no_references key_playlist url_720p (lit "720p"))
    as (_ & Hlines & Hline).
  split.
  - apply Hlines. by_computation.
  - apply Hline. intros Ho. apply (proj2 (occursb_occurs _ _)) in Ho.
    vm_compute in Ho. discriminate.
Defined.

(** ** Paths and the file system *)

Lemma good_name_inv (c : list N) :
  good_name c = true ->
  c <> [] /\ c <> dot /\ c <> dotdot /\ slash ∉ c.
Proof.
  unfold good_name. rewrite !andb_true_iff, !negb_true_iff.
  rewrite !bool_decide_eq_false. intros [[[? ?] ?] Hs]. split_and!; try done.
  rewrite forallb_forall in Hs. intros Hin.
  apply list_elem_of_In, Hs in Hin. by rewrite N.eqb_refl in Hin.
Qed.

Lemma step_good (cur : list (list N)) (c : list N) :
  good_name c = true -> step cur c = cur ++ [c].
Proof.
  intros (? & ? & ? & _)%good_name_inv. unfold step.
  by rewrite !bool_decide_false.
Qed.

Lemma step_empty (cur : list (list N)) : step cur [] = cur.
Proof. done. Qed.

Lemma fold_step_good (names cur : list (list N)) :
  Forall (fun c => good_name c = true) names ->
  fold_left step names cur = cur ++ names.
Proof.
  revert cur. induction names as [|c names IH]; intros cur Hg; simpl.
  - by rewrite app_nil_r.
  - apply Forall_cons in Hg as [Hc Hg].
    rewrite step_good, IH by done. by rewrite <- app_assoc.
Qed.

Lemma walk_fold (fs : gmap (list (list N)) node)
    (comps cur q : list (list N)) :
  walk fs cur comps = Some q -> fold_left step comps cur = q.
Proof.
  revert cur. induction comps as [|c cs IH]; intros cur; simpl.
  - by intros [= ->].
  - destruct (is_dir fs cur); [apply IH | done].
Qed.

Lemma split_nonempty (sep : N) (s : list N) : split sep s <> [].
Proof.
  destruct s as [|c s]; simpl; [done |].
  destruct (c =? sep); [done |]. by destruct (split sep s).
Qed.

Lemma split_app (sep : N) (a b : list N) :
  split sep (a ++ sep :: b) = split sep a ++ split sep b.
Proof.
  induction a as [|c a IH]; simpl.
  - by rewrite N.eqb_refl.
  - destruct (c =? sep); [by rewrite IH |]. rewrite IH.
    pose proof (split_nonempty sep a). by destruct (split sep a).
Qed.

Lemma split_absent (sep : N) (s : list N) : sep ∉ s -> split sep s = [s].
Proof.
  induction s as [|c s IH]; [done |]. intros [Hc Hs]%not_elem_of_cons.
  simpl. destruct (N.eqb_spec c sep); [congruence |]. by rewrite IH.
Qed.

Lemma split_join (names : list (list N)) :
  names <> [] -> Forall (fun c => slash ∉ c) names ->
  split slash (join [slash] names) = names.
Proof.
  induction names as [|c names IH]; [done |]. intros _ Hf.
  apply Forall_cons in Hf as [Hc Hf]. destruct names as [|c' names].
  - by apply split_absent.
  - change (join [slash] (c :: c' :: names))
      with (c ++ slash :: join [slash] (c' :: names)).
    by rewrite split_app, split_absent, IH.
Qed.

Lemma split_replicate_slash (k : nat) (s : list N) :
  split slash (replicate k slash ++ s) = replicate k [] ++ split slash s.
Proof. induction k as [|k IH]; [done |]. simpl. by rewrite IH. Qed.

Lemma good_names_no_slash (names : list (list N)) :
  Forall (fun c => good_name c = true) names ->
  Forall (fun c => slash ∉ c) names.
Proof.
  intros H. eapply Forall_impl; [exact H |].
  intros c Hc. by apply good_name_inv in Hc as (_ & _ & _ & ?).
Qed.

Lemma node_at_snoc (fs : gmap (list (list N)) node) (p : list (list N))
    (c : list N) :
  node_at fs (p ++ [c]) = fs !! (p ++ [c]).
Proof. by destruct p. Qed.

Lemma fs_wf_entry (fs : gmap (list (list N)) node) (p : list (list N))
    (nd : node) :
  fs_wf fs -> fs !! p = Some nd ->
  exists parent c,
    p = parent ++ [c] /\ good_name c = true /\ is_dir fs parent = true.
Proof.
  intros Hwf Hp. specialize (Hwf p nd Hp). unfold entry_ok in Hwf.
  destruct (reverse p) as [|c rq] eqn:Hr; [done |].
  apply andb_true_iff in Hwf as [Hc Hd].
  exists (reverse rq), c. split_and!; try done.
  apply (inj reverse). by rewrite reverse_snoc, reverse_involutive.
Qed.

Lemma is_dir_ancestor (fs : gmap (list (list N)) node)
    (a b : list (list N)) :
  fs_wf fs -> is_dir fs (a ++ b) = true ->
  is_dir fs a = true /\ Forall (fun c => good_name c = true) b.
Proof.
  intros Hwf. induction b as [|c b IH] using rev_ind.
  - rewrite app_nil_r. by split.
  - rewrite app_assoc. unfold is_dir at 1. rewrite node_at_snoc.
    destruct (fs !! ((a ++ b) ++ [c])) as [nd |] eqn:Hp; [| done].
    destruct (fs_wf_entry _ _ _ Hwf Hp) as (parent & c' & Heq & Hc & Hd).
    apply app_inj_tail in Heq as [<- <-]. intros _.
    destruct (IH Hd) as [Ha Hb]. split; [done |].
    apply Forall_app. split; [done | by constructor].
Qed.

Lemma walk_good (fs : gmap (list (list N)) node)
    (cur names : list (list N)) :
  fs_wf fs -> is_dir fs (cur ++ names) = true ->
  walk fs cur names = Some (cur ++ names).
Proof.
  intros Hwf. revert cur. induction names as [|c names IH]; intros cur Hd.
  - by rewrite app_nil_r.
  - destruct (is_dir_ancestor _ _ _ Hwf Hd) as [Hcur Hg].
    apply Forall_cons in Hg as [Hc _].
    cbn [walk]. rewrite Hcur, step_good by done.
    rewrite IH; rewrite <- app_assoc; done.
Qed.

Lemma walk_replicate_empty (fs : gmap (list (list N)) node) (k : nat)
    (comps : list (list N)) :
  walk fs [] (replicate k [] ++ comps) = walk fs [] comps.
Proof. induction k as [|k IH]; [done |]. simpl. apply IH. Qed.

Lemma walk_last_dir (fs : gmap (list (list N)) node)
    (comps cur q : list (list N)) :
  walk fs cur comps = Some q -> is_dir fs q = true ->
  is_dir fs cur = true.
Proof.
  destruct comps as [|c cs]; simpl.
  - by intros [= ->].
  - by destruct (is_dir fs cur).
Qed.

(** [os.makedirs] changes nothing when the path leads to a directory. *)
Lemma makedirs_from_noop (fs : gmap (list (list N)) node)
    (comps cur q : list (list N)) (name : list N) :
  walk fs cur comps = Some q -> is_dir fs q = true ->
  makedirs_from fs cur comps name = inr fs.
Proof.
  revert cur. induction comps as [|c cs IH]; intros cur Hw Hq; [done |].
  simpl in *. destruct (is_dir fs cur); [| done].
  pose proof (walk_last_dir _ _ _ _ Hw Hq) as Hn. unfold is_dir in Hn.
  destruct (node_at fs (step cur c)) as [[| ] |]; try done.
  by apply IH.
Qed.

Lemma norm_step_step (stack : list (list N)) (c : list N) :
  Forall (fun x => x <> dotdot) stack ->
  norm_step true stack c = step stack c
  /\ Forall (fun x => x <> dotdot) (step stack c).
Proof.
  intros Hs. unfold norm_step, step.
  destruct (bool_decide (c = []) || bool_decide (c = dot)); [done |].
  case_bool_decide as Hc; simpl.
  - rewrite bool_decide_false.
    + split; [done |]. clear Hc. induction stack as [|x [|y stack] IH].
      * done.
      * constructor.
      * apply Forall_cons in Hs as [? ?]. constructor; [done | by apply IH].
    + intros Hl. apply last_Some in Hl as [l' ->].
      apply Forall_app in Hs as [_ Hs]. by apply Forall_cons in Hs as [? _].
  - split; [done |]. apply Forall_app. split; [done | by constructor].
Qed.

Lemma fold_norm_step (comps stack : list (list N)) :
  Forall (fun x => x <> dotdot) stack ->
  fold_left (norm_step true) comps stack = fold_left step comps stack.
Proof.
  revert stack. induction comps as [|c cs IH]; intros stack Hs; [done |].
  simpl. destruct (norm_step_step stack c Hs) as [-> Hs']. by apply IH.
Qed.

Lemma normpath_absolute (p : list N) :
  normpath (slash :: p)
  = replicate (if startswith (slash :: p) [slash; slash]
                  && negb (startswith (slash :: p) [slash; slash; slash])
               then 2%nat else 1%nat) slash
    ++ join [slash] (fold_left step (split slash (slash :: p)) []).
Proof.
  unfold normpath. change (startswith (slash :: p) [slash]) with true.
  cbv iota.
  destruct (startswith (slash :: p) [slash; slash]
            && negb (startswith (slash :: p) [slash; slash; slash]));
    rewrite fold_norm_step by constructor; done.
Qed.

Lemma drop_while_app_all (f : N -> bool) (a b : list N) :
  Forall (fun x => f x = true) a ->
  drop_while f (a ++ b) = drop_while f b.
Proof.
  induction a as [|x a IH]; [done |]. intros [Hx Ha]%Forall_cons.
  simpl. rewrite Hx. by apply IH.
Qed.

Lemma join_snoc (sep : list N) (xs : list (list N)) (c : list N) :
  join sep (xs ++ [c])
  = match xs with [] => c | _ :: _ => join sep xs ++ sep ++ c end.
Proof.
  induction xs as [|x xs IH]; [done |].
  change ((x :: xs) ++ [c]) with (x :: (xs ++ [c])).
  rewrite (join_cons sep x (xs ++ [c])), IH, (join_cons sep x xs).
  destruct xs as [|y xs]; simpl; [by rewrite app_nil_r |].
  by rewrite <- !app_assoc.
Qed.

Lemma replicate_snoc (k : nat) (x : N) :
  replicate k x ++ [x] = x :: replicate k x.
Proof. induction k as [|k IH]; [done |]. simpl. by rewrite IH. Qed.

Lemma forallb_replicate_slash (k : nat) :
  forallb (fun c => c =? slash) (replicate k slash) = true.
Proof. induction k as [|k IH]; [done |]. simpl. by rewrite IH. Qed.

Lemma dirname_slash_name (Y c : list N) :
  slash ∉ c ->
  dirname (Y ++ [slash] ++ c)
  = if forallb (fun x => x =? slash) (slash :: reverse Y)
    then Y ++ [slash]
    else reverse (drop_while (fun x => x =? slash) (slash :: reverse Y)).
Proof.
  intros Hc.
  assert (Forall (fun x => negb (x =? slash) = true) (reverse c)) as Hrc.
  { apply Forall_forall. intros x Hx. rewrite elem_of_reverse in Hx.
    apply negb_true_iff, N.eqb_neq. by intros ->. }
  unfold dirname. rewrite !reverse_app, <- app_assoc.
  rewrite drop_while_app_all by done.
  change (reverse [slash] ++ reverse Y) with (slash :: reverse Y).
  cbn [drop_while]. rewrite N.eqb_refl. cbn [negb].
  by rewrite reverse_cons, reverse_involutive.
Qed.

(** The directory part of a normalised absolute path. *)
Lemma dirname_normalised (k : nat) (parent : list (list N)) (c : list N) :
  Forall (fun x => good_name x = true) parent ->
  good_name c = true ->
  dirname (replicate (S k) slash ++ join [slash] (parent ++ [c]))
  = replicate (S k) slash
    ++ match parent with [] => [] | _ :: _ => join [slash] parent end.
Proof.
  intros Hp Hc. apply good_name_inv in Hc as (_ & _ & _ & Hc).
  rewrite join_snoc.
  destruct parent as [|c0 parent0 _] using rev_ind.
  - rewrite app_nil_r.
    change (replicate (S k) slash) with (slash :: replicate k slash).
    rewrite <- replicate_snoc, <- app_assoc.
    rewrite dirname_slash_name by done.
    cbn [forallb]. rewrite N.eqb_refl. cbn [andb].
    assert (forallb (fun x => x =? slash) (reverse (replicate k slash))
            = true) as ->; [| done].
    apply forallb_forall. intros x Hx%list_elem_of_In.
    rewrite elem_of_reverse in Hx. apply elem_of_replicate in Hx as [-> _].
    apply N.eqb_refl.
  - assert (forall (a b : list N),
               match parent0 ++ [c0] with [] => a | _ :: _ => b end = b)
      as Hm by (intros; by destruct parent0).
    rewrite !Hm. clear Hm.
    apply Forall_app in Hp as [_ Hc0]. apply Forall_cons in Hc0 as [Hc0 _].
    apply good_name_inv in Hc0 as (Hne & _ & _ & Hs0).
    destruct c0 as [|x c0 _] using rev_ind; [done |].
    assert (x <> slash) as Hx.
    { intros ->. apply Hs0, elem_of_app. right. by left. }
    rewrite app_assoc, dirname_slash_name by done.
    rewrite join_snoc.
    assert (exists W, replicate (S k) slash
              ++ match parent0 with
                 | [] => c0 ++ [x]
                 | _ :: _ => join [slash] parent0 ++ [slash] ++ c0 ++ [x]
                 end = W ++ [x]) as [W HW].
    { destruct parent0 as [|y ys].
      - exists (replicate (S k) slash ++ c0).
        rewrite <- app_assoc. reflexivity.
      - exists (replicate (S k) slash
                ++ join [slash] (y :: ys) ++ [slash] ++ c0).
        repeat rewrite <- app_assoc. reflexivity. }
    rewrite HW, reverse_snoc. cbn [forallb drop_while].
    rewrite N.eqb_refl. apply N.eqb_neq in Hx. rewrite Hx. cbn [andb].
    rewrite reverse_cons, reverse_involutive. reflexivity.
Qed.

Lemma fold_getcwd (E : Env) :
  Forall (fun c => good_name c = true) (env_cwd E) ->
  fold_left step (split slash (getcwd E)) [] = env_cwd E.
Proof.
  intros Hg. unfold getcwd.
  change ([slash] ++ join [slash] (env_cwd E))
    with (slash :: join [slash] (env_cwd E)).
  cbn [split]. rewrite N.eqb_refl. cbn [fold_left]. rewrite step_empty.
  destruct (env_cwd E) as [|c cwd] eqn:Hcwd; [done |].
  rewrite split_join; [| done | by apply good_names_no_slash].
  by rewrite fold_step_good.
Qed.

Lemma isabs_cons (p : list N) :
  isabs p = true -> exists p', p = slash :: p'.
Proof.
  unfold isabs. destruct p as [|c p]; [done |]. cbn [startswith].
  rewrite andb_true_r. intros <-%N.eqb_eq. by exists p.
Qed.

(** [os.path.abspath] of a path that resolves spells where it leads. *)
Lemma abspath_resolved (E : Env) (fs : gmap (list (list N)) node)
    (p : list N) (q : list (list N)) :
  fs_wf fs -> is_dir fs (env_cwd E) = true ->
  resolve fs (env_cwd E) p = Some q ->
  exists k, abspath E p = replicate (S k) slash ++ join [slash] q.
Proof.
  intros Hwf Hcwd Hr.
  destruct (is_dir_ancestor fs [] (env_cwd E) Hwf Hcwd) as [_ Hg].
  unfold resolve in Hr. destruct p as [|c0 p0] eqn:Hp; [done |].
  rewrite <- Hp in *. unfold abspath.
  destruct (isabs p) eqn:Habs.
  - destruct (isabs_cons p Habs) as [p' ->].
    rewrite normpath_absolute, (walk_fold _ _ _ _ Hr).
    destruct (_ && _); [by exists 1%nat | by exists 0%nat].
  - apply walk_fold in Hr.
    assert (exists P', path_join (getcwd E) p = slash :: P'
              /\ fold_left step (split slash (slash :: P')) [] = q)
      as (P' & -> & HP).
    { unfold path_join. fold (isabs p). rewrite Habs.
      pose proof (fold_getcwd E Hg) as Hf.
      destruct (getcwd E) as [|g gs] eqn:Hgc; [done |].
      assert (g = slash) as -> by (by injection Hgc).
      destruct (endswith (slash :: gs) [slash]) eqn:He.
      - exists (gs ++ p). split; [done |].
        apply endswith_suffix in He as [Y HY].
        change (slash :: gs ++ p) with ((slash :: gs) ++ p).
        rewrite HY in Hf |- *. rewrite <- app_assoc.
        change ([slash] ++ p) with (slash :: p).
        rewrite split_app, fold_left_app.
        rewrite split_app, fold_left_app in Hf.
        cbn [split fold_left] in Hf. rewrite step_empty in Hf.
        by rewrite Hf.
      - exists (gs ++ [slash] ++ p). split; [done |].
        change (slash :: gs ++ [slash] ++ p)
          with ((slash :: gs) ++ slash :: p).
        by rewrite split_app, fold_left_app, Hf. }
    rewrite normpath_absolute, HP.
    destruct (_ && _); [by exists 1%nat | by exists 0%nat].
Qed.

Lemma world_eta (w : World) : {| fs := fs w; gets := gets w |} = w.
Proof. by destruct w. Qed.

Lemma dirname_slashes (k : nat) :
  dirname (replicate (S k) slash) = replicate (S k) slash.
Proof.
  unfold dirname. rewrite reverse_replicate.
  cbn [replicate drop_while]. rewrite N.eqb_refl. cbn [negb].
  change (slash :: replicate k slash) with (replicate (S k) slash).
  by rewrite forallb_replicate_slash, reverse_replicate.
Qed.

Lemma makedirs_existing_dir (E : Env) (w : World) (p : list N)
    (d : list (list N)) :
  resolve (fs w) (env_cwd E) p = Some d ->
  is_dir (fs w) d = true ->
  makedirs E p w = (w, inr tt).
Proof.
  unfold resolve, makedirs, start_dir. intros Hr Hd.
  destruct p as [|c p]; [done |].
  by rewrite (makedirs_from_noop _ _ _ d), world_eta.
Qed.

(** The directory of an entry that exists needs no making. *)
Lemma makedirs_parent_noop (E : Env) (w : World) (p : list N)
    (q : list (list N)) :
  world_wf E w ->
  resolve (fs w) (env_cwd E) p = Some q ->
  is_Some (node_at (fs w) q) ->
  makedirs E (dirname (abspath E p)) w = (w, inr tt).
Proof.
  intros [Hwf Hcwd] Hr [nd Hq].
  destruct (abspath_resolved E _ _ _ Hwf Hcwd Hr) as [k ->].
  destruct q as [|c0 q0] eqn:Hq0.
  - cbn [join]. rewrite app_nil_r, dirname_slashes.
    apply (makedirs_existing_dir E w _ []); [| done].
    unfold resolve, isabs. cbn [replicate startswith].
    rewrite N.eqb_refl. cbn [andb].
    rewrite <- (app_nil_r (slash :: replicate k slash)).
    change (slash :: replicate k slash) with (replicate (S k) slash).
    by rewrite split_replicate_slash, walk_replicate_empty.
  - rewrite <- Hq0 in *. assert (fs w !! q = Some nd) as Hq'.
    { by rewrite Hq0 in *. }
    clear Hq0 c0 q0 Hq.
    destruct (fs_wf_entry _ _ _ Hwf Hq') as (parent & c & -> & Hc & Hd).
    destruct (is_dir_ancestor (fs w) [] parent Hwf Hd) as [_ Hg].
    rewrite dirname_normalised by done.
    apply (makedirs_existing_dir E w _ parent); [| done].
    unfold resolve, isabs.
    change (replicate (S k) slash ++ ?x)
      with (slash :: replicate k slash ++ x).
    change (startswith (slash :: ?x) [slash]) with true. cbv iota.
    change (slash :: replicate k slash ++ ?x)
      with (replicate (S k) slash ++ x).
    rewrite split_replicate_slash, walk_replicate_empty.
    destruct parent as [|c' parent'] eqn:Hpar; [done |].
    rewrite <- Hpar in *. rewrite split_join.
    + by apply (walk_good (fs w) []).
    + by subst.
    + by apply good_names_no_slash.
Qed.

(** ** The local content server *)

Lemma elem_of_children (fs : gmap (list (list N)) node)
    (q : list (list N)) (n : list N) :
  n ∈ children fs q <-> is_Some (fs !! (q ++ [n])).
Proof.
  unfold children. rewrite list_elem_of_omap. split.
  - intros ([k nd] & Hin & Hf). apply elem_of_map_to_list in Hin.
    simpl in Hf. destruct (reverse k) as [|c rq] eqn:Hk; [done |].
    case_bool_decide as Hq; [| done]. injection Hf as ->. subst q.
    exists nd. rewrite <- Hin. f_equal.
    apply (inj reverse). by rewrite reverse_snoc, reverse_involutive.
  - intros [nd Hnd]. exists (q ++ [n], nd). split.
    + by apply elem_of_map_to_list.
    + simpl. rewrite reverse_snoc, reverse_involutive.
      by rewrite bool_decide_true.
Qed.


(** Each of the four outcomes of C2 occurs: a playlist, a segment, a
    directory, a path that names nothing, and a file that cannot be
    read. *)
Example four_outcomes_occur :
  let w := fst demo_first in
  handle demo_env (lit "480p/index.m3u8") w
  = (w, inr (HttpResponse 200 mpegurl (BodyBytes demo_playlist)))
  /\ handle demo_env (lit "480p/seg0.ts") w
     = (w, inr (HttpResponse 200 mp2t (BodyBytes (lit "SEGMENT0"))))
  /\ handle demo_env (lit "480p") w
     = (w, inr (HttpResponse 200 text_html
                  (BodyText (listing_html [index_m3u8; lit "seg0.ts";
                                           lit "seg1.ts"]))))
  /\ handle demo_env (lit "480p/seg7.ts") w
     = (w, inr (HttpResponse 404 text_plain (BodyText file_not_found)))
  /\ handle demo_env (lit "480p/seg0.ts") locked_world
     = (locked_world,
        inr (HttpResponse 500 text_plain
               (BodyText (errno_msg "[Errno 13] Permission denied"
                            (lit "./cache/livepeer/480p/seg0.ts"))))).
Proof. by_computation. Qed.

(** The handler joins the file name to the cache directory as it is. *)
Lemma handle_joins_without_normalising (filename : list N) :
  startswith filename [slash] = false ->
  path_join LOCAL_CACHE_DIR filename = LOCAL_CACHE_DIR ++ [slash] ++ filename.
Proof. unfold path_join. by intros ->. Qed.

(** Whatever readable file the joined path leads to is served, in the
    cache or not. *)
Lemma handle_serves_what_the_path_names (E : Env) (w : World)
    (filename : list N) (q : list (list N)) (data : list N) :
  resolve (fs w) (env_cwd E) (path_join LOCAL_CACHE_DIR filename) = Some q ->
  node_at (fs w) q = Some (File true data) ->
  handle E filename w
  = (w, inr (HttpResponse 200
               (if endswith (path_join LOCAL_CACHE_DIR filename) dot_m3u8
                then mpegurl else mp2t)
               (BodyBytes data))).
Proof.
  intros Hr Hq. unfold handle.
  set (filepath := path_join LOCAL_CACHE_DIR filename) in *.
  unfold bind, except_Exception, path_exists, exists_in, path_isfile, read_rb.
  rewrite Hr, Hq. simpl. rewrite ?Hr, ?Hq. simpl. rewrite ?Hr, ?Hq.
  reflexivity.
Qed.

(** C9. The handler resolves the joined path as it is, without
    normalising it or confining it to the cache: for the file name
    [../../../etc/passwd] the joined path
    [./cache/livepeer/../../../etc/passwd] leads out of the cache root,
    to [/etc/passwd], and the handler answers 200 with what that file
    holds. *)
Theorem handle_follows_dotdot_out_of_the_cache :
  exists (E : Env) (w : World) (filename : list N)
         (root q : list (list N)) (contents : list N),
    dotdot ∈ split slash filename
    /\ path_join LOCAL_CACHE_DIR filename
       = LOCAL_CACHE_DIR ++ [slash] ++ filename
    /\ resolve (fs w) (env_cwd E) LOCAL_CACHE_DIR = Some root
    /\ resolve (fs w) (env_cwd E) (path_join LOCAL_CACHE_DIR filename)
       = Some q
    /\ ~ root `prefix_of` q
    /\ fs w !! q = Some (File true contents)
    /\ handle E filename w
       = (w, inr (HttpResponse 200 mp2t (BodyBytes contents))).
Proof.
  exists demo_env, traversal_world, traversal_filename,
    [lit "srv"; lit "cache"; lit "livepeer"], [lit "etc"; lit "passwd"],
    (lit "root:x:0:0").
  by_computation.
Qed.

(** ** The cache filler *)

(** The loop over the lines downloads the references, one after the
    other. *)
Lemma download_segments_references (E : Env) (base_url profile_dir : list N)
    (lines : list (list N)) (w : World) :
  download_segments E base_url profile_dir lines w
  = for_each (fun r => download_segment E (resolvedRemoteURL r)
                         (path_join profile_dir (relativePath r)))
             (references base_url lines) w.
Proof.
  revert w. induction lines as [|line rest IH]; intros w; [done |].
  cbn [download_segments references].
  destruct (endswith line dot_ts || endswith line dot_m3u8);
    [destruct (startswith line [hash]) |].
  - unfold bind at 1. cbn. apply IH.
  - cbn [for_each relativePath resolvedRemoteURL]. unfold bind.
    destruct (download_segment _ _ _ w) as [w' [e | []]]; [done | apply IH].
  - unfold bind at 1. cbn. apply IH.
Qed.

Lemma fs_wf_lookup_node_at (fs : gmap (list (list N)) node)
    (q : list (list N)) (nd : node) :
  fs_wf fs -> fs !! q = Some nd -> node_at fs q = Some nd.
Proof.
  intros Hwf Hq. destruct (fs_wf_entry _ _ _ Hwf Hq) as (? & ? & -> & _).
  by rewrite node_at_snoc.
Qed.

(** A segment whose local path names something is passed over: no
    directory is made, nothing is fetched, nothing is written. *)
Lemma download_segment_skip (E : Env) (w : World)
    (segment_url local_segment_path : list N) (q : list (list N)) :
  world_wf E w ->
  resolve (fs w) (env_cwd E) local_segment_path = Some q ->
  is_Some (node_at (fs w) q) ->
  download_segment E segment_url local_segment_path w = (w, inr tt).
Proof.
  intros Hw Hr Hq. unfold download_segment, bind.
  rewrite (makedirs_parent_noop E w _ q) by done.
  unfold path_exists, exists_in. rewrite Hr. destruct Hq as [nd Hq].
  by rewrite Hq.
Qed.

(** C4. A segment whose local destination path already holds a file is
    skipped: [download_segment] returns without raising, issues no GET
    and leaves the file system, the existing file included, as it
    was. *)
Theorem cached_segment_is_skipped (E : Env) (w : World)
    (segment_url local_segment_path : list N) (q : list (list N))
    (readable : bool) (data : list N) :
  world_wf E w ->
  resolve (fs w) (env_cwd E) local_segment_path = Some q ->
  fs w !! q = Some (File readable data) ->
  download_segment E segment_url local_segment_path w = (w, inr tt).
Proof.
  intros Hw Hr Hq. apply (download_segment_skip E w _ _ q); try done.
  exists (File readable data). apply fs_wf_lookup_node_at; [apply Hw | done].
Qed.

(** In the cache the demo fill leaves, [seg0.ts] is passed over. *)
Lemma cached_segment_is_skipped_witness :
  download_segment demo_env (base_480p ++ [slash] ++ lit "seg0.ts")
                   (path_join local_dir_480p (lit "seg0.ts")) (fst demo_first)
  = (fst demo_first, inr tt).
Proof.
  apply (cached_segment_is_skipped demo_env (fst demo_first) _ _
           (dir_480p ++ [lit "seg0.ts"]) true (lit "SEGMENT0"));
    by_computation.
Defined.

(** *** Fetches that fail *)

Lemma makedirs_from_raises (fs : gmap (list (list N)) node)
    (comps cur : list (list N)) (name : list N) (e : exn) :
  makedirs_from fs cur comps name = inl e -> is_client_error e = false.
Proof.
  revert fs cur. induction comps as [|c cs IH]; intros fs cur; [done |].
  simpl. destruct (is_dir fs cur); [| by intros [= <-]].
  destruct (node_at fs (step cur c)) as [[| ] |].
  - by intros [= <-].
  - apply IH.
  - apply IH.
Qed.

Lemma makedirs_raises (E : Env) (p : list N) (w w' : World) (e : exn) :
  makedirs E p w = (w', inl e) -> is_client_error e = false.
Proof.
  unfold makedirs. destruct p as [|c p]; [by intros [= _ <-] |].
  destruct (makedirs_from _ _ _ _) as [e' |] eqn:Hm; [| done].
  intros [= _ <-]. by apply makedirs_from_raises in Hm.
Qed.

Lemma except_ClientError_raises {S : Type} (m : M S unit) (s s' : S)
    (e : exn) :
  except_ClientError m (fun _ => ret tt) s = (s', inl e) ->
  is_client_error e = false.
Proof.
  unfold except_ClientError. destruct (m s) as [s1 [e1 | []]]; [| done].
  destruct (is_client_error e1) eqn:He; [done |]. by intros [= _ <-].
Qed.

Lemma download_segment_raises (E : Env) (segment_url p : list N)
    (w w' : World) (e : exn) :
  download_segment E segment_url p w = (w', inl e) ->
  is_client_error e = false.
Proof.
  unfold download_segment, bind.
  destruct (makedirs E _ w) as [w1 [e1 | []]] eqn:Hm.
  { intros [= _ <-]. by apply makedirs_raises in Hm. }
  unfold path_exists.
  destruct (exists_in (fs w1) (env_cwd E) p); [done |].
  cbn [negb]. apply except_ClientError_raises.
Qed.

Lemma download_segments_raises (E : Env) (base_url profile_dir : list N)
    (lines : list (list N)) (w w' : World) (e : exn) :
  download_segments E base_url profile_dir lines w = (w', inl e) ->
  is_client_error e = false.
Proof.
  revert w. induction lines as [|line rest IH]; intros w; [done |].
  cbn [download_segments]. unfold bind at 1.
  destruct (endswith line dot_ts || endswith line dot_m3u8);
    [destruct (startswith line [hash]) |]; try apply IH.
  destruct (download_segment E _ _ w) as [w1 [e1 | []]] eqn:Hd; [| apply IH].
  intros [= _ <-]. by apply download_segment_raises in Hd.
Qed.




Lemma open_w_raises (E : Env) (p : list N) (w w' : World) (e : exn) :
  open_w E p w = (w', inl e) -> is_client_error e = false.
Proof.
  unfold open_w. destruct (resolve _ _ _) as [q |]; [| by intros [= _ <-]].
  destruct (node_at _ _) as [[| ] |]; try done. by intros [= _ <-].
Qed.

Lemma in_world_local_urls {A} (m : M World A) (s s' : FillState)
    (r : exn + A) :
  in_world m s = (s', r) ->
  local_urls s' = local_urls s /\ m (fill_world s) = (fill_world s', r).
Proof.
  unfold in_world. destruct (m (fill_world s)) as [w' r'].
  by intros [= <- <-].
Qed.

(** One round of the loop over the profiles that ends without raising
    records the profile exactly when its playlist could be had. *)
Lemma cache_profile_local_urls (E : Env) (profile : StreamProfile)
    (s s' : FillState) :
  origin_static E ->
  cache_profile E profile s = (s', inr tt) ->
  local_urls s'
  = if playlist_ok E profile
    then <[name profile := local_playlist_url (name profile)]> (local_urls s)
    else local_urls s.
Proof.
  intros Hst. unfold cache_profile, playlist_ok.
  destruct (url profile) as [[|c u] |]; try by intros [= <-].
  unfold except_ClientError, bind at 1.
  destruct (in_world (makedirs E _) s) as [s1 [e1 | []]] eqn:H1.
  { apply in_world_local_urls in H1 as [_ H1].
    apply makedirs_raises in H1. by rewrite H1. }
  apply in_world_local_urls in H1 as [L1 _].
  unfold bind at 1.
  destruct (in_world (session_get E (c :: u)) s1) as [s2 [e2 | resp]] eqn:H2;
    apply in_world_local_urls in H2 as [L2 H2];
    unfold session_get in H2; rewrite Hst in H2;
    destruct (env_get E [] (c :: u)) as [e0 | r0]; try done.
  { injection H2 as _ <-.
    destruct (is_client_error e0); [| done]. intros [= <-]. congruence. }
  injection H2 as _ <-.
  destruct (status r0 =? 200)%Z; cbn [andb]; [| intros [= <-]; congruence].
  unfold bind at 1. destruct (text r0) as [e3 | content]; cbn [of_result].
  { unfold raise. destruct (is_client_error e3); [| done].
    intros [= <-]. congruence. }
  unfold ret at 1. unfold bind at 1.
  destruct (in_world (open_w E _) s2) as [s3 [e3 | f]] eqn:H3.
  { apply in_world_local_urls in H3 as [_ H3].
    apply open_w_raises in H3. by rewrite H3. }
  apply in_world_local_urls in H3 as [L3 _].
  unfold bind at 1.
  destruct (in_world (write f _) s3) as [s4 [e4 | []]] eqn:H4.
  { apply in_world_local_urls in H4 as [_ H4]. done. }
  apply in_world_local_urls in H4 as [L4 _].
  unfold bind at 1, set_local_url at 1.
  destruct (in_world (download_segments E _ _ _) _)
    as [s5 [e5 | []]] eqn:H5;
    apply in_world_local_urls in H5 as [L5 H5].
  { apply download_segments_raises in H5. by rewrite H5. }
  intros [= <-]. rewrite L5. cbn [local_urls].
  unfold local_playlist_url. congruence.
Qed.

Lemma for_each_cache_profile_local_urls (E : Env)
    (profiles : list StreamProfile) (s s' : FillState) :
  origin_static E ->
  for_each (cache_profile E) profiles s = (s', inr tt) ->
  local_urls s'
  = url_map (base.filter (fun p => playlist_ok E p = true) profiles)
            (local_urls s).
Proof.
  intros Hst. revert s.
  induction profiles as [|p ps IH]; intros s; [by intros [= <-] |].
  cbn [for_each]. unfold bind.
  destruct (cache_profile E p s) as [s1 [e1 | []]] eqn:Hc; [done |].
  intros Hrest. rewrite (IH _ Hrest), filter_cons.
  rewrite (cache_profile_local_urls E p s s1 Hst Hc).
  destruct (playlist_ok E p); [by rewrite decide_True |].
  by rewrite decide_False.
Qed.



Lemma fetch_and_cache_hls_returns (E : Env) (profiles : list StreamProfile)
    (w w' : World) (m : gmap (list N) (list N)) :
  origin_static E ->
  fetch_and_cache_hls E true profiles w = (w', inr m) ->
  m = url_map (base.filter (fun p => playlist_ok E p = true) profiles) ∅.
Proof.
  intros Hst. unfold fetch_and_cache_hls. cbn [negb]. unfold bind at 1.
  destruct ((let* there := path_exists E LOCAL_CACHE_DIR in _) w)
    as [w1 [e1 | []]]; [done |].
  destruct (for_each _ _ _) as [s1 [e1 | []]] eqn:Hf; [done |].
  intros [= _ <-].
  by rewrite (for_each_cache_profile_local_urls E _ _ _ Hst Hf).
Qed.


(** The end-to-end scenario of the specification: after the fill the
    rewritten playlist and both segments are in the cache, and the map
    is the one expected. *)
Example end_to_end_scenario :
  snd demo_first = inr demo_map
  /\ fs (fst demo_first) !! (dir_480p ++ [index_m3u8])
     = Some (File true demo_playlist)
  /\ occursb (base_480p ++ [slash]) demo_playlist = false
  /\ fs (fst demo_first) !! (dir_480p ++ [lit "seg0.ts"])
     = Some (File true (lit "SEGMENT0"))
  /\ fs (fst demo_first) !! (dir_480p ++ [lit "seg1.ts"])
     = Some (File true (lit "SEGMENT1")).
Proof. by_computation. Qed.

(** The partial-failure scenario of the specification: the second of
    three segments fails with a server error, the first and the third
    are written and the fill returns. *)
Example partial_failure_scenario :
  let run := fetch_and_cache_hls flaky_env true [profile_480p] empty_world in
  snd run = inr demo_map
  /\ fs (fst run) !! (dir_480p ++ [lit "seg0.ts"])
     = Some (File true (lit "SEGMENT0"))
  /\ fs (fst run) !! (dir_480p ++ [lit "seg1.ts"]) = None
  /\ fs (fst run) !! (dir_480p ++ [lit "seg2.ts"])
     = Some (File true (lit "SEGMENT2")).
Proof. by_computation. Qed.



(** When the body of a segment cannot be read, the file is there
    already, empty, and the error is swallowed. *)
Lemma failed_read_leaves_empty_file (E : Env) (segment_url p : list N)
    (w w1 : World) (q : list (list N)) (r : response) (e : exn) :
  makedirs E (dirname (abspath E p)) w = (w1, inr tt) ->
  resolve (fs w1) (env_cwd E) p = Some q ->
  node_at (fs w1) q = None ->
  env_get E (gets w1) segment_url = GetResponse r ->
  status r = 200%Z ->
  read r = inl e ->
  is_client_error e = true ->
  download_segment E segment_url p w
  = ({| fs := <[q := File true []]> (fs w1);
        gets := gets w1 ++ [segment_url] |}, inr tt).
Proof.
  intros Hm Hr Hq Hget Hs Hread He.
  unfold download_segment, bind at 1. rewrite Hm.
  unfold bind at 1, path_exists, exists_in. rewrite Hr, Hq. cbn [negb].
  unfold except_ClientError, bind at 1, session_get. rewrite Hget, Hs.
  cbn [Z.eqb Pos.eqb]. unfold bind at 1, open_w. cbn [fs gets].
  rewrite Hr, Hq. unfold bind. rewrite Hread. cbn [of_result].
  unfold raise. by rewrite He.
Qed.

(** C5 fails on the code: when the body of a segment cannot be read,
    [download_segment] has opened the file already.  The error is
    swallowed, an empty file stays at the local path, and the next run
    takes the segment for cached and never fetches it again. *)
Theorem failed_body_read_leaves_an_empty_file :
  snd broken_first = inr demo_map
  /\ gets (fst broken_first)
     = [url_480p; base_480p ++ [slash] ++ lit "seg0.ts"]
  /\ fs empty_world !! (dir_480p ++ [lit "seg0.ts"]) = None
  /\ fs (fst broken_first) !! (dir_480p ++ [lit "seg0.ts"])
     = Some (File true [])
  /\ gets (fst (fetch_and_cache_hls broken_env true [profile_480p]
                  (fst broken_first)))
     = gets (fst broken_first) ++ [url_480p].
Proof. by_computation. Qed.

(** *** Filling a cache that is full *)

Lemma for_each_skip (E : Env) (w : World) (profile_dir : list N)
    (refs : list reference) :
  world_wf E w ->
  forallb (fun r => exists_in (fs w) (env_cwd E)
                      (path_join profile_dir (relativePath r))) refs = true ->
  for_each (fun r => download_segment E (resolvedRemoteURL r)
                       (path_join profile_dir (relativePath r))) refs w
  = (w, inr tt).
Proof.
  intros Hw. induction refs as [|r refs IH]; [done |].
  cbn [forallb for_each]. intros [Hr Hrest]%andb_true_iff. unfold bind.
  unfold exists_in in Hr.
  destruct (resolve (fs w) (env_cwd E) _) as [q |] eqn:Hq; [| done].
  rewrite (download_segment_skip E w _ _ q); [by apply IH | done | done |].
  by destruct (node_at (fs w) q).
Qed.

(** One round of the loop over the profiles, on a cached profile: the
    playlist is fetched, and that is all. *)
Lemma cache_profile_cached (E : Env) (w : World) (profile : StreamProfile)
    (m : gmap (list N) (list N)) :
  origin_static E -> world_wf E w ->
  cached_profile E (fs w) profile = true ->
  exists m',
    cache_profile E profile {| fill_world := w; local_urls := m |}
    = ({| fill_world :=
            {| fs := fs w; gets := gets w ++ playlist_urls [profile] |};
          local_urls := m' |}, inr tt).
Proof.
  intros Hst Hw. unfold cached_profile, cache_profile, playlist_urls.
  cbn [omap list_omap].
  destruct (url profile) as [[|c u] |];
    try (intros _; exists m; by rewrite app_nil_r, world_eta).
  destruct (env_get E [] (c :: u)) as [e | r] eqn:Hget; [done |].
  destruct (status r =? 200)%Z eqn:Hs; [| done].
  destruct (text r) as [e | content] eqn:Ht; [done |]. cbn [andb].
  destruct (resolve (fs w) (env_cwd E)
              (path_join LOCAL_CACHE_DIR (name profile)))
    as [d |] eqn:Hd; [| done].
  destruct (resolve (fs w) (env_cwd E) (path_join _ index_m3u8))
    as [q |] eqn:Hq; [| by rewrite andb_false_r].
  destruct (fs w !! q) as [[rd data | ] |] eqn:Hf;
    try by rewrite andb_false_r.
  intros [[Hdir Hdata%bool_decide_eq_true]%andb_true_iff Hrefs]%andb_true_iff.
  eexists. unfold except_ClientError, bind at 1, in_world at 1.
  cbn [fill_world local_urls].
  rewrite (makedirs_existing_dir E w _ d) by done.
  unfold bind at 1, in_world at 1, session_get.
  cbn [fill_world local_urls]. rewrite Hst, Hget, Hs.
  unfold bind at 1. rewrite Ht. cbn [of_result]. unfold ret at 1.
  unfold bind at 1, in_world at 1, open_w. cbn [fill_world local_urls fs].
  rewrite Hq. rewrite (fs_wf_lookup_node_at _ _ _ (proj1 Hw) Hf).
  cbn [gets].
  unfold bind at 1, in_world at 1, write. cbn [fill_world local_urls fs gets].
  rewrite lookup_insert_eq, insert_insert_eq, <- Hdata.
  rewrite (insert_id _ _ _ Hf).
  unfold bind at 1, set_local_url at 1. cbn [fill_world local_urls].
  unfold in_world. cbn [fill_world local_urls].
  rewrite download_segments_references, for_each_skip; [done | done |].
  done.
Qed.

Lemma playlist_urls_cons (p : StreamProfile) (ps : list StreamProfile) :
  playlist_urls (p :: ps) = playlist_urls [p] ++ playlist_urls ps.
Proof.
  unfold playlist_urls. cbn [omap list_omap].
  by destruct (url p) as [[|c u] |].
Qed.

Lemma for_each_cached (E : Env) (profiles : list StreamProfile) (w : World)
    (m : gmap (list N) (list N)) :
  origin_static E -> world_wf E w ->
  forallb (cached_profile E (fs w)) profiles = true ->
  exists m',
    for_each (cache_profile E) profiles {| fill_world := w; local_urls := m |}
    = ({| fill_world :=
            {| fs := fs w; gets := gets w ++ playlist_urls profiles |};
          local_urls := m' |}, inr tt).
Proof.
  intros Hst. revert w m.
  induction profiles as [|p ps IH]; intros w m Hw.
  - intros _. exists m. cbn. by rewrite app_nil_r, world_eta.
  - cbn [forallb for_each]. intros [Hp Hps]%andb_true_iff.
    destruct (cache_profile_cached E w p m Hst Hw Hp) as [m1 H1].
    unfold bind. rewrite H1.
    destruct (IH {| fs := fs w; gets := gets w ++ playlist_urls [p] |} m1)
      as [m2 H2]; [done | done |].
    exists m2. rewrite H2. cbn [fs gets].
    by rewrite (playlist_urls_cons p ps), app_assoc.
Qed.

(** C6, as the code has it.  A second run of the filler over profiles
    that are fully cached fetches the playlist of each profile again,
    once, and nothing else; it changes no file and returns the map the
    first run returned. *)
Theorem refill_fetches_playlists_only (E : Env)
    (profiles : list StreamProfile) (w0 w1 : World)
    (m1 : gmap (list N) (list N)) :
  origin_static E ->
  fetch_and_cache_hls E true profiles w0 = (w1, inr m1) ->
  world_wf E w1 ->
  fully_cached E (fs w1) profiles = true ->
  fetch_and_cache_hls E true profiles w1
  = ({| fs := fs w1; gets := gets w1 ++ playlist_urls profiles |}, inr m1).
Proof.
  intros Hst Hfirst Hw [Hroot Hall]%andb_true_iff.
  apply fetch_and_cache_hls_returns in Hfirst; [| done].
  destruct (for_each_cached E profiles w1 ∅ Hst Hw Hall) as [m2 H2].
  pose proof (for_each_cache_profile_local_urls E _ _ _ Hst H2) as Hm2.
  cbn [local_urls] in Hm2.
  unfold fetch_and_cache_hls. cbn [negb].
  unfold bind, path_exists. rewrite Hroot. cbn [negb]. unfold ret.
  rewrite H2. cbn [fill_world local_urls]. congruence.
Qed.

(** C6 fails as stated: the second run over a fully cached profile
    fetches the playlist again. *)
Lemma second_fill_fetches_the_playlist :
  let w1 := fst demo_first in
  let second := fetch_and_cache_hls demo_env true [profile_480p] w1 in
  fully_cached demo_env (fs w1) [profile_480p] = true
  /\ gets (fst second) = gets w1 ++ [url_480p]
  /\ gets (fst second) <> gets w1.
Proof. by_computation. Qed.

(** The cache the demo fill leaves, filled again. *)
Lemma refill_fetches_playlists_only_witness :
  fetch_and_cache_hls demo_env true [profile_480p] (fst demo_first)
  = ({| fs := fs (fst demo_first);
        gets := gets (fst demo_first) ++ playlist_urls [profile_480p] |},
     inr demo_map).
Proof.
  apply (refill_fetches_playlists_only demo_env [profile_480p] empty_world
           (fst demo_first) demo_map).
  - intros history u. reflexivity.
  - by_computation.
  - by_computation.
  - vm_compute. reflexivity.
Defined.

(** ** The session *)

Lemma for_each_set_playback_url (profiles : list StreamProfile)
    (s : OrchState) (d0 : gmap (list N) (option (list N))) :
  result s !! k_playback_urls = Some (VDict d0) ->
  for_each set_playback_url profiles s
  = ({| orch_world := orch_world s;
        result := <[k_playback_urls := VDict (playback_dict profiles d0)]>
                    (result s) |}, inr tt).
Proof.
  revert s d0. induction profiles as [|p ps IH]; intros s d0 Hd.
  - cbn. rewrite insert_id by done. by destruct s.
  - cbn [for_each]. unfold bind, set_playback_url at 1. rewrite Hd.
    erewrite IH; [| cbn [result]; apply lookup_insert_eq].
    cbn [orch_world result playback_dict fold_left].
    by rewrite insert_insert_eq.
Qed.

Lemma push_to_livepeer_returns (E : Env) (S : Session)
    (ingest_url video_path : list N) (w : World) :
  exists b, push_to_livepeer E S ingest_url video_path w = (w, inr b).
Proof.
  unfold push_to_livepeer, bind, path_exists.
  destruct (exists_in _ _ _); cbn [negb]; [| by exists false].
  unfold except_Exception, bind. destruct (ffmpeg S) as [e | rc]; cbn.
  - by exists false.
  - destruct (rc =? 0)%Z; by eexists.
Qed.

(** The dict a session returns: the initial one with the error when the
    allocation fails; otherwise the allocated one, with the local URLs
    once the fill has returned and with the error of the stage that
    raised, if one did. *)
Lemma session_outcome (E : Env) (S : Session) (CACHE_ENABLED : bool)
    (video_path : list N) (w : World) :
  exists w' d,
    stream_video_to_livepeer E S CACHE_ENABLED video_path w = (w', inr d)
    /\ match create_stream S STREAM_NAME session_profiles with
       | inl e => d = <[k_error := VStr (exn_msg e)]> initial_result
       | inr stream =>
           (exists e,
               d = <[k_error := VStr (exn_msg e)]> (allocated_result stream))
           \/ (exists lu,
                  d = <[k_local_playback_urls := VDict lu]>
                        (allocated_result stream))
           \/ (exists lu e,
                  d = <[k_error := VStr (exn_msg e)]>
                        (<[k_local_playback_urls := VDict lu]>
                           (allocated_result stream)))
       end.
Proof.
  unfold stream_video_to_livepeer, except_Exception, session_body.
  destruct (create_stream S STREAM_NAME session_profiles) as [e | stream].
  { cbn. by eexists _, _. }
  unfold bind at 1. cbn [of_result]. unfold ret at 1.
  unfold bind at 1.
  rewrite (for_each_set_playback_url _ _ ∅) by done.
  unfold bind at 1, set_result at 1. unfold bind at 1, set_result at 1.
  unfold bind at 1, set_result at 1. cbn [orch_world result].
  fold (allocated_result stream).
  unfold bind at 1, in_orch_world at 1. cbn [orch_world result].
  destruct (push_to_livepeer_returns E S (ingest stream) video_path w)
    as [push_success ->].
  unfold bind at 1, in_orch_world at 1, serve_cached_content.
  cbn [orch_world result].
  assert (forall (server_runner : option unit),
    exists w' d,
      match
        match
          (let* local_urls :=
             in_orch_world
               (fetch_and_cache_hls E CACHE_ENABLED (playback stream)) in
           set_result k_local_playback_urls (VDict (Some <$> local_urls)) ;;;
           match server_runner with
           | Some _ =>
               match server_cleanup S with
               | Some e => raise e
               | None => ret tt
               end
           | None => ret tt
           end)
            {| orch_world := w; result := allocated_result stream |}
        with
        | (s', inl e) => set_result k_error (VStr (exn_msg e)) s'
        | (s', inr a) => (s', inr a)
        end
      with
      | (s, inl e) => (orch_world s, inl e)
      | (s, inr _) => (orch_world s, inr (result s))
      end = (w', inr d)
      /\ ((exists e,
              d = <[k_error := VStr (exn_msg e)]> (allocated_result stream))
          \/ (exists lu,
                 d = <[k_local_playback_urls := VDict lu]>
                       (allocated_result stream))
          \/ (exists lu e,
                 d = <[k_error := VStr (exn_msg e)]>
                       (<[k_local_playback_urls := VDict lu]>
                          (allocated_result stream))))) as Hrest.
  { intros server_runner. unfold bind at 1, in_orch_world at 1.
    cbn [orch_world result].
    destruct (fetch_and_cache_hls E CACHE_ENABLED (playback stream) w)
      as [w2 [e | local_urls]].
    - cbn. eexists _, _. split; [done |]. left. by eexists.
    - unfold bind, set_result at 1. cbn [orch_world result].
      destruct server_runner as [[] |];
        [destruct (server_cleanup S) as [e |] |]; cbn;
        eexists _, _; (split; [done |]).
      + right. right. by eexists _, _.
      + right. left. by eexists.
      + right. left. by eexists. }
  destruct CACHE_ENABLED; cbn [negb].
  - destruct (server_start S) as [e |].
    + cbn. eexists _, _. split; [done |]. left. by eexists.
    + apply (Hrest (Some tt)).
  - apply (Hrest None).
Qed.

Lemma bind_ext {S A B : Type} (m : M S A) (k1 k2 : A -> M S B) (s : S) :
  (forall a s', k1 a s' = k2 a s') -> bind m k1 s = bind m k2 s.
Proof. intros H. unfold bind. by destruct (m s) as [s' [e | a]]. Qed.

Lemma session_body_ffmpeg (E : Env) (S : Session) (outcome : exn + Z)
    (CACHE_ENABLED : bool) (video_path : list N) (s : OrchState) :
  session_body E (with_ffmpeg S outcome) CACHE_ENABLED video_path s
  = session_body E S CACHE_ENABLED video_path s.
Proof.
  unfold session_body.
  change (create_stream (with_ffmpeg S outcome)) with (create_stream S).
  change (serve_cached_content (with_ffmpeg S outcome))
    with (serve_cached_content S).
  change (server_cleanup (with_ffmpeg S outcome)) with (server_cleanup S).
  apply bind_ext. intros stream s0.
  do 4 (apply bind_ext; intros [] ?). clear.
  match goal with |- _ ?x = _ => generalize x end. intros s.
  set (rest := bind (in_orch_world (serve_cached_content S CACHE_ENABLED)) _).
  unfold bind, in_orch_world.
  destruct (push_to_livepeer_returns E S (ingest stream) video_path
              (orch_world s)) as [b1 ->].
  destruct (push_to_livepeer_returns E (with_ffmpeg S outcome)
              (ingest stream) video_path (orch_world s)) as [b2 ->].
  done.
Qed.

Lemma stream_video_to_livepeer_ffmpeg (E : Env) (S : Session)
    (outcome : exn + Z) (CACHE_ENABLED : bool) (video_path : list N)
    (w : World) :
  stream_video_to_livepeer E (with_ffmpeg S outcome) CACHE_ENABLED
                           video_path w
  = stream_video_to_livepeer E S CACHE_ENABLED video_path w.
Proof.
  unfold stream_video_to_livepeer, except_Exception.
  by rewrite session_body_ffmpeg.
Qed.

Lemma dom_insert_within (m : gmap (list N) pyval) (k : list N) (v : pyval)
    (X : gset (list N)) :
  k ∈ X -> dom m ⊆ X -> dom (<[k := v]> m) ⊆ X.
Proof.
  intros Hk Hm. rewrite dom_insert_L. apply union_least; [| done].
  by apply singleton_subseteq_l.
Qed.

Lemma allocated_result_lookups (stream : StreamInfo) :
  allocated_result stream !! k_success = Some (VBool true)
  /\ allocated_result stream !! k_stream_id = Some (VStr (info_id stream))
  /\ allocated_result stream !! k_ingest_url = Some (VStr (ingest stream))
  /\ allocated_result stream !! k_playback_urls
     = Some (VDict (playback_dict (playback stream) ∅))
  /\ allocated_result stream !! k_local_playback_urls = Some (VDict ∅).
Proof.
  unfold allocated_result, initial_result.
  split_and!; repeat (rewrite lookup_insert_ne by done);
    by rewrite lookup_insert_eq.
Qed.

Lemma initial_result_lookups :
  initial_result !! k_success = Some (VBool false)
  /\ initial_result !! k_stream_id = Some VNone
  /\ initial_result !! k_ingest_url = Some VNone
  /\ initial_result !! k_playback_urls = Some (VDict ∅)
  /\ initial_result !! k_local_playback_urls = Some (VDict ∅).
Proof.
  unfold initial_result.
  split_and!; repeat (rewrite lookup_insert_ne by done);
    by rewrite lookup_insert_eq.
Qed.

(** The session when the allocation is refused: nothing else runs, and
    the handler records the message. *)
Lemma session_after_refusal (E : Env) (S : Session) (CACHE_ENABLED : bool)
    (video_path : list N) (w : World) (e : exn) :
  create_stream S STREAM_NAME session_profiles = inl e ->
  stream_video_to_livepeer E S CACHE_ENABLED video_path w
  = (w, inr (<[k_error := VStr (exn_msg e)]> initial_result)).
Proof.
  intros Hc.
  unfold stream_video_to_livepeer, except_Exception, session_body.
  by rewrite Hc.
Qed.

(** The session once the stream is allocated: the result and the world
    are those of the server start, the fill and the shutdown. *)
Lemma session_after_allocation (E : Env) (S : Session) (CACHE_ENABLED : bool)
    (video_path : list N) (w : World) (stream : StreamInfo) :
  create_stream S STREAM_NAME session_profiles = inr stream ->
  stream_video_to_livepeer E S CACHE_ENABLED video_path w
  = match (if CACHE_ENABLED then server_start S else None) with
    | Some e =>
        (w, inr (<[k_error := VStr (exn_msg e)]> (allocated_result stream)))
    | None =>
        match fetch_and_cache_hls E CACHE_ENABLED (playback stream) w with
        | (w', inl e) =>
            (w', inr (<[k_error := VStr (exn_msg e)]>
                        (allocated_result stream)))
        | (w', inr local_urls) =>
            (w', inr match (if CACHE_ENABLED then server_cleanup S
                            else None) with
                     | Some e =>
                         <[k_error := VStr (exn_msg e)]>
                           (<[k_local_playback_urls
                                := VDict (Some <$> local_urls)]>
                              (allocated_result stream))
                     | None =>
                         <[k_local_playback_urls
                             := VDict (Some <$> local_urls)]>
                           (allocated_result stream)
                     end)
        end
    end.
Proof.
  intros Hc.
  unfold stream_video_to_livepeer, except_Exception, session_body.
  rewrite Hc. unfold bind at 1. cbn [of_result]. unfold ret at 1.
  unfold bind at 1.
  rewrite (for_each_set_playback_url _ _ ∅) by done.
  unfold bind at 1, set_result at 1. unfold bind at 1, set_result at 1.
  unfold bind at 1, set_result at 1. cbn [orch_world result].
  fold (allocated_result stream).
  unfold bind at 1, in_orch_world at 1. cbn [orch_world result].
  destruct (push_to_livepeer_returns E S (ingest stream) video_path w)
    as [push_success ->].
  unfold bind at 1, in_orch_world at 1, serve_cached_content.
  cbn [orch_world result].
  destruct CACHE_ENABLED; cbn [negb].
  - destruct (server_start S) as [e |]; [done |].
    unfold ret at 1. unfold bind at 1, in_orch_world at 1.
    cbn [orch_world result].
    destruct (fetch_and_cache_hls E true (playback stream) w)
      as [w2 [e | local_urls]]; [done |].
    unfold bind, set_result at 1. cbn [orch_world result].
    by destruct (server_cleanup S) as [e |].
  - unfold ret at 1. unfold bind at 1, in_orch_world at 1.
    cbn [orch_world result].
    by destruct (fetch_and_cache_hls E false (playback stream) w)
      as [w2 [e | local_urls]].
Qed.

(** C10. The [success] flag of the result says whether the allocation
    returned a descriptor, and nothing else: it is [True] exactly when
    [create_stream] returns, whatever the push, the server and the fill
    do afterwards. *)
Theorem success_flag_is_the_allocation_outcome (E : Env) (S : Session)
    (CACHE_ENABLED : bool) (video_path : list N) (w : World) :
  exists w' d,
    stream_video_to_livepeer E S CACHE_ENABLED video_path w = (w', inr d)
    /\ d !! k_success
       = Some (VBool match create_stream S STREAM_NAME session_profiles with
                     | inr _ => true
                     | inl _ => false
                     end).
Proof.
  destruct (session_outcome E S CACHE_ENABLED video_path w)
    as (w' & d & Hrun & Hd).
  exists w', d. split; [done |].
  destruct (create_stream S STREAM_NAME session_profiles) as [e | stream].
  - subst d. rewrite lookup_insert_ne by done.
    apply initial_result_lookups.
  - destruct (allocated_result_lookups stream) as [Hs _].
    destruct Hd as [[e ->] | [[lu ->] | (lu & e & ->)]];
      by rewrite !lookup_insert_ne.
Qed.

Lemma allocated_result_no_error (stream : StreamInfo) :
  allocated_result stream !! k_error = None.
Proof.
  unfold allocated_result, initial_result.
  by rewrite !lookup_insert_ne.
Qed.

Lemma initial_result_no_error : initial_result !! k_error = None.
Proof. unfold initial_result. by rewrite !lookup_insert_ne. Qed.

(** The result of a session, stage by stage: what the allocation, the
    server start, the fill and the shutdown leave in the dict and in the
    world. *)
Lemma session_stages (E : Env) (S : Session) (CACHE_ENABLED : bool)
    (video_path : list N) (w w' : World) (d : gmap (list N) pyval) :
  stream_video_to_livepeer E S CACHE_ENABLED video_path w = (w', inr d) ->
  match create_stream S STREAM_NAME session_profiles with
  | inl e =>
      w' = w
      /\ d !! k_success = Some (VBool false)
      /\ d !! k_stream_id = Some VNone
      /\ d !! k_ingest_url = Some VNone
      /\ d !! k_playback_urls = Some (VDict ∅)
      /\ d !! k_local_playback_urls = Some (VDict ∅)
      /\ d !! k_error = Some (VStr (exn_msg e))
  | inr stream =>
      d !! k_success = Some (VBool true)
      /\ d !! k_stream_id = Some (VStr (info_id stream))
      /\ d !! k_ingest_url = Some (VStr (ingest stream))
      /\ d !! k_playback_urls
         = Some (VDict (playback_dict (playback stream) ∅))
      /\ match (if CACHE_ENABLED then server_start S else None) with
         | Some e =>
             w' = w
             /\ d !! k_local_playback_urls = Some (VDict ∅)
             /\ d !! k_error = Some (VStr (exn_msg e))
         | None =>
             match fetch_and_cache_hls E CACHE_ENABLED (playback stream) w
             with
             | (w2, inl e) =>
                 w' = w2
                 /\ d !! k_local_playback_urls = Some (VDict ∅)
                 /\ d !! k_error = Some (VStr (exn_msg e))
             | (w2, inr local_urls) =>
                 w' = w2
                 /\ d !! k_local_playback_urls
                    = Some (VDict (Some <$> local_urls))
                 /\ d !! k_error
                    = match (if CACHE_ENABLED then server_cleanup S
                             else None) with
                      | Some e => Some (VStr (exn_msg e))
                      | None => None
                      end
             end
         end
  end.
Proof.
  intros Hrun.
  destruct (create_stream S STREAM_NAME session_profiles)
    as [e | stream] eqn:Hc.
  - rewrite (session_after_refusal E S CACHE_ENABLED video_path w e Hc)
      in Hrun.
    apply pair_equal_spec in Hrun as [<- Hd]. apply (inj inr) in Hd as <-.
    destruct initial_result_lookups as (I1 & I2 & I3 & I4 & I5).
    rewrite lookup_insert_eq, !lookup_insert_ne by done. done.
  - rewrite (session_after_allocation E S CACHE_ENABLED video_path w stream
               Hc) in Hrun.
    destruct (allocated_result_lookups stream) as (A1 & A2 & A3 & A4 & A5).
    pose proof (allocated_result_no_error stream) as A6.
    destruct (if CACHE_ENABLED then server_start S else None) as [e |].
    { apply pair_equal_spec in Hrun as [<- Hd]. apply (inj inr) in Hd as <-.
      rewrite lookup_insert_eq, !lookup_insert_ne by done. done. }
    destruct (fetch_and_cache_hls E CACHE_ENABLED (playback stream) w)
      as [w2 [e | local_urls]].
    { apply pair_equal_spec in Hrun as [<- Hd]. apply (inj inr) in Hd as <-.
      rewrite lookup_insert_eq, !lookup_insert_ne by done. done. }
    apply pair_equal_spec in Hrun as [<- Hd]. apply (inj inr) in Hd as <-.
    destruct (if CACHE_ENABLED then server_cleanup S else None) as [e |].
    + rewrite lookup_insert_eq.
      rewrite (lookup_insert_ne _ k_error k_local_playback_urls) by done.
      rewrite lookup_insert_eq, !lookup_insert_ne by done. done.
    + rewrite lookup_insert_eq, !lookup_insert_ne by done. done.
Qed.

(** C7, as the code has it.  Every session returns, without raising, a
    dict that holds the allocation outcome ([success], [stream_id],
    [ingest_url], [playback_urls]) and the map of the cache fill
    ([local_playback_urls], empty until the fill has returned), and the
    message of the stage that raised under [error].  It has no other
    key: the outcome of the push is not recorded, and the session
    returns the same whatever the encoder does.

    Stage by stage (the last part of the statement):
    - the allocation is refused: nothing else runs, the world is
      untouched, the dict holds [False], [None], [None] and two empty
      dicts, and the message of the refusal under [error];
    - the stream is allocated: the dict holds [True], the id and the
      ingest url of the stream and one playback url for each of its
      profiles; then
      - the local server does not start (cache enabled): the world is
        untouched, [local_playback_urls] is empty and [error] holds the
        message of the server;
      - the fill raises: the world is the one the fill leaves,
        [local_playback_urls] is empty and [error] holds the message of
        the fill;
      - the fill returns: the world is the one the fill leaves,
        [local_playback_urls] holds the map of the fill, and [error]
        holds the message of the shutdown when it raises (cache
        enabled) and is absent otherwise. *)
Theorem session_result_holds_all_but_the_push (E : Env) (S : Session)
    (CACHE_ENABLED : bool) (video_path : list N) (w : World) :
  exists w' d,
    stream_video_to_livepeer E S CACHE_ENABLED video_path w = (w', inr d)
    /\ (exists success, d !! k_success = Some (VBool success))
    /\ (d !! k_stream_id = Some VNone
        \/ exists stream_id, d !! k_stream_id = Some (VStr stream_id))
    /\ (d !! k_ingest_url = Some VNone
        \/ exists ingest_url, d !! k_ingest_url = Some (VStr ingest_url))
    /\ (exists urls, d !! k_playback_urls = Some (VDict urls))
    /\ (exists local_urls,
           d !! k_local_playback_urls = Some (VDict local_urls))
    /\ dom d ⊆ result_keys
    /\ (forall outcome,
           stream_video_to_livepeer E (with_ffmpeg S outcome) CACHE_ENABLED
                                    video_path w
           = (w', inr d))
    /\ match create_stream S STREAM_NAME session_profiles with
       | inl e =>
           w' = w
           /\ d !! k_success = Some (VBool false)
           /\ d !! k_stream_id = Some VNone
           /\ d !! k_ingest_url = Some VNone
           /\ d !! k_playback_urls = Some (VDict ∅)
           /\ d !! k_local_playback_urls = Some (VDict ∅)
           /\ d !! k_error = Some (VStr (exn_msg e))
       | inr stream =>
           d !! k_success = Some (VBool true)
           /\ d !! k_stream_id = Some (VStr (info_id stream))
           /\ d !! k_ingest_url = Some (VStr (ingest stream))
           /\ d !! k_playback_urls
              = Some (VDict (playback_dict (playback stream) ∅))
           /\ match (if CACHE_ENABLED then server_start S else None) with
              | Some e =>
                  w' = w
                  /\ d !! k_local_playback_urls = Some (VDict ∅)
                  /\ d !! k_error = Some (VStr (exn_msg e))
              | None =>
                  match fetch_and_cache_hls E CACHE_ENABLED
                          (playback stream) w
                  with
                  | (w2, inl e) =>
                      w' = w2
                      /\ d !! k_local_playback_urls = Some (VDict ∅)
                      /\ d !! k_error = Some (VStr (exn_msg e))
                  | (w2, inr local_urls) =>
                      w' = w2
                      /\ d !! k_local_playback_urls
                         = Some (VDict (Some <$> local_urls))
                      /\ d !! k_error
                         = match (if CACHE_ENABLED then server_cleanup S
                                  else None) with
                           | Some e => Some (VStr (exn_msg e))
                           | None => None
                           end
                  end
              end
       end.
Proof.
  destruct (session_outcome E S CACHE_ENABLED video_path w)
    as (w' & d & Hrun & Hd).
  exists w', d. split; [done |].
  pose proof (session_stages E S CACHE_ENABLED video_path w w' d Hrun)
    as Hstages.
  enough ((exists success, d !! k_success = Some (VBool success))
          /\ (d !! k_stream_id = Some VNone
              \/ exists stream_id, d !! k_stream_id = Some (VStr stream_id))
          /\ (d !! k_ingest_url = Some VNone
              \/ exists ingest_url,
                   d !! k_ingest_url = Some (VStr ingest_url))
          /\ (exists urls, d !! k_playback_urls = Some (VDict urls))
          /\ (exists local_urls,
                 d !! k_local_playback_urls = Some (VDict local_urls))
          /\ dom d ⊆ result_keys
          /\ (forall outcome,
                 stream_video_to_livepeer E (with_ffmpeg S outcome)
                                          CACHE_ENABLED video_path w
                 = (w', inr d)))
    as (H1 & H2 & H3 & H4 & H5 & H6 & H7).
  { do 7 (split; [assumption |]). exact Hstages. }
  clear Hstages.
  assert (dom initial_result ⊆ result_keys) as Hdom0 by by_computation.
  assert (forall stream, dom (allocated_result stream) ⊆ result_keys)
    as Hdom1.
  { intros stream. unfold allocated_result.
    repeat (apply dom_insert_within; [by_computation |]). done. }
  destruct initial_result_lookups as (I1 & I2 & I3 & I4 & I5).
  assert (forall d0 : gmap (list N) pyval,
             stream_video_to_livepeer E S CACHE_ENABLED video_path w
             = (w', inr d0) ->
             forall outcome,
               stream_video_to_livepeer E (with_ffmpeg S outcome)
                                        CACHE_ENABLED video_path w
               = (w', inr d0)) as Hpush.
  { intros d0 H0 outcome. by rewrite stream_video_to_livepeer_ffmpeg. }
  destruct (create_stream S STREAM_NAME session_profiles) as [e | stream].
  - subst d. rewrite !lookup_insert_ne by done.
    split_and!; [by eauto .. | | by apply Hpush].
    repeat (apply dom_insert_within; [by_computation |]). done.
  - destruct (allocated_result_lookups stream) as (A1 & A2 & A3 & A4 & A5).
    specialize (Hdom1 stream).
    destruct Hd as [[e ->] | [[lu ->] | (lu & e & ->)]].
    + rewrite !lookup_insert_ne by done.
      split_and!; [by eauto .. | | by apply Hpush].
      repeat (apply dom_insert_within; [by_computation |]). done.
    + rewrite lookup_insert_eq, !lookup_insert_ne by done.
      split_and!; [by eauto .. | | by apply Hpush].
      repeat (apply dom_insert_within; [by_computation |]). done.
    + rewrite (lookup_insert_ne _ k_error k_local_playback_urls) by done.
      rewrite lookup_insert_eq, !lookup_insert_ne by done.
      split_and!; [by eauto .. | | by apply Hpush].
    repeat (apply dom_insert_within; [by_computation |]). done.
Qed.

(** The claim, as stated, fails: two sessions that differ in the outcome
    of the push alone return the same dict, which has no key for it. *)
Lemma push_outcome_is_not_in_the_result :
  push_to_livepeer session_env session_pushed
    (lit "rtmp://origin/live/key") video_path session_world
  = (session_world, inr true)
  /\ push_to_livepeer session_env session_push_failed
       (lit "rtmp://origin/live/key") video_path session_world
     = (session_world, inr false)
  /\ snd (stream_video_to_livepeer session_env session_pushed true
            video_path session_world) = inr session_result
  /\ snd (stream_video_to_livepeer session_env session_push_failed true
            video_path session_world) = inr session_result
  /\ dom session_result
     = {[ k_success; k_stream_id; k_ingest_url; k_playback_urls;
          k_local_playback_urls ]}.
Proof. by_computation. Qed.

(** * Further properties of the code *)

(** ** What the filler does to the file system *)

Lemma node_at_None (fs : gmap (list (list N)) node) (q : list (list N)) :
  node_at fs q = None -> fs !! q = None.
Proof. by destruct q. Qed.

Lemma makedirs_from_extends (fs fs' : gmap (list (list N)) node)
    (comps cur : list (list N)) (name : list N) :
  makedirs_from fs cur comps name = inr fs' -> fs ⊆ fs'.
Proof.
  revert fs cur. induction comps as [|c cs IH]; intros fs cur.
  - by intros [= ->].
  - cbn [makedirs_from]. destruct (is_dir fs cur); [| done].
    destruct (node_at fs (step cur c)) as [[| ] |] eqn:Hn; [done | apply IH |].
    intros H. apply IH in H. etrans; [| exact H].
    apply insert_subseteq. by apply node_at_None.
Qed.

Lemma makedirs_extends (E : Env) (p : list N) (w w' : World)
    (r : exn + unit) :
  makedirs E p w = (w', r) -> fs w ⊆ fs w' /\ gets w' = gets w.
Proof.
  unfold makedirs. destruct p as [|c p]; [by intros [= <- _] |].
  destruct (makedirs_from _ _ _ _) as [e | fs'] eqn:Hm.
  - by intros [= <- _].
  - intros [= <- _]. split; [| done]. by apply makedirs_from_extends in Hm.
Qed.

Lemma download_segment_extends (E : Env) (segment_url p : list N)
    (w w' : World) (r : exn + unit) :
  download_segment E segment_url p w = (w', r) ->
  fs w ⊆ fs w'
  /\ (gets w' = gets w \/ gets w' = gets w ++ [segment_url]).
Proof.
  unfold download_segment, bind at 1.
  destruct (makedirs E _ w) as [w1 [e1 | []]] eqn:Hm;
    apply makedirs_extends in Hm as [Hfs Hg].
  { intros [= <- _]. split; [done | by left]. }
  unfold bind at 1, path_exists, exists_in.
  destruct (resolve (fs w1) (env_cwd E) p) as [q |] eqn:Hr.
  - destruct (node_at (fs w1) q) as [nd |] eqn:Hq; cbn [negb].
    { intros [= <- _]. split; [done | by left]. }
    unfold except_ClientError, bind at 1, session_get.
    assert (forall (X : World * (exn + unit)),
               fs w ⊆ fs X.1 -> gets X.1 = gets w ++ [segment_url] ->
               fs w
               ⊆ fs (match X with
                     | (s', inl e) =>
                         if is_client_error e then ret () s' else (s', inl e)
                     | (s', inr a) => (s', inr a)
                     end).1
               /\ gets (match X with
                       | (s', inl e) =>
                           if is_client_error e then ret () s'
                           else (s', inl e)
                       | (s', inr a) => (s', inr a)
                       end).1 = gets w ++ [segment_url]) as Hwrap.
    { intros [s' [e | []]] H1 H2; [destruct (is_client_error e) |]; done. }
    intros Hrun.
    match type of Hrun with ?t = _ =>
      assert (fs w ⊆ fs t.1 /\ gets t.1 = gets w ++ [segment_url]) as Hgoal
    end.
    2:{ rewrite Hrun in Hgoal. cbn in Hgoal. destruct Hgoal. split; eauto. }
    clear Hrun. apply Hwrap; clear Hwrap.
    + destruct (env_get E (gets w1) segment_url) as [e | resp]; [done |].
      destruct (status resp =? 200)%Z; [| done].
      unfold bind at 1, open_w. cbn [fs gets]. rewrite Hr, Hq.
      unfold bind. destruct (read resp) as [e | data]; cbn.
      * etrans; [exact Hfs |]. apply insert_subseteq. by apply node_at_None.
      * rewrite lookup_insert_eq, insert_insert_eq.
        etrans; [exact Hfs |]. apply insert_subseteq. by apply node_at_None.
    + rewrite <- Hg.
      destruct (env_get E (gets w1) segment_url) as [e | resp]; [done |].
      destruct (status resp =? 200)%Z; [| done].
      unfold bind at 1, open_w. cbn [fs gets]. rewrite Hr, Hq.
      unfold bind. by destruct (read resp) as [e | data].
  - cbn [negb]. unfold except_ClientError, bind at 1, session_get.
    destruct (env_get E (gets w1) segment_url) as [e | resp].
    + destruct (is_client_error e); intros [= <- _]; cbn;
        (split; [done | right; congruence]).
    + destruct (status resp =? 200)%Z.
      * unfold bind, open_w. cbn [fs gets]. rewrite Hr. cbn.
        intros [= <- _]. cbn. split; [done | right; congruence].
      * intros [= <- _]. cbn. split; [done | right; congruence].
Qed.

(** *** Relations that every step of the filler keeps *)

Section Keeps.
Variable E : Env.
Variable R : relation World.
Hypothesis R_preorder : PreOrder R.

(** The URLs that may be fetched. *)
Variable G : list N -> Prop.

Hypothesis R_makedirs : forall p, keeps R id (makedirs E p).
Hypothesis R_get : forall u, G u -> keeps R id (session_get E u).
Hypothesis R_open : forall p, keeps R id (open_w E p).
Hypothesis R_open_write : forall p data w w1 f,
  open_w E p w = (w1, inr f) -> R w (write f data w1).1.

Lemma keeps_ret {S A} (proj : S -> World) (a : A) : keeps R proj (ret a).
Proof. by intros s. Qed.

Lemma keeps_raise {S A} (proj : S -> World) (e : exn) :
  keeps R proj (raise (A := A) e).
Proof. by intros s. Qed.

Lemma keeps_of_result {S A} (proj : S -> World) (r : exn + A) :
  keeps R proj (of_result r).
Proof. destruct r; [apply keeps_raise | apply keeps_ret]. Qed.

Lemma keeps_bind {S A B} (proj : S -> World) (m : M S A) (k : A -> M S B) :
  keeps R proj m -> (forall a, keeps R proj (k a)) -> keeps R proj (bind m k).
Proof.
  intros Hm Hk s. unfold bind. specialize (Hm s).
  destruct (m s) as [s' [e | a]]; cbn in *; [done |].
  etrans; [exact Hm | apply Hk].
Qed.

Lemma keeps_except_ClientError {S A} (proj : S -> World) (m : M S A)
    (h : exn -> M S A) :
  keeps R proj m -> (forall e, keeps R proj (h e)) ->
  keeps R proj (except_ClientError m h).
Proof.
  intros Hm Hh s. unfold except_ClientError. specialize (Hm s).
  destruct (m s) as [s' [e | a]]; cbn in *; [| done].
  destruct (is_client_error e); [| done].
  etrans; [exact Hm | apply Hh].
Qed.

Lemma keeps_path_exists (p : list N) : keeps R id (path_exists E p).
Proof. by intros w. Qed.

Lemma keeps_in_world {A} (m : M World A) :
  keeps R id m -> keeps R fill_world (in_world m).
Proof.
  intros Hm s. unfold in_world. specialize (Hm (fill_world s)).
  by destruct (m (fill_world s)).
Qed.

Lemma keeps_for_each {S A} (proj : S -> World) (body : A -> M S unit)
    (l : list A) :
  (forall x, x ∈ l -> keeps R proj (body x)) -> keeps R proj (for_each body l).
Proof.
  induction l as [|x l IH]; intros H; cbn [for_each].
  - apply keeps_ret.
  - apply keeps_bind; [apply H; left |].
    intros _. apply IH. intros y Hy. apply H. by right.
Qed.

Lemma keeps_open_read_write (p : list N) (r : exn + list N) :
  keeps R id (let* f := open_w E p in
              let* data := of_result r in write f data).
Proof.
  intros w. unfold bind at 1. pose proof (R_open p w) as Ho.
  destruct (open_w E p w) as [w1 [e | f]] eqn:Hopen; [done |].
  destruct r as [e | data]; [done |]. cbn.
  by apply (R_open_write p data w w1 f).
Qed.

Lemma keeps_download_segment (segment_url p : list N) :
  G segment_url -> keeps R id (download_segment E segment_url p).
Proof.
  intros HG. unfold download_segment.
  apply keeps_bind; [apply R_makedirs |]. intros _.
  apply keeps_bind; [apply keeps_path_exists |]. intros there.
  destruct (negb there); [| apply keeps_ret].
  apply keeps_except_ClientError; [| intros; apply keeps_ret].
  apply keeps_bind; [by apply R_get |]. intros resp.
  destruct (status resp =? 200)%Z; [| apply keeps_ret].
  apply keeps_open_read_write.
Qed.

Lemma keeps_download_segments (base_url profile_dir : list N)
    (lines : list (list N)) :
  (forall line, G (base_url ++ [slash] ++ line)) ->
  keeps R id (download_segments E base_url profile_dir lines).
Proof.
  intros HG. induction lines as [|line rest IH]; cbn [download_segments].
  - apply keeps_ret.
  - apply keeps_bind; [| intros _; exact IH].
    destruct (_ || _); [| apply keeps_ret].
    destruct (startswith _ _); [apply keeps_ret |].
    by apply keeps_download_segment.
Qed.

Lemma keeps_cache_profile (profile : StreamProfile) :
  (forall u, url profile = Some u ->
             G u /\ forall line, G (base_url_of u ++ [slash] ++ line)) ->
  keeps R fill_world (cache_profile E profile).
Proof.
  intros HG. unfold cache_profile.
  destruct (url profile) as [[|c u] |]; [apply keeps_ret | | apply keeps_ret].
  destruct (HG _ eq_refl) as [Hu Hlines].
  apply keeps_except_ClientError; [| intros; apply keeps_ret].
  cbv zeta.
  apply keeps_bind; [apply keeps_in_world, R_makedirs |]. intros _.
  apply keeps_bind; [by apply keeps_in_world, R_get |]. intros resp.
  destruct (status resp =? 200)%Z; [| apply keeps_ret].
  apply keeps_bind; [apply keeps_of_result |]. intros content.
  intros s. unfold bind at 1, in_world at 1.
  pose proof (R_open (path_join (path_join LOCAL_CACHE_DIR (name profile))
                                index_m3u8) (fill_world s)) as Ho.
  destruct (open_w E _ (fill_world s)) as [w1 [e | f]] eqn:Hopen; [done |].
  unfold bind at 1, in_world at 1.
  pose proof (R_open_write _ (env_encode E (modified_content_of
                content (c :: u) (name profile))) _ _ _ Hopen) as Hw.
  cbn [fill_world] in *.
  destruct (write f _ w1) as [w2 [e | []]] eqn:Hwrite; [done |].
  cbn [fst] in Hw.
  match goal with |- R _ (fill_world (?m ?s').1) =>
    assert (keeps R fill_world m) as Hrest
  end.
  { apply keeps_bind; [by intros ? |]. intros _.
    by apply keeps_in_world, keeps_download_segments. }
  etrans; [exact Hw |]. apply (Hrest {| fill_world := w2 |}).
Qed.

Lemma keeps_fetch_and_cache_hls (CACHE_ENABLED : bool)
    (playback_urls : list StreamProfile) :
  (forall p u, p ∈ playback_urls -> url p = Some u ->
               G u /\ forall line, G (base_url_of u ++ [slash] ++ line)) ->
  keeps R id (fetch_and_cache_hls E CACHE_ENABLED playback_urls).
Proof.
  intros HG. unfold fetch_and_cache_hls.
  destruct (negb CACHE_ENABLED); [apply keeps_ret |].
  apply keeps_bind.
  { apply keeps_bind; [apply keeps_path_exists |]. intros there.
    destruct (negb there); [apply R_makedirs | apply keeps_ret]. }
  intros _ w.
  pose proof (keeps_for_each fill_world (cache_profile E) playback_urls) as H.
  specialize (H (fun p Hp => keeps_cache_profile p (fun u => HG p u Hp))
                {| fill_world := w; local_urls := ∅ |}).
  by destruct (for_each _ _ _) as [s [e | []]].
Qed.

End Keeps.

(** *** The GETs of a fill *)

Lemma gets_within_preorder (G : list N -> Prop) : PreOrder (gets_within G).
Proof.
  split.
  - intros w. exists []. by rewrite app_nil_r.
  - intros w1 w2 w3 (n1 & H1 & F1) (n2 & H2 & F2). exists (n1 ++ n2).
    rewrite H2, H1, <- app_assoc. split; [done | by apply Forall_app].
Qed.

Lemma gets_within_same (G : list N -> Prop) (w w' : World) :
  gets w' = gets w -> gets_within G w w'.
Proof. intros H. exists []. by rewrite app_nil_r. Qed.

Lemma makedirs_gets (E : Env) (p : list N) (w : World) :
  gets (makedirs E p w).1 = gets w.
Proof.
  destruct (makedirs E p w) as [w' r] eqn:H.
  by apply makedirs_extends in H as [_ ?].
Qed.

Lemma open_w_gets (E : Env) (p : list N) (w : World) :
  gets (open_w E p w).1 = gets w.
Proof.
  unfold open_w. destruct (resolve _ _ _); [| done].
  by destruct (node_at _ _) as [[| ] |].
Qed.

(** X4. Every GET of a fill goes to the playlist URL of one of the
    profiles, or to a URL below the base URL of one: whatever the lines
    of a playlist say, no other address is contacted. *)
Theorem fill_fetches_from_the_origin_only (E : Env) (CACHE_ENABLED : bool)
    (playback_urls : list StreamProfile) (w : World) :
  gets_within (origin_of playback_urls) w
              (fetch_and_cache_hls E CACHE_ENABLED playback_urls w).1.
Proof.
  apply (keeps_fetch_and_cache_hls E (gets_within (origin_of playback_urls))
           (gets_within_preorder _) (origin_of playback_urls)).
  - intros p s. apply gets_within_same, makedirs_gets.
  - intros u Hu s. exists [u]. split; [| by constructor].
    unfold session_get. cbn. by destruct (env_get E _ _).
  - intros p s. apply gets_within_same, open_w_gets.
  - intros p data s w1 f Ho. apply gets_within_same. cbn.
    pose proof (open_w_gets E p s) as H. by rewrite Ho in H.
  - intros p u Hp Hu. split.
    + exists p, u. by eauto.
    + intros line. exists p, u. split_and!; [done .. |]. right.
      rewrite (app_assoc _ [slash]). by apply prefix_app_r.
Qed.

(** *** The entries of the file system *)

Lemma same_kind_refl (nd : node) : same_kind nd nd.
Proof. by destruct nd. Qed.

Lemma same_kind_trans (a b c : node) :
  same_kind a b -> same_kind b c -> same_kind a c.
Proof. destruct a, b, c; cbn; intros; try done; congruence. Qed.

Lemma world_keeps_preorder : PreOrder world_keeps.
Proof.
  split.
  - intros w. split; [| done]. intros q nd H. exists nd.
    split; [done | apply same_kind_refl].
  - intros w1 w2 w3 [K1 P1] [K2 P2]. split; [| by etrans].
    intros q nd H. destruct (K1 _ _ H) as (nd1 & H1 & S1).
    destruct (K2 _ _ H1) as (nd2 & H2 & S2). exists nd2.
    split; [done | by eapply same_kind_trans].
Qed.

Lemma fs_keeps_subseteq (fs fs' : gmap (list (list N)) node) :
  fs ⊆ fs' -> fs_keeps fs fs'.
Proof.
  intros Hs q nd H. exists nd. split; [| apply same_kind_refl].
  by eapply lookup_weaken.
Qed.

Lemma fs_keeps_insert (fs : gmap (list (list N)) node) (q : list (list N))
    (nd : node) :
  (forall old, fs !! q = Some old -> same_kind old nd) ->
  fs_keeps fs (<[q := nd]> fs).
Proof.
  intros Hq x old Hx. destruct (decide (x = q)) as [-> | Hne].
  - exists nd. rewrite lookup_insert_eq. by eauto.
  - exists old. rewrite lookup_insert_ne by done.
    split; [done | apply same_kind_refl].
Qed.

Lemma node_at_Some_lookup (fs : gmap (list (list N)) node)
    (q : list (list N)) (r : bool) (d : list N) :
  node_at fs q = Some (File r d) -> fs !! q = Some (File r d).
Proof. by destruct q. Qed.

Lemma open_w_returns (E : Env) (p : list N) (w w1 : World)
    (f : list (list N)) :
  open_w E p w = (w1, inr f) ->
  resolve (fs w) (env_cwd E) p = Some f
  /\ gets w1 = gets w
  /\ ((node_at (fs w) f = None /\ fs w1 = <[f := File true []]> (fs w))
      \/ exists r d, fs w !! f = Some (File r d)
                     /\ fs w1 = <[f := File r []]> (fs w)).
Proof.
  unfold open_w. destruct (resolve _ _ _) as [q |]; [| done].
  destruct (node_at (fs w) q) as [[r d | r] |] eqn:Hq; [| done |].
  - intros [= <- <-]. split_and!; [done .. |]. right. exists r, d.
    split; [by apply node_at_Some_lookup | done].
  - intros [= <- <-]. split_and!; [done .. |]. by left.
Qed.

Lemma open_w_raises_same (E : Env) (p : list N) (w w' : World) (e : exn) :
  open_w E p w = (w', inl e) -> w' = w.
Proof.
  unfold open_w. destruct (resolve _ _ _) as [q |]; [| by intros [= <- _]].
  destruct (node_at _ _) as [[| ] |]; try done. by intros [= <- _].
Qed.

Lemma world_keeps_makedirs (E : Env) (p : list N) :
  keeps world_keeps id (makedirs E p).
Proof.
  intros s. destruct (makedirs E p s) as [w' r] eqn:H.
  apply makedirs_extends in H as [Hs Hg]. split.
  - by apply fs_keeps_subseteq.
  - cbn. by rewrite Hg.
Qed.

Lemma world_keeps_get (E : Env) (u : list N) :
  keeps world_keeps id (session_get E u).
Proof.
  intros s. split.
  - unfold session_get. cbn. destruct (env_get E _ _); cbn;
      by apply fs_keeps_subseteq.
  - unfold session_get. cbn. destruct (env_get E _ _); cbn;
      by apply prefix_app_r.
Qed.

Lemma world_keeps_open (E : Env) (p : list N) :
  keeps world_keeps id (open_w E p).
Proof.
  intros s. destruct (open_w E p s) as [w1 [e | f]] eqn:Ho.
  - apply open_w_raises_same in Ho as ->. apply world_keeps_preorder.
  - apply open_w_returns in Ho as (_ & Hg & [[Hn Hfs] | (r & d & Hf & Hfs)]).
    + split; cbn; [| by rewrite Hg]. rewrite Hfs.
      apply fs_keeps_subseteq, insert_subseteq. by apply node_at_None.
    + split; cbn; [| by rewrite Hg]. rewrite Hfs.
      apply fs_keeps_insert. by intros old [= <-]%(eq_trans (eq_sym Hf)).
Qed.

Lemma world_keeps_open_write (E : Env) (p data : list N) (w w1 : World)
    (f : list (list N)) :
  open_w E p w = (w1, inr f) -> world_keeps w (write f data w1).1.
Proof.
  intros Ho.
  apply open_w_returns in Ho as (_ & Hg & [[Hn Hfs] | (r & d & Hf & Hfs)]).
  - split; [| by rewrite <- Hg]. cbn. rewrite Hfs, lookup_insert_eq.
    rewrite insert_insert_eq.
    apply fs_keeps_subseteq, insert_subseteq. by apply node_at_None.
  - split; [| by rewrite <- Hg]. cbn. rewrite Hfs, lookup_insert_eq.
    rewrite insert_insert_eq.
    apply fs_keeps_insert. by intros old [= <-]%(eq_trans (eq_sym Hf)).
Qed.

Lemma cache_profile_world_keeps (E : Env) (profile : StreamProfile) :
  keeps world_keeps fill_world (cache_profile E profile).
Proof.
  apply (keeps_cache_profile E world_keeps world_keeps_preorder
           (fun _ => True)).
  - apply world_keeps_makedirs.
  - intros u _. apply world_keeps_get.
  - apply world_keeps_open.
  - apply world_keeps_open_write.
  - done.
Qed.

(** X2. A fill deletes nothing and turns no file into a directory nor a
    directory into a file: every entry of the file system is there
    afterwards, with its kind and permission, and the GETs issued before
    the fill are the first of those issued after it. *)
Theorem fill_keeps_every_entry (E : Env) (CACHE_ENABLED : bool)
    (playback_urls : list StreamProfile) (w : World) :
  world_keeps w (fetch_and_cache_hls E CACHE_ENABLED playback_urls w).1.
Proof.
  apply (keeps_fetch_and_cache_hls E world_keeps world_keeps_preorder
           (fun _ => True)).
  - apply world_keeps_makedirs.
  - intros u _. apply world_keeps_get.
  - apply world_keeps_open.
  - apply world_keeps_open_write.
  - done.
Qed.

Lemma download_segments_extends (E : Env) (base_url profile_dir : list N)
    (lines : list (list N)) (w : World) :
  fs w ⊆ fs (download_segments E base_url profile_dir lines w).1.
Proof.
  revert w. induction lines as [|line rest IH]; intros w; [done |].
  cbn [download_segments]. unfold bind.
  match goal with |- context [(if ?c then ?a else ?b) w] =>
    assert (fs w ⊆ fs ((if c then a else b) w).1) as H1;
    [| destruct ((if c then a else b) w) as [w1 [e | []]]; [done |]]
  end.
  - destruct (_ || _); [| done]. destruct (startswith _ _); [done |].
    destruct (download_segment E _ _ w) as [w1 r] eqn:H.
    by apply download_segment_extends in H as [? _].
  - etrans; [exact H1 | apply IH].
Qed.

(** X1. The loop over the lines of a playlist only adds entries: an
    entry that exists when the loop starts, a cached segment or any other
    file a line may lead to, is there unchanged when it ends or raises. *)
Theorem segments_never_overwrite (E : Env) (base_url profile_dir : list N)
    (lines : list (list N)) (w : World) :
  fs w ⊆ fs (download_segments E base_url profile_dir lines w).1.
Proof. apply download_segments_extends. Qed.

(** *** Well-formedness *)

Lemma is_dir_insert (fs : gmap (list (list N)) node) (q x : list (list N))
    (nd : node) :
  is_dir fs q = false -> is_dir fs x = true ->
  is_dir (<[q := nd]> fs) x = true.
Proof.
  intros Hq Hx. destruct (decide (x = q)) as [-> | Hne]; [congruence |].
  unfold is_dir in *. destruct x as [|c x]; [done |]. cbn [node_at] in *.
  by rewrite lookup_insert_ne.
Qed.

Lemma entry_ok_mono (fs fs' : gmap (list (list N)) node)
    (p : list (list N)) :
  (forall x, is_dir fs x = true -> is_dir fs' x = true) ->
  entry_ok fs p = true -> entry_ok fs' p = true.
Proof.
  intros H. unfold entry_ok. destruct (reverse p) as [|c rq]; [done |].
  rewrite !andb_true_iff. intros [? ?]. by eauto.
Qed.

Lemma fs_wf_insert (fs : gmap (list (list N)) node) (q : list (list N))
    (nd : node) :
  fs_wf fs -> is_dir fs q = false -> entry_ok fs q = true ->
  fs_wf (<[q := nd]> fs).
Proof.
  intros Hwf Hq Hok. unfold fs_wf. apply map_Forall_insert_2.
  - eapply entry_ok_mono; [| exact Hok]. intros x. by apply is_dir_insert.
  - intros p x Hp. eapply entry_ok_mono; [| by apply (Hwf p x)].
    intros y. by apply is_dir_insert.
Qed.

Lemma is_dir_removelast (fs : gmap (list (list N)) node)
    (cur : list (list N)) :
  fs_wf fs -> is_dir fs cur = true -> is_dir fs (removelast cur) = true.
Proof.
  intros Hwf Hd. destruct cur as [|c cur' _] using rev_ind; [done |].
  rewrite removelast_last. by apply (is_dir_ancestor fs cur' [c]).
Qed.

(** A component that leads from a directory to nothing names a new
    entry of that directory. *)
Lemma step_absent (fs : gmap (list (list N)) node) (cur : list (list N))
    (c : list N) :
  fs_wf fs -> is_dir fs cur = true -> slash ∉ c ->
  node_at fs (step cur c) = None ->
  step cur c = cur ++ [c] /\ entry_ok fs (cur ++ [c]) = true.
Proof.
  intros Hwf Hd Hs. unfold step.
  destruct (bool_decide (c = []) || bool_decide (c = dot)) eqn:H1.
  { intros Hn. unfold is_dir in Hd. by rewrite Hn in Hd. }
  destruct (bool_decide (c = dotdot)) eqn:H2.
  { intros Hn. apply is_dir_removelast in Hd; [| done].
    unfold is_dir in Hd. by rewrite Hn in Hd. }
  intros _. split; [done |]. unfold entry_ok.
  rewrite reverse_snoc, reverse_involutive, Hd, andb_true_r.
  apply orb_false_iff in H1 as [H0 H1]. unfold good_name.
  rewrite H0, H1, H2. cbn [negb andb]. apply forallb_forall.
  intros x Hx. apply negb_true_iff, N.eqb_neq. intros ->.
  by apply Hs, list_elem_of_In.
Qed.

Lemma split_no_slash (s : list N) : Forall (fun c => slash ∉ c) (split slash s).
Proof.
  induction s as [|c s IH]; cbn [split].
  - constructor; [| done]. by apply not_elem_of_nil.
  - destruct (N.eqb_spec c slash) as [-> | Hne].
    + constructor; [| done]. by apply not_elem_of_nil.
    + destruct (split slash s) as [|p ps].
      * constructor; [| done]. apply not_elem_of_cons. split; [done |].
        by apply not_elem_of_nil.
      * apply Forall_cons in IH as [Hp Hps].
        constructor; [| done]. by apply not_elem_of_cons.
Qed.

Lemma makedirs_from_wf (fs fs' : gmap (list (list N)) node)
    (comps cur : list (list N)) (name : list N) :
  fs_wf fs -> Forall (fun c => slash ∉ c) comps ->
  makedirs_from fs cur comps name = inr fs' -> fs_wf fs'.
Proof.
  revert fs cur. induction comps as [|c cs IH]; intros fs cur Hwf Hs.
  - by intros [= <-].
  - apply Forall_cons in Hs as [Hc Hs]. cbn [makedirs_from].
    destruct (is_dir fs cur) eqn:Hd; [| done].
    destruct (node_at fs (step cur c)) as [[| ] |] eqn:Hn;
      [done | by apply IH |].
    destruct (step_absent _ _ _ Hwf Hd Hc Hn) as [Hst Hok].
    apply IH; [| done]. rewrite Hst in *. apply fs_wf_insert; [done | | done].
    unfold is_dir. by rewrite Hn.
Qed.

Lemma walk_absent (fs : gmap (list (list N)) node)
    (comps cur q : list (list N)) :
  fs_wf fs -> Forall (fun c => slash ∉ c) comps -> comps <> [] ->
  walk fs cur comps = Some q -> node_at fs q = None ->
  entry_ok fs q = true.
Proof.
  intros Hwf. revert cur. induction comps as [|c cs IH]; intros cur Hs Hne;
    [done |].
  apply Forall_cons in Hs as [Hc Hs]. cbn [walk].
  destruct (is_dir fs cur) eqn:Hd; [| done]. destruct cs as [|c' cs'].
  - cbn [walk]. intros [= <-] Hn.
    by destruct (step_absent _ _ _ Hwf Hd Hc Hn) as [-> ?].
  - by apply IH.
Qed.

Lemma resolve_absent (fs : gmap (list (list N)) node) (cwd : list (list N))
    (p : list N) (q : list (list N)) :
  fs_wf fs -> resolve fs cwd p = Some q -> node_at fs q = None ->
  entry_ok fs q = true.
Proof.
  intros Hwf. unfold resolve. destruct p as [|c p]; [done |].
  apply walk_absent; [done | apply split_no_slash | apply split_nonempty].
Qed.

Lemma is_dir_keeps (fs fs' : gmap (list (list N)) node)
    (x : list (list N)) :
  fs_keeps fs fs' -> is_dir fs x = true -> is_dir fs' x = true.
Proof.
  intros Hk. unfold is_dir. destruct x as [|c x]; [done |]. cbn [node_at].
  destruct (fs !! (c :: x)) as [[| r] |] eqn:Hx; try done.
  destruct (Hk _ _ Hx) as ([| r'] & -> & Hs); done.
Qed.

Lemma wf_kept_preorder (E : Env) : PreOrder (wf_kept E).
Proof.
  split.
  - intros w H. exact H.
  - intros w1 w2 w3 H1 H2 H. apply H2, H1, H.
Qed.

Lemma fs_wf_put_file (fs : gmap (list (list N)) node) (cwd : list (list N))
    (p : list N) (f : list (list N)) (r : bool) (data : list N) :
  fs_wf fs -> is_dir fs cwd = true -> resolve fs cwd p = Some f ->
  node_at fs f = None \/ (exists r' d, fs !! f = Some (File r' d)) ->
  fs_wf (<[f := File r data]> fs)
  /\ is_dir (<[f := File r data]> fs) cwd = true.
Proof.
  intros Hwf Hcwd Hr Hf.
  assert (is_dir fs f = false /\ entry_ok fs f = true) as [Hd Hok].
  { destruct Hf as [Hn | (r' & d & Hf)].
    - split; [unfold is_dir; by rewrite Hn |]. by eapply resolve_absent.
    - pose proof (Hwf f _ Hf) as Hok. split; [| done].
      unfold is_dir. destruct f as [|c f]; [done |]. cbn [node_at].
      by rewrite Hf. }
  split; [by apply fs_wf_insert | by apply is_dir_insert].
Qed.

(** X3. A fill keeps the file system well-formed: every entry it makes
    has a proper name and lies in a directory, and the working directory
    is still a directory afterwards. *)
Theorem fill_keeps_the_file_system_well_formed (E : Env)
    (CACHE_ENABLED : bool) (playback_urls : list StreamProfile) (w : World) :
  world_wf E w ->
  world_wf E (fetch_and_cache_hls E CACHE_ENABLED playback_urls w).1.
Proof.
  apply (keeps_fetch_and_cache_hls E (wf_kept E) (wf_kept_preorder E)
           (fun _ => True)).
  - intros p s [Hwf Hcwd]. unfold makedirs. destruct p as [|c p]; [done |].
    destruct (makedirs_from _ _ _ _) as [e | fs'] eqn:Hm; [done |].
    split; cbn.
    + eapply makedirs_from_wf; [exact Hwf | apply split_no_slash | exact Hm].
    + eapply is_dir_keeps; [| exact Hcwd].
      by eapply fs_keeps_subseteq, makedirs_from_extends.
  - intros u _ s Hwf. unfold session_get. cbn. by destruct (env_get E _ _).
  - intros p s [Hwf Hcwd]. destruct (open_w E p s) as [w1 [e | f]] eqn:Ho.
    + by apply open_w_raises_same in Ho as ->.
    + apply open_w_returns in Ho as (Hr & _ & [[Hn Hfs] | (r & d & Hf & Hfs)]);
        unfold world_wf; cbn; rewrite Hfs;
        eapply fs_wf_put_file; by eauto.
  - intros p data s w1 f Ho [Hwf Hcwd].
    apply open_w_returns in Ho as (Hr & _ & [[Hn Hfs] | (r & d & Hf & Hfs)]);
      unfold world_wf; cbn; rewrite Hfs, lookup_insert_eq, insert_insert_eq;
      eapply fs_wf_put_file; by eauto.
  - done.
Qed.

Lemma fill_keeps_the_file_system_well_formed_witness :
  world_wf demo_env empty_world
  /\ world_wf demo_env
       (fetch_and_cache_hls demo_env true [profile_480p; profile_720p]
                            empty_world).1.
Proof.
  assert (world_wf demo_env empty_world) as H by by_computation.
  split; [exact H |].
  exact (fill_keeps_the_file_system_well_formed demo_env true
           [profile_480p; profile_720p] empty_world H).
Defined.

(** ** The local content server and absolute names *)

Lemma walk_app (fs : gmap (list (list N)) node) (a b cur : list (list N)) :
  walk fs cur (a ++ b)
  = match walk fs cur a with Some m => walk fs m b | None => None end.
Proof.
  revert cur. induction a as [|c a IH]; intros cur; [done |].
  cbn [app walk]. by destruct (is_dir fs cur).
Qed.

(** The absolute path spelt from the names of an entry leads to it. *)
Lemma resolve_absolute (fs : gmap (list (list N)) node)
    (cwd q : list (list N)) (nd : node) :
  fs_wf fs -> fs !! q = Some nd ->
  resolve fs cwd ([slash] ++ join [slash] q) = Some q
  /\ node_at fs q = Some nd.
Proof.
  intros Hwf Hq.
  destruct (fs_wf_entry _ _ _ Hwf Hq) as (parent & c & -> & Hc & Hd).
  destruct (is_dir_ancestor fs [] parent Hwf Hd) as [_ Hg].
  split; [| by rewrite node_at_snoc].
  unfold resolve, isabs. cbn [app startswith]. rewrite N.eqb_refl.
  cbn [andb split]. rewrite N.eqb_refl. cbn [walk].
  change (is_dir fs []) with true. cbv iota. rewrite step_empty.
  rewrite split_join.
  - rewrite walk_app, (walk_good fs [] parent Hwf Hd). cbn [app walk].
    by rewrite Hd, step_good.
  - by destruct parent.
  - apply good_names_no_slash, Forall_app. split; [done | by constructor].
Qed.

(** X5. The handler confines nothing to the cache: for a file name that
    begins with a slash the joined path is the file name itself, so every
    readable file of the machine is served under its absolute name. *)
Theorem handle_serves_any_file_by_its_absolute_name (E : Env) (w : World)
    (q : list (list N)) (data : list N) :
  fs_wf (fs w) -> fs w !! q = Some (File true data) ->
  path_join LOCAL_CACHE_DIR ([slash] ++ join [slash] q)
  = [slash] ++ join [slash] q
  /\ handle E ([slash] ++ join [slash] q) w
     = (w, inr (HttpResponse 200
                  (if endswith ([slash] ++ join [slash] q) dot_m3u8
                   then mpegurl else mp2t)
                  (BodyBytes data))).
Proof.
  intros Hwf Hq. split; [done |].
  destruct (resolve_absolute (fs w) (env_cwd E) q _ Hwf Hq) as [Hr Hn].
  by rewrite (handle_serves_what_the_path_names E w _ q data).
Qed.

Lemma handle_serves_any_file_by_its_absolute_name_witness :
  fs_wf (fs traversal_world)
  /\ fs traversal_world !! [lit "etc"; lit "passwd"]
     = Some (File true (lit "root:x:0:0"))
  /\ handle demo_env (lit "/etc/passwd") traversal_world
     = (traversal_world,
        inr (HttpResponse 200 mp2t (BodyBytes (lit "root:x:0:0")))).
Proof.
  assert (fs_wf (fs traversal_world)) as H1 by by_computation.
  assert (fs traversal_world !! [lit "etc"; lit "passwd"]
          = Some (File true (lit "root:x:0:0"))) as H2 by by_computation.
  split_and!; [exact H1 | exact H2 |].
  exact (proj2 (handle_serves_any_file_by_its_absolute_name
                  demo_env traversal_world _ _ H1 H2)).
Defined.

(** ** From the filler to the server *)

Lemma walk_keeps (fs fs' : gmap (list (list N)) node)
    (comps cur q : list (list N)) :
  (forall x, is_dir fs x = true -> is_dir fs' x = true) ->
  walk fs cur comps = Some q -> walk fs' cur comps = Some q.
Proof.
  intros H. revert cur. induction comps as [|c cs IH]; intros cur; [done |].
  cbn [walk]. destruct (is_dir fs cur) eqn:Hd; [| done].
  rewrite (H _ Hd). apply IH.
Qed.

Lemma resolve_keeps (fs fs' : gmap (list (list N)) node)
    (cwd : list (list N)) (p : list N) (q : list (list N)) :
  (forall x, is_dir fs x = true -> is_dir fs' x = true) ->
  resolve fs cwd p = Some q -> resolve fs' cwd p = Some q.
Proof.
  intros H. unfold resolve. destruct p; [done |]. by apply walk_keeps.
Qed.

Lemma startswith_cons_app (c : N) (b t : list N) :
  startswith ((c :: b) ++ t) [slash] = startswith (c :: b) [slash].
Proof. done. Qed.

Lemma endswith_app_nonempty (a : list N) (c : N) (b : list N) :
  endswith (a ++ c :: b) [slash] = endswith (c :: b) [slash].
Proof.
  unfold endswith. rewrite reverse_app.
  destruct (reverse (c :: b)) as [|d rb] eqn:Hr; [| done].
  apply (f_equal reverse) in Hr. by rewrite reverse_involutive in Hr.
Qed.

Lemma path_join_absolute (a b : list N) :
  startswith b [slash] = true -> path_join a b = b.
Proof. unfold path_join. by intros ->. Qed.

Lemma path_join_nil (b : list N) : path_join [] b = b.
Proof. unfold path_join. by destruct (startswith b [slash]). Qed.

Lemma path_join_relative (a0 : N) (a b : list N) :
  startswith b [slash] = false ->
  path_join (a0 :: a) b
  = (a0 :: a) ++ (if endswith (a0 :: a) [slash] then [] else [slash]) ++ b.
Proof.
  unfold path_join. intros ->. by destruct (endswith (a0 :: a) [slash]).
Qed.

(** [os.path.join(os.path.join(a, b), c)] is [os.path.join(a,
    os.path.join(b, c))]. *)
Lemma path_join_assoc (a b c : list N) :
  path_join (path_join a b) c = path_join a (path_join b c).
Proof.
  destruct (startswith c [slash]) eqn:Hc.
  { by rewrite !(path_join_absolute _ c). }
  destruct (startswith b [slash]) eqn:Hb.
  { rewrite (path_join_absolute a b) by done.
    rewrite (path_join_absolute a); [done |].
    destruct b as [|b0 b]; [done |]. rewrite path_join_relative by done.
    by rewrite startswith_cons_app. }
  destruct a as [|a0 a]; [by rewrite !path_join_nil |].
  rewrite (path_join_relative a0 a b) by done.
  destruct b as [|b0 b].
  - rewrite path_join_nil, app_nil_r.
    rewrite (path_join_relative a0 a c) by done.
    destruct (endswith (a0 :: a) [slash]) eqn:Ha.
    + rewrite app_nil_r. by rewrite path_join_relative, Ha.
    + cbn [app]. rewrite path_join_relative by done.
      assert (endswith (a0 :: a ++ [slash]) [slash] = true) as ->.
      { apply endswith_suffix. by exists (a0 :: a). }
      cbn [app]. by rewrite <- app_assoc.
  - rewrite (path_join_relative b0 b c) by done.
    rewrite (path_join_relative a0 a).
    2:{ by rewrite startswith_cons_app. }
    set (sa := if endswith (a0 :: a) [slash] then [] else [slash]).
    set (sb := if endswith (b0 :: b) [slash] then [] else [slash]).
    assert (path_join ((a0 :: a) ++ sa ++ b0 :: b) c
            = ((a0 :: a) ++ sa ++ b0 :: b) ++ sb ++ c) as ->.
    { cbn [app]. rewrite path_join_relative by done.
      change (a0 :: a ++ sa ++ b0 :: b) with ((a0 :: a) ++ sa ++ b0 :: b).
      rewrite (app_assoc (a0 :: a) sa), endswith_app_nonempty.
      fold sb. by rewrite <- !app_assoc. }
    by rewrite <- !app_assoc.
Qed.

Lemma handle_after_write (E : Env) (fs0 : gmap (list (list N)) node)
    (w' : World) (filename p : list N) (f : list (list N)) (data : list N) :
  path_join LOCAL_CACHE_DIR filename = p ->
  resolve fs0 (env_cwd E) p = Some f ->
  (forall x, is_dir fs0 x = true -> is_dir (fs w') x = true) ->
  fs w' !! f = Some (File true data) -> f <> [] ->
  handle E filename w'
  = (w', inr (HttpResponse 200
                (if endswith p dot_m3u8 then mpegurl else mp2t)
                (BodyBytes data))).
Proof.
  intros <- Hr Hk Hf Hne.
  apply (handle_serves_what_the_path_names E w' filename f data).
  - by eapply resolve_keeps.
  - by destruct f.
Qed.

(** X6. A segment the filler has fetched is served: when
    [download_segment] returns having issued its GET, and the origin
    answered 200 with a body that arrived, the handler answers the name
    of the segment under its profile with 200 and that body. *)
Theorem downloaded_segment_is_served (E : Env) (w w' : World)
    (base_url profile_name line data : list N) (resp : response) :
  let segment_url := base_url ++ [slash] ++ line in
  let local_segment_path :=
    path_join (path_join LOCAL_CACHE_DIR profile_name) line in
  download_segment E segment_url local_segment_path w = (w', inr tt) ->
  gets w' = gets w ++ [segment_url] ->
  env_get E (gets w) segment_url = GetResponse resp ->
  status resp = 200%Z -> read resp = inr data ->
  handle E (path_join profile_name line) w'
  = (w', inr (HttpResponse 200
                (if endswith local_segment_path dot_m3u8
                 then mpegurl else mp2t)
                (BodyBytes data))).
Proof.
  intros segment_url local_segment_path Hrun Hgets Hget Hst Hrd.
  revert Hrun. unfold download_segment, bind at 1.
  destruct (makedirs E _ w) as [w1 [e1 | []]] eqn:Hm; [done |].
  apply makedirs_extends in Hm as [_ Hg1]. unfold bind at 1.
  unfold path_exists at 1, exists_in.
  destruct (resolve (fs w1) (env_cwd E) local_segment_path) as [f |] eqn:Hr.
  2:{ cbn [negb]. unfold except_ClientError, bind at 1, session_get.
      rewrite Hg1, Hget, Hst. cbn. unfold bind, open_w. cbn [fs].
      by rewrite Hr. }
  destruct (node_at (fs w1) f) as [nd |] eqn:Hn; cbn [negb].
  { intros [= <-]. rewrite Hg1 in Hgets.
    apply (f_equal length) in Hgets. rewrite length_app in Hgets.
    cbn in Hgets. lia. }
  unfold except_ClientError, bind at 1, session_get.
  rewrite Hg1, Hget, Hst. cbn [Z.eqb Pos.eqb]. unfold bind at 1, open_w.
  cbn [fs gets]. rewrite Hr, Hn, Hrd. unfold bind, of_result, ret, write.
  cbn [fs gets]. rewrite lookup_insert_eq, insert_insert_eq.
  intros [= <-].
  apply (handle_after_write E (fs w1) _ _ local_segment_path f).
  - symmetry. apply path_join_assoc.
  - exact Hr.
  - cbn [fs]. intros x. apply is_dir_insert. unfold is_dir. by rewrite Hn.
  - cbn [fs]. by rewrite lookup_insert_eq.
  - by intros ->.
Qed.

Lemma downloaded_segment_is_served_witness :
  handle demo_env (lit "480p/seg0.ts") seg0_fetched
  = (seg0_fetched,
     inr (HttpResponse 200 mp2t (BodyBytes (lit "SEGMENT0")))).
Proof.
  apply (downloaded_segment_is_served demo_env empty_world seg0_fetched
           base_480p (lit "480p") (lit "seg0.ts") (lit "SEGMENT0")
           {| status := 200; text := inr (lit "SEGMENT0");
              read := inr (lit "SEGMENT0") |});
    by_computation.
Defined.

Lemma open_w_handle (E : Env) (p : list N) (w w1 : World)
    (f : list (list N)) :
  open_w E p w = (w1, inr f) -> f <> [] /\ is_dir (fs w) f = false.
Proof.
  unfold open_w, is_dir. destruct (resolve _ _ _) as [q |]; [| done].
  destruct (node_at (fs w) q) as [[r d | r] |] eqn:Hq; [| done |];
    intros [= <- <-]; rewrite Hq; split; try done; by intros ->.
Qed.

Lemma all_readable_insert (fs : gmap (list (list N)) node)
    (q : list (list N)) (nd : node) :
  all_readable fs ->
  match nd with File false _ => false | _ => true end = true ->
  all_readable (<[q := nd]> fs).
Proof. intros H Hn. by apply map_Forall_insert_2. Qed.

Lemma makedirs_from_all_readable (fs fs' : gmap (list (list N)) node)
    (comps cur : list (list N)) (name : list N) :
  all_readable fs -> makedirs_from fs cur comps name = inr fs' ->
  all_readable fs'.
Proof.
  revert fs cur. induction comps as [|c cs IH]; intros fs cur Hr.
  - by intros [= <-].
  - cbn [makedirs_from]. destruct (is_dir fs cur); [| done].
    destruct (node_at fs (step cur c)) as [[| ] |]; [done | by apply IH |].
    apply IH. by apply all_readable_insert.
Qed.

Lemma makedirs_all_readable (E : Env) (p : list N) (w w' : World)
    (r : exn + unit) :
  all_readable (fs w) -> makedirs E p w = (w', r) -> all_readable (fs w').
Proof.
  intros Hall. unfold makedirs. destruct p as [|c p]; [by intros [= <- _] |].
  destruct (makedirs_from _ _ _ _) as [e | fs'] eqn:Hmf.
  - by intros [= <- _].
  - intros [= <- _]. by apply (makedirs_from_all_readable _ _ _ _ _ Hall Hmf).
Qed.

Lemma path_join_suffix (a b : list N) : b `suffix_of` path_join a b.
Proof.
  unfold path_join. destruct (startswith b [slash]); [done |].
  destruct (match a with [] => true | _ :: _ => endswith a [slash] end).
  - by exists a.
  - exists (a ++ [slash]). by rewrite <- app_assoc.
Qed.

(** X7. A playlist the filler has cached is served: when the origin
    answers the GET of the playlist with 200 and its text, and the body
    of the loop returns, the handler answers [index.m3u8] under the name
    of the profile with 200, the type of a playlist and the rewritten
    text, and the name of the profile is in the dict of local URLs. *)
Theorem cached_playlist_is_served (E : Env) (profile : StreamProfile)
    (s s' : FillState) (u content : list N) (resp : response) :
  all_readable (fs (fill_world s)) ->
  url profile = Some u -> u <> [] ->
  env_get E (gets (fill_world s)) u = GetResponse resp ->
  status resp = 200%Z -> text resp = inr content ->
  cache_profile E profile s = (s', inr tt) ->
  local_urls s' !! name profile = Some (local_playlist_url (name profile))
  /\ handle E (path_join (name profile) index_m3u8) (fill_world s')
     = (fill_world s',
        inr (HttpResponse 200 mpegurl
               (BodyBytes (env_encode E
                             (modified_content_of content u
                                                  (name profile)))))).
Proof.
  intros Hall Hu Hne Hget Hst Htx. unfold cache_profile. rewrite Hu.
  destruct u as [|c u]; [done |]. clear Hne.
  set (p := path_join (path_join LOCAL_CACHE_DIR (name profile)) index_m3u8).
  set (enc := env_encode E (modified_content_of content (c :: u)
                                                (name profile))).
  unfold except_ClientError, bind at 1, in_world at 1.
  destruct (makedirs E _ (fill_world s)) as [w1 [e1 | []]] eqn:Hm.
  { apply makedirs_raises in Hm. by rewrite Hm. }
  assert (all_readable (fs w1) /\ gets w1 = gets (fill_world s))
    as [Hall1 Hg1].
  { split; [by eapply makedirs_all_readable |].
    by apply makedirs_extends in Hm as [_ ?]. }
  unfold bind at 1, in_world at 1, session_get. cbn [fill_world local_urls].
  rewrite Hg1, Hget, Hst. cbn [Z.eqb Pos.eqb]. rewrite Htx.
  unfold bind at 1, of_result, ret. unfold bind at 1, in_world at 1.
  cbn [fill_world local_urls]. fold p.
  destruct (open_w E p _) as [w3 [e3 | f]] eqn:Ho.
  { apply open_w_raises in Ho. by rewrite Ho. }
  destruct (open_w_handle _ _ _ _ _ Ho) as [Hf0 Hfd].
  apply open_w_returns in Ho as (Hr & Hg3 & Hfs). cbn [fs gets] in *.
  assert (exists old, fs w3 = <[f := File true old]> (fs w1))
    as [old Hfs3].
  { destruct Hfs as [[_ ->] | (r & d & Hf & ->)]; [by eexists |].
    pose proof (Hall1 _ _ Hf) as Hrd. destruct r; [by eexists | done]. }
  unfold bind at 1, in_world at 1, write. cbn [fill_world local_urls].
  rewrite Hfs3, lookup_insert_eq, insert_insert_eq. fold enc.
  unfold bind at 1, set_local_url. cbn [fill_world local_urls].
  unfold in_world. cbn [fill_world local_urls].
  match goal with |- context [download_segments E ?b ?d ?l ?w] =>
    pose proof (download_segments_extends E b d l w) as Hext;
    destruct (download_segments E b d l w) as [w5 [e5 | []]] eqn:Hd
  end.
  { apply download_segments_raises in Hd. by rewrite Hd. }
  cbn [fst fs] in Hext. intros [= <-]. cbn [fill_world local_urls]. split.
  { by rewrite lookup_insert_eq. }
  assert (endswith p dot_m3u8 = true) as Hend.
  { apply endswith_suffix. trans index_m3u8; [by exists (lit "index") |].
    apply path_join_suffix. }
  rewrite (handle_after_write E (fs w1) _ _ p f enc); [by rewrite Hend | ..].
  - symmetry. apply path_join_assoc.
  - exact Hr.
  - intros x Hx. eapply is_dir_keeps; [by apply fs_keeps_subseteq |].
    by apply is_dir_insert.
  - eapply lookup_weaken; [| exact Hext]. by rewrite lookup_insert_eq.
  - exact Hf0.
Qed.

Lemma cached_playlist_is_served_witness :
  local_urls playlist_cached !! lit "480p"
  = Some (lit "http://localhost:8080/cache/480p/index.m3u8")
  /\ handle demo_env (lit "480p/index.m3u8") (fill_world playlist_cached)
     = (fill_world playlist_cached,
        inr (HttpResponse 200 mpegurl (BodyBytes demo_playlist))).
Proof.
  apply (cached_playlist_is_served demo_env profile_480p fill_start
           playlist_cached url_480p demo_playlist
           {| status := 200; text := inr demo_playlist;
              read := inr demo_playlist |});
    by_computation.
Defined.

(** ** The session, stage by stage *)

(** X12. Once the stream is allocated and the local server has started,
    the session ends in the world the fill leaves and reports what the
    fill returns: its map under [local_playback_urls] when it returns,
    its message under [error] when it raises; [success] stays [True]
    either way. *)
Theorem session_reports_the_fill (E : Env) (S : Session)
    (video_path : list N) (w : World) (stream : StreamInfo) :
  create_stream S STREAM_NAME session_profiles = inr stream ->
  server_start S = None -> server_cleanup S = None ->
  stream_video_to_livepeer E S true video_path w
  = match fetch_and_cache_hls E true (playback stream) w with
    | (w', inl e) =>
        (w', inr (<[k_error := VStr (exn_msg e)]> (allocated_result stream)))
    | (w', inr local_urls) =>
        (w', inr (<[k_local_playback_urls := VDict (Some <$> local_urls)]>
                    (allocated_result stream)))
    end.
Proof.
  intros Hc Hs Hcl.
  rewrite (session_after_allocation E S true video_path w stream Hc).
  by rewrite Hs, Hcl.
Qed.

(** X13. When the local server cannot be started, the fill is never run:
    the session issues no GET and writes nothing, and returns the
    allocated result with the message of the failure under [error]. *)
Theorem failed_server_start_skips_the_fill (E : Env) (S : Session)
    (video_path : list N) (w : World) (stream : StreamInfo) (e : exn) :
  create_stream S STREAM_NAME session_profiles = inr stream ->
  server_start S = Some e ->
  stream_video_to_livepeer E S true video_path w
  = (w, inr (<[k_error := VStr (exn_msg e)]> (allocated_result stream))).
Proof.
  intros Hc Hs.
  rewrite (session_after_allocation E S true video_path w stream Hc).
  by rewrite Hs.
Qed.

(** X14. With caching disabled a session touches neither the file
    system nor the origin: it returns in the world it started in, with
    the allocated result and an empty [local_playback_urls], or with the
    initial result and the error when the allocation fails. *)
Theorem session_without_cache_leaves_the_world (E : Env) (S : Session)
    (video_path : list N) (w : World) :
  stream_video_to_livepeer E S false video_path w
  = (w, inr match create_stream S STREAM_NAME session_profiles with
            | inr stream => allocated_result stream
            | inl e => <[k_error := VStr (exn_msg e)]> initial_result
            end).
Proof.
  destruct (create_stream S STREAM_NAME session_profiles) as [e | stream]
    eqn:Hc.
  - unfold stream_video_to_livepeer, except_Exception, session_body.
    by rewrite Hc.
  - rewrite (session_after_allocation E S false video_path w stream Hc).
    change (fetch_and_cache_hls E false (playback stream) w)
      with (w, @inr exn (gmap (list N) (list N)) ∅).
    cbv iota. rewrite fmap_empty, insert_id; [done |].
    apply allocated_result_lookups.
Qed.

(** X11. When the origin refuses the allocation with a status other
    than 200, the session changes nothing and returns the initial
    result, [success] being [False], with
    [Failed to create stream: <status> - <body>] under [error]. *)
Theorem refused_allocation_is_reported (E : Env) (S : Session)
    (CACHE_ENABLED : bool) (video_path : list N) (w : World)
    (response : post_response) (error_text : list N) :
  post_stream S = PostResponse response ->
  post_status response <> 200%Z ->
  post_text response = inr error_text ->
  stream_video_to_livepeer E S CACHE_ENABLED video_path w
  = (w, inr (<[k_error
               := VStr (lit "Failed to create stream: "
                        ++ str_of_int (post_status response)
                        ++ lit " - " ++ error_text)]> initial_result)).
Proof.
  intros Hp Hs Ht.
  unfold stream_video_to_livepeer, except_Exception, session_body.
  unfold create_stream. rewrite Hp. apply Z.eqb_neq in Hs. rewrite Hs, Ht.
  done.
Qed.

Lemma session_reports_the_fill_witness :
  stream_video_to_livepeer studio_env session_pushed true video_path
                           session_world
  = match fetch_and_cache_hls studio_env true (playback studio_stream)
                              session_world with
    | (w', inl e) =>
        (w', inr (<[k_error := VStr (exn_msg e)]>
                    (allocated_result studio_stream)))
    | (w', inr local_urls) =>
        (w', inr (<[k_local_playback_urls := VDict (Some <$> local_urls)]>
                    (allocated_result studio_stream)))
    end
  /\ snd (fetch_and_cache_hls studio_env true (playback studio_stream)
                              session_world)
     = inr demo_map.
Proof.
  split; [| by_computation].
  apply session_reports_the_fill; by_computation.
Defined.

Lemma failed_server_start_skips_the_fill_witness :
  stream_video_to_livepeer studio_env session_port_taken true video_path
                           session_world
  = (session_world,
     inr (<[k_error := VStr (lit "[Errno 98] address already in use")]>
            (allocated_result studio_stream))).
Proof.
  apply (failed_server_start_skips_the_fill studio_env session_port_taken
           video_path session_world studio_stream port_taken);
    by_computation.
Defined.

Lemma refused_allocation_is_reported_witness :
  stream_video_to_livepeer studio_env session_refused true video_path
                           session_world
  = (session_world,
     inr (<[k_error
            := VStr (lit "Failed to create stream: 401 - unauthorized")]>
            initial_result)).
Proof.
  apply (refused_allocation_is_reported studio_env session_refused true
           video_path session_world refusal (lit "unauthorized"));
    by_computation.
Defined.

(** ** The allocation *)

Lemma rsplit_head_absent (s : list N) (sep : N) :
  sep ∉ s -> rsplit_head s sep = None.
Proof.
  induction s as [|c s IH]; [done |]. intros [Hc Hs]%not_elem_of_cons.
  cbn [rsplit_head]. rewrite IH by done.
  by destruct (N.eqb_spec c sep); [congruence |].
Qed.

Lemma rsplit_head_app (h t : list N) (sep : N) :
  sep ∉ t -> rsplit_head (h ++ sep :: t) sep = Some h.
Proof.
  intros Ht. induction h as [|c h IH]; cbn [app rsplit_head].
  - by rewrite rsplit_head_absent, N.eqb_refl.
  - by rewrite IH.
Qed.

Lemma base_url_of_playback_url (playback_id profile_name : list N) :
  base_url_of (playback_url playback_id profile_name)
  = lit "https://cdn.livepeer.studio/hls/" ++ playback_id ++ [slash]
    ++ profile_name.
Proof.
  unfold base_url_of, rsplit1_0, playback_url.
  rewrite !(app_assoc _ _ ([slash] ++ index_m3u8)).
  rewrite !(app_assoc _ _ profile_name).
  change ([slash] ++ index_m3u8) with (slash :: index_m3u8).
  rewrite rsplit_head_app; [| by_computation].
  by rewrite <- !app_assoc.
Qed.

(** X10. The playlists of an allocated stream lie under its playback
    id: every profile of the descriptor has the URL
    [https://cdn.livepeer.studio/hls/<playbackId>/<name>/index.m3u8],
    so the fill fetches one playlist for each, and the base URL its
    segments are fetched from, and that the rewriter replaces, is
    [https://cdn.livepeer.studio/hls/<playbackId>/<name>]; without a
    playback id the descriptor has no profile. *)
Theorem allocated_playlists_lie_under_the_playback_id (S : Session)
    (stream_name : list N) (profiles : list StreamProfile)
    (stream : StreamInfo) :
  create_stream S stream_name profiles = inr stream ->
  playlist_urls (playback stream) = omap url (playback stream)
  /\ length (playlist_urls (playback stream)) = length (playback stream)
  /\ (playback stream = []
      \/ exists playback_id,
           Forall (fun p =>
                     url p = Some (playback_url playback_id (name p))
                     /\ base_url_of (playback_url playback_id (name p))
                        = lit "https://cdn.livepeer.studio/hls/"
                          ++ playback_id ++ [slash] ++ name p)
                  (playback stream)).
Proof.
  unfold create_stream. destruct (post_stream S) as [e | response]; [done |].
  destruct (negb _); [by destruct (post_text response) |].
  destruct (post_json response) as [e | data]; [done |].
  intros H. apply (inj inr) in H. rewrite <- H. clear H. cbn [playback].
  destruct (api_playbackId data) as [playback_id |];
    [| split_and!; [done | done | by left]].
  generalize (default [] (api_profiles data)). intros aps.
  assert (forall p,
             p ∈ map (fun profile : StreamProfile =>
                        with_url profile
                          (lit "https://cdn.livepeer.studio/hls/"
                           ++ playback_id ++ [slash] ++ name profile
                           ++ [slash] ++ index_m3u8))
                     (map (fun profile : api_profile =>
                             {| name := api_name profile;
                                width := api_width profile;
                                height := api_height profile;
                                bitrate := api_bitrate profile;
                                url := None |}) aps) ->
             url p = Some (playback_url playback_id (name p))) as Hurl.
  { intros p Hp. apply list_elem_of_In, in_map_iff in Hp as (p0 & <- & _).
    done. }
  revert Hurl.
  generalize (map (fun profile : StreamProfile =>
                     with_url profile
                       (lit "https://cdn.livepeer.studio/hls/"
                        ++ playback_id ++ [slash] ++ name profile
                        ++ [slash] ++ index_m3u8))
                  (map (fun profile : api_profile =>
                          {| name := api_name profile;
                             width := api_width profile;
                             height := api_height profile;
                             bitrate := api_bitrate profile;
                             url := None |}) aps)).
  intros ps Hurl.
  assert (playlist_urls ps = omap url ps /\ length (omap url ps) = length ps)
    as [H1 H2].
  { induction ps as [|p ps IH]; [done |].
    destruct IH as [IH1 IH2]; [intros q Hq; apply Hurl; by right |].
    assert (exists c u, playback_url playback_id (name p) = c :: u)
      as (c & u & Hcu) by (by eexists _, _).
    rewrite playlist_urls_cons, IH1. unfold playlist_urls.
    cbn [omap list_omap]. rewrite (Hurl p), Hcu by left.
    split; [done |]. cbn [length]. by rewrite IH2. }
  split_and!; [done | by rewrite H1 |]. right. exists playback_id.
  apply Forall_forall. intros p Hp. split; [by apply Hurl |].
  apply base_url_of_playback_url.
Qed.

Lemma allocated_playlists_lie_under_the_playback_id_witness :
  playlist_urls (playback studio_stream) = omap url (playback studio_stream)
  /\ length (playlist_urls (playback studio_stream))
     = length (playback studio_stream)
  /\ (playback studio_stream = []
      \/ exists playback_id,
           Forall (fun p =>
                     url p = Some (playback_url playback_id (name p))
                     /\ base_url_of (playback_url playback_id (name p))
                        = lit "https://cdn.livepeer.studio/hls/"
                          ++ playback_id ++ [slash] ++ name p)
                  (playback studio_stream)).
Proof.
  apply (allocated_playlists_lie_under_the_playback_id session_pushed
           STREAM_NAME session_profiles studio_stream).
  by_computation.
Defined.

(** ** Directory listings *)

Lemma listing_html_concat (files : list (list N)) :
  listing_html files
  = lit "<html><body><ul>" ++ concat (map listing_item files)
    ++ lit "</ul></body></html>".
Proof.
  unfold listing_html. generalize (lit "<html><body><ul>"). intros html.
  rewrite (app_assoc html). f_equal. revert html.
  induction files as [|file files IH]; intros html; cbn [fold_left map concat].
  - by rewrite app_nil_r.
  - by rewrite IH, <- app_assoc.
Qed.

Lemma NoDup_omap_inj {A B : Type} (f : A -> option B) (l : list A) :
  (forall x y b, x ∈ l -> y ∈ l -> f x = Some b -> f y = Some b -> x = y) ->
  NoDup l -> NoDup (omap f l).
Proof.
  intros Hinj Hnd. induction Hnd as [|x l Hx Hnd IH]; [constructor |].
  cbn [omap list_omap].
  assert (NoDup (omap f l)) as Hrec.
  { apply IH. intros y z b Hy Hz. apply Hinj; by right. }
  destruct (f x) as [b |] eqn:Hfx; [| done]. constructor; [| done].
  intros (y & Hy & Hfy)%list_elem_of_omap.
  assert (x = y) as -> by (apply (Hinj x y b); [left | by right | done ..]).
  done.
Qed.

Lemma NoDup_children (fs : gmap (list (list N)) node) (q : list (list N)) :
  NoDup (children fs q).
Proof.
  unfold children. apply NoDup_omap_inj; [| apply NoDup_map_to_list].
  intros [k1 v1] [k2 v2] b H1 H2. cbn [fst].
  apply elem_of_map_to_list in H1, H2.
  destruct (reverse k1) as [|c1 r1] eqn:E1; [done |].
  destruct (reverse k2) as [|c2 r2] eqn:E2; [done |].
  destruct (bool_decide (reverse r1 = q)) eqn:B1; [| done].
  destruct (bool_decide (reverse r2 = q)) eqn:B2; [| done].
  apply bool_decide_eq_true in B1, B2. intros [= ->] [= ->].
  assert (k1 = k2) as ->.
  { apply (inj reverse). rewrite E1, E2. f_equal.
    apply (inj reverse). by rewrite B1, B2. }
  f_equal. congruence.
Qed.

(** X9. Asked for a directory it may read, the handler answers 200
    with an HTML list that has one item for each entry of the directory
    and no other, each holding the name of the entry as it is, in the
    link and in its text. *)
Theorem handle_lists_each_entry_once (E : Env) (w : World)
    (filename : list N) (q : list (list N)) :
  resolve (fs w) (env_cwd E) (path_join LOCAL_CACHE_DIR filename) = Some q ->
  node_at (fs w) q = Some (Dir true) ->
  handle E filename w
  = (w, inr (HttpResponse 200 text_html
               (BodyText (lit "<html><body><ul>"
                          ++ concat (map listing_item (children (fs w) q))
                          ++ lit "</ul></body></html>"))))
  /\ NoDup (children (fs w) q)
  /\ forall n, n ∈ children (fs w) q <-> is_Some (fs w !! (q ++ [n])).
Proof.
  intros Hr Hq. split_and!.
  - rewrite <- listing_html_concat. unfold handle.
    set (filepath := path_join LOCAL_CACHE_DIR filename) in *.
    unfold bind, except_Exception, path_exists, exists_in, path_isfile,
      listdir.
    rewrite Hr, Hq. simpl. rewrite ?Hr, ?Hq. simpl. rewrite ?Hr, ?Hq.
    reflexivity.
  - apply NoDup_children.
  - intros n. apply elem_of_children.
Qed.

Lemma handle_lists_each_entry_once_witness :
  handle demo_env (lit "480p") (fst demo_first)
  = (fst demo_first,
     inr (HttpResponse 200 text_html
            (BodyText (lit "<html><body><ul>"
                       ++ concat (map listing_item
                                      (children (fs (fst demo_first))
                                                dir_480p))
                       ++ lit "</ul></body></html>"))))
  /\ NoDup (children (fs (fst demo_first)) dir_480p)
  /\ forall n, n ∈ children (fs (fst demo_first)) dir_480p
               <-> is_Some (fs (fst demo_first) !! (dir_480p ++ [n])).
Proof.
  apply (handle_lists_each_entry_once demo_env (fst demo_first) (lit "480p")
           dir_480p); by_computation.
Defined.

(** ** The URLs a fill hands out *)

Lemma readable_kept_preorder : PreOrder readable_kept.
Proof.
  split.
  - intros w H. exact H.
  - intros w1 w2 w3 H1 H2 H. apply H2, H1, H.
Qed.

Lemma readable_kept_open_write (E : Env) (p data : list N) (w w1 : World)
    (f : list (list N)) :
  open_w E p w = (w1, inr f) ->
  readable_kept w w1 /\ readable_kept w (write f data w1).1.
Proof.
  intros Ho. unfold readable_kept.
  apply open_w_returns in Ho as (_ & _ & [[Hn Hfs] | (r & d & Hf & Hfs)]);
    cbn; rewrite Hfs, ?lookup_insert_eq, ?insert_insert_eq.
  - split; intros Hall; by apply all_readable_insert.
  - split; intros Hall; pose proof (Hall _ _ Hf) as Hr;
      apply all_readable_insert; done.
Qed.

Lemma cache_profile_readable (E : Env) (profile : StreamProfile) :
  keeps readable_kept fill_world (cache_profile E profile).
Proof.
  apply (keeps_cache_profile E readable_kept readable_kept_preorder
           (fun _ => True)).
  - intros p s Hall. destruct (makedirs E p s) as [w' r] eqn:Hm.
    by eapply makedirs_all_readable.
  - intros u _ s Hall. unfold session_get. cbn. by destruct (env_get E _ _).
  - intros p s. destruct (open_w E p s) as [w1 [e | f]] eqn:Ho.
    + apply open_w_raises_same in Ho as ->. by intros ?.
    + by apply (readable_kept_open_write E p []) in Ho as [? _].
  - intros p data s w1 f Ho.
    by apply (readable_kept_open_write E p data) in Ho as [_ ?].
  - done.
Qed.

Lemma playlist_in_cache_keeps (E : Env) (w w' : World) (n : list N) :
  world_keeps w w' -> playlist_in_cache E w n -> playlist_in_cache E w' n.
Proof.
  intros [Hk _] (f & data & Hr & Hf & Hd).
  destruct (Hk _ _ Hd) as ([r d | r] & Hd' & Hs); [| done].
  cbn in Hs. subst r. exists f, d. split_and!; [| done ..].
  eapply resolve_keeps; [| exact Hr]. intros x. by apply is_dir_keeps.
Qed.

Lemma except_ClientError_state {S : Type} (m : M S unit) (s s' : S)
    (r : exn + unit) :
  except_ClientError m (fun _ => ret tt) s = (s', r) ->
  exists r0, m s = (s', r0).
Proof.
  unfold except_ClientError. destruct (m s) as [s1 [e | []]].
  - destruct (is_client_error e); intros [= <- _]; by eexists.
  - intros [= <- _]. by eexists.
Qed.

(** The body of the loop over the profiles leaves the dict of local
    URLs as it was, or enters the profile with its playlist in the
    cache. *)
Lemma cache_profile_cases (E : Env) (profile : StreamProfile)
    (s s' : FillState) (r : exn + unit) :
  all_readable (fs (fill_world s)) ->
  cache_profile E profile s = (s', r) ->
  local_urls s' = local_urls s
  \/ (local_urls s'
      = <[name profile := local_playlist_url (name profile)]> (local_urls s)
      /\ playlist_in_cache E (fill_world s') (name profile)).
Proof.
  intros Hall. unfold cache_profile.
  destruct (url profile) as [[|c u] |];
    [by intros [= <- _]; left | | by intros [= <- _]; left].
  intros [r0 Hrun]%except_ClientError_state. clear r. revert Hrun.
  cbv zeta.
  set (p := path_join (path_join LOCAL_CACHE_DIR (name profile)) index_m3u8).
  unfold bind at 1, in_world at 1.
  destruct (makedirs E _ (fill_world s)) as [w1 [e1 | []]] eqn:Hm;
    [by intros [= <- _]; left |].
  apply (makedirs_all_readable E _ _ _ _ Hall) in Hm as Hall1.
  unfold bind at 1, in_world at 1, session_get. cbn [fill_world local_urls].
  destruct (env_get E (gets w1) (c :: u)) as [e | resp];
    [by intros [= <- _]; left |].
  destruct (status resp =? 200)%Z; [| by intros [= <- _]; left].
  destruct (text resp) as [e | content]; [by intros [= <- _]; left |].
  unfold bind at 1, of_result, ret. unfold bind at 1, in_world at 1.
  cbn [fill_world local_urls].
  destruct (open_w E p _) as [w3 [e3 | f]] eqn:Ho;
    [by intros [= <- _]; left |].
  destruct (open_w_handle _ _ _ _ _ Ho) as [Hf0 Hfd].
  apply open_w_returns in Ho as (Hr & Hg3 & Hfs). cbn [fs gets] in *.
  assert (exists old, fs w3 = <[f := File true old]> (fs w1))
    as [old Hfs3].
  { destruct Hfs as [[_ ->] | (r & d & Hf & ->)]; [by eexists |].
    pose proof (Hall1 _ _ Hf) as Hrd. destruct r; [by eexists | done]. }
  unfold bind at 1, in_world at 1, write. cbn [fill_world local_urls].
  rewrite Hfs3, lookup_insert_eq, insert_insert_eq.
  unfold bind at 1, set_local_url. cbn [fill_world local_urls].
  unfold in_world. cbn [fill_world local_urls].
  match goal with |- context [download_segments E ?b ?d ?l ?w] =>
    pose proof (download_segments_extends E b d l w) as Hext;
    destruct (download_segments E b d l w) as [w5 r5] eqn:Hd
  end.
  cbn [fst fs] in Hext. intros [= <- _]. cbn [fill_world local_urls].
  right. split; [done |]. eexists f, _. split_and!; [| done |].
  - apply (resolve_keeps (fs w1)); [| exact Hr]. intros x Hx.
    eapply is_dir_keeps; [by apply fs_keeps_subseteq |].
    by apply is_dir_insert.
  - eapply lookup_weaken; [| exact Hext]. by rewrite lookup_insert_eq.
Qed.

Lemma for_each_cache_profile_served (E : Env) (X : list N -> Prop)
    (profiles : list StreamProfile) (s : FillState) :
  all_readable (fs (fill_world s)) ->
  (forall p, p ∈ profiles -> X (name p)) ->
  (forall n v, local_urls s !! n = Some v ->
               v = local_playlist_url n /\ X n
               /\ playlist_in_cache E (fill_world s) n) ->
  forall n v,
    local_urls (for_each (cache_profile E) profiles s).1 !! n = Some v ->
    v = local_playlist_url n /\ X n
    /\ playlist_in_cache E
         (fill_world (for_each (cache_profile E) profiles s).1) n.
Proof.
  revert s. induction profiles as [|p ps IH]; intros s Hall HX Hinv; [done |].
  cbn [for_each]. unfold bind.
  pose proof (cache_profile_readable E p s Hall) as Hall1.
  pose proof (cache_profile_world_keeps E p s) as Hk.
  destruct (cache_profile E p s) as [s1 r1] eqn:Hrun. cbn [fst] in *.
  pose proof (cache_profile_cases E p s s1 r1 Hall Hrun) as Hc.
  assert (forall n v,
             local_urls s1 !! n = Some v ->
             v = local_playlist_url n /\ X n
             /\ playlist_in_cache E (fill_world s1) n)
    as Hinv1.
  { intros n v Hn. destruct Hc as [Hc | [Hc Hp]]; rewrite Hc in Hn.
    - destruct (Hinv n v Hn) as (? & ? & ?). split_and!; [done .. |].
      by eapply playlist_in_cache_keeps.
    - destruct (decide (n = name p)) as [-> | Hne].
      + rewrite lookup_insert_eq in Hn. injection Hn as <-.
        split_and!; [done | apply HX; left | done].
      + rewrite lookup_insert_ne in Hn by done.
        destruct (Hinv n v Hn) as (? & ? & ?). split_and!; [done .. |].
        by eapply playlist_in_cache_keeps. }
  destruct r1 as [e | []]; [exact Hinv1 |].
  apply IH; [done | | done]. intros q Hq. apply HX. by right.
Qed.

(** X8. Every URL a fill hands out is answered by the local server.
    For every entry of the map a fill returns, the key is the name of
    one of the profiles, the value is [LOCAL_PLAYBACK_URL_BASE] followed
    by a file name, the name of the profile and [/index.m3u8], and in
    the world the fill leaves the handler answers that file name with
    200 and the type of a playlist. *)
Theorem every_local_playlist_url_is_served (E : Env) (CACHE_ENABLED : bool)
    (playback_urls : list StreamProfile) (w w' : World)
    (local_urls : gmap (list N) (list N)) (n v : list N) :
  all_readable (fs w) ->
  fetch_and_cache_hls E CACHE_ENABLED playback_urls w
  = (w', inr local_urls) ->
  local_urls !! n = Some v ->
  n <> [] -> endswith n [slash] = false ->
  (exists p, p ∈ playback_urls /\ name p = n)
  /\ v = LOCAL_PLAYBACK_URL_BASE ++ (n ++ [slash] ++ index_m3u8)
  /\ exists data,
       handle E (n ++ [slash] ++ index_m3u8) w'
       = (w', inr (HttpResponse 200 mpegurl (BodyBytes data))).
Proof.
  intros Hall Hrun Hn Hne Hend. revert Hrun. unfold fetch_and_cache_hls.
  destruct (negb CACHE_ENABLED); [by intros [= _ <-] |].
  unfold bind at 1.
  destruct ((let* there := path_exists E LOCAL_CACHE_DIR in _) w)
    as [w1 [e1 | []]] eqn:H1; [done |].
  assert (all_readable (fs w1)) as Hall1.
  { revert H1. unfold bind, path_exists.
    destruct (negb _); [| by intros [= <-]].
    intros Hm. by eapply makedirs_all_readable. }
  pose proof (for_each_cache_profile_served E
                (fun n => exists p, p ∈ playback_urls /\ name p = n)
                playback_urls {| fill_world := w1; local_urls := ∅ |}
                Hall1) as Hserved.
  destruct (for_each _ _ _) as [s [e | []]]; [done |].
  intros [= <- <-]. cbn [fst] in Hserved.
  destruct (Hserved (fun p Hp => ex_intro _ p (conj Hp eq_refl))) with n v
    as (-> & Hp & f & data & Hr & Hf & Hd); [done | done |].
  split_and!; [done | done |]. exists data.
  assert (path_join LOCAL_CACHE_DIR (n ++ [slash] ++ index_m3u8)
          = path_join (path_join LOCAL_CACHE_DIR n) index_m3u8) as Hpath.
  { rewrite path_join_assoc. f_equal. destruct n as [|n0 n']; [done |].
    by rewrite path_join_relative, Hend. }
  rewrite (handle_serves_what_the_path_names E _ _ f data).
  - rewrite Hpath.
    assert (endswith (path_join (path_join LOCAL_CACHE_DIR n) index_m3u8)
                     dot_m3u8 = true) as ->; [| done].
    apply endswith_suffix. trans index_m3u8; [by exists (lit "index") |].
    apply path_join_suffix.
  - by rewrite Hpath.
  - by destruct f.
Qed.

Lemma every_local_playlist_url_is_served_witness :
  (exists p, p ∈ [profile_480p; profile_720p] /\ name p = lit "480p")
  /\ lit "http://localhost:8080/cache/480p/index.m3u8"
     = LOCAL_PLAYBACK_URL_BASE ++ (lit "480p" ++ [slash] ++ index_m3u8)
  /\ exists data,
       handle demo_env (lit "480p" ++ [slash] ++ index_m3u8)
              (fst (fetch_and_cache_hls demo_env true
                      [profile_480p; profile_720p] empty_world))
       = (fst (fetch_and_cache_hls demo_env true
                 [profile_480p; profile_720p] empty_world),
          inr (HttpResponse 200 mpegurl (BodyBytes data))).
Proof.
  apply (every_local_playlist_url_is_served demo_env true
           [profile_480p; profile_720p] empty_world _ demo_map);
    by_computation.
Defined.

(** ** The push *)

(** X15. [push_to_livepeer] never raises and changes nothing, and it
    returns [True] exactly when the video exists and FFmpeg could be
    started and ended with code 0. *)
Theorem push_succeeds_when_ffmpeg_does (E : Env) (S : Session)
    (ingest_url video_path : list N) (w : World) :
  exists b,
    push_to_livepeer E S ingest_url video_path w = (w, inr b)
    /\ (b = true
        <-> exists_in (fs w) (env_cwd E) video_path = true
            /\ ffmpeg S = inr 0%Z).
Proof.
  unfold push_to_livepeer, bind, path_exists.
  destruct (exists_in _ _ _); cbn [negb].
  2:{ exists false. split; [done |]. by split; [| intros [? _]]. }
  unfold except_Exception, bind. destruct (ffmpeg S) as [e | rc]; cbn.
  - exists false. split; [done |]. by split; [| intros [_ ?]].
  - destruct (Z.eqb_spec rc 0) as [-> | Hne].
    + exists true. by split.
    + exists false. split; [done |]. split; [done |].
      intros [_ [= ?]]. done.
Qed.

(** * Properties of the pipeline *)

(** ** Dicts *)

Lemma dict_get_set_eq (k : list N) (v : json) (d : list (list N * json)) :
  dict_get k (dict_set k v d) = Some v.
Proof.
  induction d as [|[k' v'] d IH]; cbn [dict_set dict_get].
  - by rewrite bool_decide_true.
  - destruct (decide (k' = k)) as [-> | Hne].
    + rewrite bool_decide_true by done. cbn [dict_get].
      by rewrite bool_decide_true.
    + rewrite bool_decide_false by done. cbn [dict_get].
      by rewrite bool_decide_false.
Qed.

Lemma dict_get_set_ne (k k' : list N) (v : json)
    (d : list (list N * json)) :
  k <> k' -> dict_get k' (dict_set k v d) = dict_get k' d.
Proof.
  intros Hne. induction d as [|[k0 v0] d IH]; cbn [dict_set dict_get].
  - by rewrite bool_decide_false.
  - destruct (decide (k0 = k)) as [-> | Hne0].
    + rewrite bool_decide_true by done. cbn [dict_get].
      by rewrite !bool_decide_false.
    + rewrite bool_decide_false by done. cbn [dict_get]. by rewrite IH.
Qed.

Lemma dict_set_keys (k : list N) (v : json) (d : list (list N * json)) :
  is_Some (dict_get k d) -> map fst (dict_set k v d) = map fst d.
Proof.
  induction d as [|[k0 v0] d IH]; cbn [dict_set dict_get map fst].
  - by intros [? ?].
  - destruct (decide (k0 = k)) as [-> | Hne].
    + by rewrite bool_decide_true.
    + rewrite bool_decide_false by done. intros H. cbn [map fst].
      by rewrite IH.
Qed.

Lemma dict_get_None (k : list N) (d : list (list N * json)) :
  k ∉ map fst d -> dict_get k d = None.
Proof.
  induction d as [|[k0 v0] d IH]; [done |]. cbn [map fst dict_get].
  intros [Hne Hd]%not_elem_of_cons. by rewrite bool_decide_false, IH.
Qed.

(** ** Merging a loaded configuration into the defaults *)

Lemma update_nested_dict_cons (d : list (list N * json)) (k : list N)
    (v : json) (rest : list (list N * json)) :
  _update_nested_dict d ((k, v) :: rest)
  = _update_nested_dict
      (dict_set k match v, dict_get k d with
                  | JDict vu, Some (JDict dk) =>
                      JDict (_update_nested_dict dk vu)
                  | _, _ => v
                  end d)
      rest.
Proof.
  unfold _update_nested_dict. cbn [update_from].
  destruct v; try done. by destruct (dict_get k d) as [[] |].
Qed.

Lemma update_nested_dict_get (d u : list (list N * json)) (k : list N) :
  NoDup (map fst u) ->
  dict_get k (_update_nested_dict d u)
  = match dict_get k u with
    | None => dict_get k d
    | Some v =>
        Some match v, dict_get k d with
             | JDict vu, Some (JDict dk) => JDict (_update_nested_dict dk vu)
             | _, _ => v
             end
    end.
Proof.
  revert d. induction u as [|[k0 v0] u IH]; intros d Hnd; [done |].
  cbn [map fst] in Hnd. apply NoDup_cons in Hnd as [Hk0 Hnd].
  rewrite update_nested_dict_cons, IH by done. cbn [dict_get].
  destruct (decide (k0 = k)) as [-> | Hne].
  - rewrite bool_decide_true by done.
    by rewrite (dict_get_None k u), dict_get_set_eq.
  - rewrite bool_decide_false by done.
    by rewrite dict_get_set_ne.
Qed.

Lemma json_ok_dict (items : list (list N * json)) (k : list N) (v : json) :
  json_ok (JDict items) = true -> dict_get k items = Some v ->
  NoDup (map fst items) /\ json_ok v = true.
Proof.
  cbn [json_ok]. intros [Hnd Hall]%andb_true_iff.
  apply bool_decide_eq_true in Hnd. intros Hk. split; [done |].
  clear Hnd. induction items as [|[k0 v0] items IH]; [done |].
  apply andb_true_iff in Hall as [H0 Hall]. cbn [dict_get] in Hk.
  destruct (bool_decide (k0 = k)); [by injection Hk as <- | by apply IH].
Qed.

Lemma overrides_absent (u : list (list N * json)) (path : list (list N)) :
  path <> [] -> overrides u path = false -> get_path path (JDict u) = None.
Proof.
  revert u. induction path as [|k rest IH]; intros u Hne; [done |].
  cbn [overrides get_path].
  destruct (dict_get k u) as [[| | | | | |vu] |]; try done.
  destruct rest as [|k' rest']; [done |]. by apply IH.
Qed.

(** X16. A loaded configuration is merged into the defaults key by key,
    at every depth.  A path at which the loaded configuration has a
    value that is no dict holds that value afterwards; a path the
    loaded configuration says nothing about, having no value there nor a
    value that is no dict above it, holds what the defaults hold. *)
Theorem loaded_values_win_and_defaults_survive
    (d u : list (list N * json)) (path : list (list N)) :
  json_ok (JDict u) = true ->
  (forall v, get_path path (JDict u) = Some v -> is_dict v = false ->
             get_path path (JDict (_update_nested_dict d u)) = Some v)
  /\ (overrides u path = false ->
      get_path path (JDict (_update_nested_dict d u))
      = get_path path (JDict d)).
Proof.
  revert d u. induction path as [|k rest IH]; intros d u Hok.
  { split; [by intros v [= <-] | done]. }
  cbn [get_path overrides].
  assert (NoDup (map fst u)) as Hnd.
  { apply andb_true_iff in Hok as [Hnd _].
    by apply bool_decide_eq_true in Hnd. }
  rewrite update_nested_dict_get by done.
  destruct (dict_get k u) as [x |] eqn:Hx; [| by split].
  destruct (json_ok_dict _ _ _ Hok Hx) as [_ Hokx].
  destruct x as [| | | | | |xu];
    try (split; [by intros v Hv Hd | done]).
  split.
  - intros v Hv Hd.
    destruct (dict_get k d) as [[| | | | | |dk] |]; try done.
    by apply (IH dk xu Hokx).
  - destruct rest as [|k' rest']; [done |]. intros Hov.
    destruct (dict_get k d) as [[| | | | | |dk] |];
      try (by rewrite overrides_absent).
    by apply (IH dk xu Hokx).
Qed.

(** ** The configuration that is saved *)

Lemma blank_returns (section key : list N)
    (c c' : list (list N * json)) :
  blank section key c = inr c' ->
  map fst c' = map fst c
  /\ (get_path [section; key] (JDict c') = None
      \/ get_path [section; key] (JDict c') = Some (JStr []))
  /\ forall s k, (s, k) <> (section, key) ->
                 get_path [s; k] (JDict c') = get_path [s; k] (JDict c).
Proof.
  unfold blank. destruct (dict_get section c) as [held |] eqn:Hs.
  2:{ intros [= <-]. split_and!; [done | | done]. left. cbn. by rewrite Hs. }
  destruct (contains held key) as [e | []] eqn:Hc; [done | |].
  - destruct held as [| | | | | |items]; try done. cbn [assign_item].
    intros [= <-]. split_and!.
    + by apply dict_set_keys.
    + right. cbn [get_path]. by rewrite !dict_get_set_eq.
    + intros s k Hne. cbn [get_path].
      destruct (decide (s = section)) as [-> | Hns].
      * rewrite dict_get_set_eq, Hs. rewrite dict_get_set_ne; [done |].
        congruence.
      * by rewrite dict_get_set_ne.
  - intros [= <-]. split_and!; [done | | done]. cbn [get_path]. rewrite Hs.
    destruct held as [| | | | | |items]; try by left.
    cbn in Hc. unfold dict_has in Hc.
    destruct (dict_get key items); [done | by left].
Qed.

(** X17. The configuration that is saved holds no secret.  When
    [_get_safe_config] returns, the copy has the sections of the
    configuration, the three secrets ([ethereum.private_key],
    [ipfs.token], [livepeer.api_key]) are empty strings where they are
    present, and every other key of every section holds what it held. *)
Theorem saved_configuration_has_no_secret (config safe : list (list N * json)) :
  _get_safe_config config = inr safe ->
  map fst safe = map fst config
  /\ (forall section key,
         (section, key) ∈ secrets ->
         get_path [section; key] (JDict safe) = None
         \/ get_path [section; key] (JDict safe) = Some (JStr []))
  /\ (forall section key,
         (section, key) ∉ secrets ->
         get_path [section; key] (JDict safe)
         = get_path [section; key] (JDict config)).
Proof.
  unfold _get_safe_config.
  destruct (blank k_ethereum k_private_key config) as [e | c1] eqn:H1;
    [done |].
  destruct (blank k_ipfs k_token c1) as [e | c2] eqn:H2; [done |].
  intros H3.
  apply blank_returns in H1 as (K1 & B1 & O1).
  apply blank_returns in H2 as (K2 & B2 & O2).
  apply blank_returns in H3 as (K3 & B3 & O3).
  split_and!.
  - by rewrite K3, K2, K1.
  - intros section key Hin. unfold secrets in Hin.
    repeat (apply elem_of_cons in Hin as [[= -> ->] | Hin]).
    + by rewrite O3, O2.
    + by rewrite O3.
    + done.
    + by apply elem_of_nil in Hin.
  - intros section key Hnot. unfold secrets in Hnot.
    rewrite !not_elem_of_cons in Hnot. destruct Hnot as (N1 & N2 & N3 & _).
    by rewrite O3, O2, O1.
Qed.

(** ** Registration on the blockchain *)

(** X23. Without a contract address, a private key or an IPFS hash
    nothing is registered: [register_on_blockchain] starts no script,
    leaves the machine as it is, and returns [registered: False] with the
    reason. *)
Theorem registration_needs_address_key_and_hash (T : Tools)
    (config ethereum contract_address : json)
    (metadata : list (list N * json)) (price : list N) (s : Machine) :
  subscript config k_ethereum = inr ethereum ->
  subscript ethereum k_contract_address = inr contract_address ->
  truthy contract_address = false
  \/ (exists private_key,
         subscript ethereum k_private_key = inr private_key
         /\ (truthy private_key = false
             \/ truthy (default JNull (dict_get k_ipfsHash metadata))
                = false)) ->
  exists reason,
    reason ∈ [lit "No contract address provided";
              lit "No private key provided";
              lit "No IPFS hash in metadata"]
    /\ register_on_blockchain T config metadata price s
       = (s, inr (not_registered reason)).
Proof.
  intros He Ha Hcase. unfold register_on_blockchain.
  rewrite He. cbn [of_result]. unfold bind at 1, ret at 1.
  rewrite Ha. cbn [of_result]. unfold bind at 1, ret at 1.
  destruct (truthy contract_address) eqn:Hta; cbn [negb].
  2:{ eexists. split; [| done]. left. }
  destruct Hcase as [? | (private_key & Hk & Hcase)]; [done |].
  rewrite Hk. cbn [of_result]. unfold bind at 1, ret at 1.
  destruct (truthy private_key) eqn:Htk; cbn [negb].
  2:{ eexists. split; [| done]. right. left. }
  destruct Hcase as [? | Hh]; [done |]. cbv zeta. rewrite Hh. cbn [negb].
  eexists. split; [| done]. right. right. left.
Qed.

Lemma communicate_cases (T : Tools) (what : string) (cmd : list json)
    (env : list (list N * json)) (s : Machine) :
  exists s' r,
    communicate T what cmd env s = (s', r)
    /\ gets (machine_world s') = gets (machine_world s)
    /\ spawned s' = spawned s ++ [cmd]
    /\ forall output, r = inr output ->
         exists p, snd (run_command T cmd env (fs (machine_world s))) = inr p
                   /\ returncode p = 0%Z /\ stdout_decode p = inr output.
Proof.
  unfold communicate, bind at 1, create_subprocess_exec.
  destruct (run_command T cmd env (fs (machine_world s))) as [fs' [e | p]].
  { eexists _, _. by split_and!. }
  destruct (returncode p =? 0)%Z eqn:Hrc; cbn [negb].
  - destruct (stdout_decode p) as [e | output] eqn:Hout;
      eexists _, _; (split_and!; [done .. |]); [done |].
    intros o [= <-]. exists p. apply Z.eqb_eq in Hrc. by split_and!.
  - unfold bind. destruct (stderr_decode p) as [e | err];
      eexists _, _; by split_and!.
Qed.

(** X24. [register_on_blockchain] never raises once the configuration
    has its [ethereum] section, and it returns [registered: True] only
    when it has started [node web3client.js upload] with the title, the
    description, the hash and the price, the script has ended with code
    0 and its output could be decoded; the output is returned under
    [output]. *)
Theorem registration_reports_the_script (T : Tools)
    (config ethereum contract_address private_key provider_url : json)
    (metadata : list (list N * json)) (price : list N) (s : Machine) :
  subscript config k_ethereum = inr ethereum ->
  subscript ethereum k_contract_address = inr contract_address ->
  subscript ethereum k_private_key = inr private_key ->
  subscript ethereum k_provider_url = inr provider_url ->
  let cmd := [JStr (lit "node"); JStr (lit "web3client.js");
              JStr (lit "upload");
              default JNull (dict_get k_title metadata);
              default (JStr []) (dict_get k_description metadata);
              default JNull (dict_get k_ipfsHash metadata); JStr price] in
  let env := [(lit "PROVIDER_URL", provider_url);
              (lit "CONTRACT_ADDRESS", contract_address);
              (lit "PRIVATE_KEY", private_key)] in
  exists s' r,
    register_on_blockchain T config metadata price s = (s', inr (JDict r))
    /\ gets (machine_world s') = gets (machine_world s)
    /\ (exists registered, dict_get k_registered r = Some (JBool registered))
    /\ (dict_get k_registered r = Some (JBool true) ->
        spawned s' = spawned s ++ [cmd]
        /\ exists p output,
             snd (run_command T cmd env (fs (machine_world s))) = inr p
             /\ returncode p = 0%Z /\ stdout_decode p = inr output
             /\ dict_get k_output r = Some (JStr output)).
Proof.
  intros He Ha Hk Hp cmd env. unfold register_on_blockchain.
  rewrite He. cbn [of_result]. unfold bind at 1, ret at 1.
  rewrite Ha. cbn [of_result]. unfold bind at 1, ret at 1.
  destruct (truthy contract_address); cbn [negb].
  2:{ eexists _, _. split_and!; [done | done | by eexists | done]. }
  rewrite Hk. cbn [of_result]. unfold bind at 1, ret at 1.
  destruct (truthy private_key); cbn [negb].
  2:{ eexists _, _. split_and!; [done | done | by eexists | done]. }
  cbv zeta.
  destruct (truthy (default JNull (dict_get k_ipfsHash metadata)));
    cbn [negb].
  2:{ eexists _, _. split_and!; [done | done | by eexists | done]. }
  rewrite Hp. cbn [of_result]. unfold bind at 1, ret at 1.
  fold cmd env. unfold except_Exception, bind at 1.
  destruct (communicate_cases T "Blockchain registration" cmd env s)
    as (s' & r & -> & Hg & Hsp & Hr).
  destruct r as [e | output].
  - eexists _, _. split_and!; [done | done | by eexists | done].
  - destruct (Hr output eq_refl) as (p & Hrun & Hrc & Hout).
    eexists _, _. split_and!; [done | done | by eexists |].
    intros _. split; [done |]. by exists p, output.
Qed.

(** ** The steps of [process_video] *)

Lemma compression_step_returns (T : Tools) (config : json)
    (input_path : list N) (res : list (list N * json)) (s : Machine) :
  exists s' v working_video,
    compression_step T config input_path res s
    = (s', inr (dict_set k_compression v res, working_video))
    /\ gets (machine_world s') = gets (machine_world s)
    /\ spawned s' = spawned s.
Proof.
  unfold compression_step, except_Exception, bind at 1.
  destruct (subscript config k_directories) as [e | directories];
    [by eexists _, _, _ |].
  cbn [of_result]. unfold ret at 1, bind at 1.
  destruct (subscript directories k_output) as [e | output];
    [by eexists _, _, _ |].
  cbn [of_result]. unfold ret at 1, bind at 1.
  destruct (fspath output) as [e | out]; [by eexists _, _, _ |].
  cbn [of_result]. unfold ret at 1, bind at 1, compress_video.
  destruct (compress T _ _ _) as [fs' [e |]]; by eexists _, _, _.
Qed.

(** What the streaming step leaves: the machine as it was, and a failure
    under [streaming]. *)
Lemma streaming_step_fails (E : Env) (T : Tools) (S : Session)
    (config : json) (working_video : list N) (res : list (list N * json))
    (s : Machine) :
  exists e,
    streaming_step E T S config working_video res s
    = (s, inr (dict_set k_streaming (failed e) res)).
Proof.
  unfold streaming_step, except_Exception, bind at 1.
  destruct (subscript config k_livepeer) as [e | livepeer]; [by eexists |].
  cbn [of_result]. unfold ret at 1, bind at 1.
  destruct (subscript livepeer k_api_key) as [e | api_key]; [by eexists |].
  cbn [of_result]. unfold ret at 1, bind at 1, environ_set.
  destruct (putenv T _ api_key) as [e |]; [by eexists |].
  cbn [of_result]. unfold ret at 1, bind at 1.
  destruct (subscript livepeer k_stream_name) as [e | stream_name];
    [by eexists |].
  cbn [of_result]. unfold ret at 1, bind at 1.
  destruct (subscript livepeer k_cache_enabled) as [e | cache_enabled];
    [by eexists |].
  cbn [of_result]. unfold ret at 1, bind at 1.
  destruct (subscript livepeer k_server_port) as [e | server_port];
    [by eexists |].
  cbn [of_result]. unfold ret at 1, bind at 1, in_machine, stream_video.
  unfold raise. destruct s. by eexists.
Qed.

Lemma streaming_step_running_loop (E : Env) (T : Tools) (S : Session)
    (config livepeer api_key stream_name cache_enabled server_port : json)
    (working_video : list N) (res : list (list N * json)) (s : Machine) :
  subscript config k_livepeer = inr livepeer ->
  subscript livepeer k_api_key = inr api_key ->
  putenv T (lit "LIVEPEER_API_KEY") api_key = None ->
  subscript livepeer k_stream_name = inr stream_name ->
  subscript livepeer k_cache_enabled = inr cache_enabled ->
  subscript livepeer k_server_port = inr server_port ->
  streaming_step E T S config working_video res s
  = (s, inr (dict_set k_streaming
               (failed (Exn PlainException running_loop_message)) res)).
Proof.
  intros H1 H2 H3 H4 H5 H6.
  unfold streaming_step, except_Exception, bind at 1.
  rewrite H1. cbn [of_result]. unfold ret at 1, bind at 1.
  rewrite H2. cbn [of_result]. unfold ret at 1, bind at 1, environ_set.
  rewrite H3. cbn [of_result]. unfold ret at 1, bind at 1.
  rewrite H4. cbn [of_result]. unfold ret at 1, bind at 1.
  rewrite H5. cbn [of_result]. unfold ret at 1, bind at 1.
  rewrite H6. cbn [of_result]. unfold ret at 1, bind at 1, in_machine.
  unfold stream_video, raise. by destruct s.
Qed.

Lemma run_ipfs_upload_gets (E : Env) (T : Tools) (config : json)
    (video_path title description : list N) (s : Machine) :
  gets (machine_world (run_ipfs_upload E T config video_path title
                                       description s).1)
  = gets (machine_world s).
Proof.
  unfold run_ipfs_upload, bind at 1, in_machine at 1, path_exists at 1.
  destruct (exists_in _ _ video_path); cbn [negb]; [| done].
  unfold bind at 1.
  destruct (upload_environment config) as [e | env]; [done |].
  cbn [of_result]. unfold ret at 1.
  unfold bind at 1, in_machine at 1, path_exists at 1.
  cbn [machine_world spawned]. unfold bind at 1.
  match goal with |- context [communicate T ?w ?c ?v ?st] =>
    destruct (communicate_cases T w c v st) as (s1 & r & -> & Hg & _)
  end.
  cbn [machine_world] in Hg. destruct r as [e | output]; [done |].
  unfold bind at 1, in_machine at 1, path_exists at 1.
  destruct (exists_in _ _ metadata_path); [| done].
  unfold bind, in_machine, read_rb. cbn [machine_world spawned].
  match goal with
  | |- context [match ?x with inl _ => _ | inr _ => _ end] =>
      destruct x as [e | content]
  end; [done |].
  by destruct (json_load T content).
Qed.

Lemma with_success_has_success (ipfs_result : json)
    (entry : list (list N * json)) :
  with_success ipfs_result = inr entry -> is_Some (dict_get k_success entry).
Proof.
  destruct ipfs_result as [| | | | | |items]; try done. cbn [with_success].
  intros [= <-].
  assert (forall d : list (list N * json),
             is_Some (dict_get k_success d) ->
             is_Some (dict_get k_success
                        (fold_left (fun d kv => dict_set kv.1 kv.2 d)
                                   items d))) as H; [| by apply H].
  induction items as [|[k v] items IH]; intros d Hd; [done |].
  cbn [fold_left]. apply IH. cbn [fst snd].
  destruct (decide (k = k_success)) as [-> | Hne].
  - by rewrite dict_get_set_eq.
  - by rewrite dict_get_set_ne.
Qed.

Lemma ipfs_step_returns (E : Env) (T : Tools) (config : json)
    (working_video title description : list N)
    (res : list (list N * json)) (s : Machine) :
  exists s' entry,
    ipfs_step E T config working_video title description res s
    = (s', inr (dict_set k_ipfs (JDict entry) res))
    /\ is_Some (dict_get k_success entry)
    /\ gets (machine_world s') = gets (machine_world s).
Proof.
  unfold ipfs_step, except_Exception, bind at 1.
  pose proof (run_ipfs_upload_gets E T config working_video title
                description s) as Hg.
  destruct (run_ipfs_upload E T config working_video title description s)
    as [s1 [e | ipfs_result]]; cbn [fst] in Hg.
  { eexists _, _. by split_and!. }
  unfold bind.
  destruct (with_success ipfs_result) as [e | entry] eqn:Hw;
    cbn [of_result]; eexists _, _; (split_and!; [done | | done]);
    [done |].
  by eapply with_success_has_success.
Qed.

Lemma register_on_blockchain_gets (T : Tools) (config : json)
    (metadata : list (list N * json)) (price : list N) (s : Machine) :
  gets (machine_world (register_on_blockchain T config metadata price s).1)
  = gets (machine_world s).
Proof.
  unfold register_on_blockchain, bind at 1.
  destruct (subscript config k_ethereum) as [e | ethereum]; [done |].
  cbn [of_result]. unfold ret at 1, bind at 1.
  destruct (subscript ethereum k_contract_address) as [e | a]; [done |].
  cbn [of_result]. unfold ret at 1.
  destruct (truthy a); cbn [negb]; [| done]. unfold bind at 1.
  destruct (subscript ethereum k_private_key) as [e | k]; [done |].
  cbn [of_result]. unfold ret at 1.
  destruct (truthy k); cbn [negb]; [| done]. cbv zeta.
  destruct (truthy (default JNull (dict_get k_ipfsHash metadata)));
    cbn [negb]; [| done].
  unfold bind at 1.
  destruct (subscript ethereum k_provider_url) as [e | p]; [done |].
  cbn [of_result]. unfold ret at 1, except_Exception, bind at 1.
  match goal with |- context [communicate T ?w ?c ?v ?st] =>
    destruct (communicate_cases T w c v st) as (s1 & r & -> & Hg & _)
  end.
  by destruct r.
Qed.

Lemma blockchain_step_returns (T : Tools) (config : json) (price : list N)
    (metadata res : list (list N * json)) (s : Machine) :
  exists s' v,
    blockchain_step T config price metadata res s
    = (s', inr (dict_set k_blockchain (JDict v) res))
    /\ gets (machine_world s') = gets (machine_world s).
Proof.
  unfold blockchain_step, except_Exception, bind at 1.
  pose proof (register_on_blockchain_gets T config metadata price s) as Hg.
  destruct (register_on_blockchain T config metadata price s)
    as [s1 [e | r]] eqn:Hr; cbn [fst] in Hg.
  { by eexists _, _. }
  assert (exists v, r = JDict v) as [v ->]; [| by eexists _, _].
  revert Hr. unfold register_on_blockchain, not_registered, bind at 1.
  destruct (subscript config k_ethereum) as [e | ethereum]; [done |].
  cbn [of_result]. unfold ret at 1, bind at 1.
  destruct (subscript ethereum k_contract_address) as [e | a]; [done |].
  cbn [of_result]. unfold ret at 1.
  destruct (truthy a); cbn [negb]; [| intros [= _ <-]; by eexists].
  unfold bind at 1.
  destruct (subscript ethereum k_private_key) as [e | k]; [done |].
  cbn [of_result]. unfold ret at 1.
  destruct (truthy k); cbn [negb]; [| intros [= _ <-]; by eexists].
  cbv zeta.
  destruct (truthy (default JNull (dict_get k_ipfsHash metadata)));
    cbn [negb]; [| intros [= _ <-]; by eexists].
  unfold bind at 1.
  destruct (subscript ethereum k_provider_url) as [e | p]; [done |].
  cbn [of_result]. unfold ret at 1, except_Exception, bind at 1.
  destruct (communicate T _ _ _ s) as [s2 [e | output]];
    intros [= _ <-]; by eexists.
Qed.

(** The run of [process_video] on an input that exists: the result is
    the initial one with the entries of the steps that ran. *)
Lemma process_video_run (E : Env) (T : Tools) (S : Session) (config : json)
    (input_path : list N) (title description : option (list N))
    (price : list N) (stream upload_to_ipfs register_blockchain : bool)
    (s : Machine) :
  exists_in (fs (machine_world s)) (env_cwd E) input_path = true ->
  exists s' compression e entry registration,
    let res1 :=
      dict_set k_compression compression
               (initial_pipeline_result input_path) in
    let res2 :=
      if stream then dict_set k_streaming (failed e) res1 else res1 in
    let res3 :=
      if upload_to_ipfs then dict_set k_ipfs (JDict entry) res2 else res2 in
    process_video E T S config input_path title description price stream
                  upload_to_ipfs register_blockchain s
    = (s', inr match registrable register_blockchain res3 with
               | Some _ => dict_set k_blockchain (JDict registration) res3
               | None => res3
               end)
    /\ is_Some (dict_get k_success entry)
    /\ gets (machine_world s') = gets (machine_world s)
    /\ (forall livepeer api_key stream_name cache_enabled server_port,
           stream = true ->
           subscript config k_livepeer = inr livepeer ->
           subscript livepeer k_api_key = inr api_key ->
           putenv T (lit "LIVEPEER_API_KEY") api_key = None ->
           subscript livepeer k_stream_name = inr stream_name ->
           subscript livepeer k_cache_enabled = inr cache_enabled ->
           subscript livepeer k_server_port = inr server_port ->
           exn_msg e = running_loop_message).
Proof.
  intros Hin. unfold process_video, bind at 1, in_machine at 1, path_exists.
  rewrite Hin. cbn [negb]. cbv zeta.
  assert ({| machine_world := machine_world s; spawned := spawned s |} = s)
    as -> by (by destruct s).
  unfold bind at 1.
  destruct (compression_step_returns T config input_path
              (initial_pipeline_result input_path) s)
    as (s1 & compression & working_video & -> & Hg1 & _).
  unfold bind at 1.
  set (res1 := dict_set k_compression compression
                        (initial_pipeline_result input_path)).
  assert (exists e,
             (if stream then streaming_step E T S config working_video res1
              else ret res1) s1
             = (s1, inr (if stream then dict_set k_streaming (failed e) res1
                         else res1))
             /\ forall livepeer api_key stream_name cache_enabled
                       server_port,
                  stream = true ->
                  subscript config k_livepeer = inr livepeer ->
                  subscript livepeer k_api_key = inr api_key ->
                  putenv T (lit "LIVEPEER_API_KEY") api_key = None ->
                  subscript livepeer k_stream_name = inr stream_name ->
                  subscript livepeer k_cache_enabled = inr cache_enabled ->
                  subscript livepeer k_server_port = inr server_port ->
                  exn_msg e = running_loop_message) as (e & -> & Hloop).
  { destruct stream; [| by exists (Exn PlainException [])].
    destruct (streaming_step_fails E T S config working_video res1 s1)
      as [e He].
    exists e. split; [done |]. intros lp ak sn ce sp _ H1 H2 H3 H4 H5 H6.
    rewrite (streaming_step_running_loop E T S config lp ak sn ce sp) in He
      by done.
    apply (f_equal (fun x => match snd x with
                             | inr r => dict_get k_streaming r
                             | inl _ => None
                             end)) in He.
    cbn [snd] in He. rewrite !dict_get_set_eq in He.
    unfold failed in He. by injection He. }
  set (res2 := if stream then dict_set k_streaming (failed e) res1 else res1).
  unfold bind at 1.
  match goal with
  | |- context [(if upload_to_ipfs then ipfs_step E T config ?wv ?t ?d res2
                 else ret res2) s1] =>
      assert (exists s3 entry,
                 (if upload_to_ipfs then ipfs_step E T config wv t d res2
                  else ret res2) s1
                 = (s3, inr (if upload_to_ipfs
                             then dict_set k_ipfs (JDict entry) res2
                             else res2))
                 /\ is_Some (dict_get k_success entry)
                 /\ gets (machine_world s3) = gets (machine_world s1))
        as (s3 & entry & -> & Hentry & Hg3)
  end.
  { destruct upload_to_ipfs; [apply ipfs_step_returns |].
    exists s1, [(k_success, JBool true)]. by split_and!. }
  set (res3 := if upload_to_ipfs then dict_set k_ipfs (JDict entry) res2
               else res2).
  destruct (registrable register_blockchain res3) as [metadata |] eqn:Hreg.
  - destruct (blockchain_step_returns T config price metadata res3 s3)
      as (s4 & registration & -> & Hg4).
    exists s4, compression, e, entry, registration. cbv zeta.
    fold res1. fold res2. fold res3. rewrite Hreg.
    split_and!; [done | done | congruence | done].
  - exists s3, compression, e, entry, []. cbv zeta.
    fold res1. fold res2. fold res3. rewrite Hreg.
    split_and!; [done | done | congruence | done].
Qed.

(** ** The pipeline *)

Lemma process_video_needs_its_input_run (E : Env) (T : Tools) (S : Session)
    (config : json) (input_path : list N)
    (title description : option (list N)) (price : list N)
    (stream upload_to_ipfs register_blockchain : bool) (s : Machine) :
  exists_in (fs (machine_world s)) (env_cwd E) input_path = false ->
  process_video E T S config input_path title description price stream
                upload_to_ipfs register_blockchain s
  = (s, inr (initial_pipeline_result input_path)).
Proof.
  intros Hin. unfold process_video, bind, in_machine, path_exists.
  rewrite Hin. cbn [negb]. by destruct s.
Qed.

(** X25. Without its input [process_video] does nothing: when the
    input path names nothing, it returns the initial result, every step
    being [None], starts no script and leaves the machine as it is. *)
Theorem process_video_needs_its_input (E : Env) (T : Tools) (S : Session)
    (config : json) (input_path : list N)
    (title description : option (list N)) (price : list N)
    (stream upload_to_ipfs register_blockchain : bool) (s : Machine) :
  exists_in (fs (machine_world s)) (env_cwd E) input_path = false ->
  process_video E T S config input_path title description price stream
                upload_to_ipfs register_blockchain s
  = (s, inr [(k_input, JStr input_path); (k_compression, JNull);
             (k_streaming, JNull); (k_ipfs, JNull); (k_blockchain, JNull)]).
Proof. apply process_video_needs_its_input_run. Qed.

Lemma pipeline_result_keys (compression streaming ipfs blockchain : json)
    (input_path : list N) (b2 b3 b4 : bool) :
  let res1 :=
    dict_set k_compression compression
             (initial_pipeline_result input_path) in
  let res2 := if b2 then dict_set k_streaming streaming res1 else res1 in
  let res3 := if b3 then dict_set k_ipfs ipfs res2 else res2 in
  let res4 := if b4 then dict_set k_blockchain blockchain res3 else res3 in
  map fst res4
  = [k_input; k_compression; k_streaming; k_ipfs; k_blockchain]
  /\ dict_get k_input res4 = Some (JStr input_path)
  /\ dict_get k_streaming res4 = Some (if b2 then streaming else JNull)
  /\ dict_get k_ipfs res4 = Some (if b3 then ipfs else JNull)
  /\ dict_get k_ipfs res3 = Some (if b3 then ipfs else JNull)
  /\ dict_get k_blockchain res4 = Some (if b4 then blockchain else JNull).
Proof. by destruct b2, b3, b4. Qed.

(** X26. [process_video] never raises and never reaches the origin:
    whatever the configuration holds and the tools do, it returns a dict
    with the keys [input], [compression], [streaming], [ipfs] and
    [blockchain], in this order, [input] being the input path, and it
    issues no GET. *)
Theorem process_video_always_returns (E : Env) (T : Tools) (S : Session)
    (config : json) (input_path : list N)
    (title description : option (list N)) (price : list N)
    (stream upload_to_ipfs register_blockchain : bool) (s : Machine) :
  exists s' res,
    process_video E T S config input_path title description price stream
                  upload_to_ipfs register_blockchain s
    = (s', inr res)
    /\ map fst res
       = [k_input; k_compression; k_streaming; k_ipfs; k_blockchain]
    /\ dict_get k_input res = Some (JStr input_path)
    /\ gets (machine_world s') = gets (machine_world s).
Proof.
  destruct (exists_in (fs (machine_world s)) (env_cwd E) input_path)
    eqn:Hin.
  - destruct (process_video_run E T S config input_path title description
                price stream upload_to_ipfs register_blockchain s Hin)
      as (s' & compression & e & entry & registration & Hrun & _ & Hg & _).
    cbv zeta in Hrun. eexists _, _. split; [exact Hrun |].
    split_and!; [| | done].
    + destruct (registrable _ _);
        [apply (pipeline_result_keys compression (failed e) (JDict entry)
                  (JDict registration) input_path stream upload_to_ipfs true)
        |apply (pipeline_result_keys compression (failed e) (JDict entry)
                  (JDict registration) input_path stream upload_to_ipfs
                  false)].
    + destruct (registrable _ _);
        [apply (pipeline_result_keys compression (failed e) (JDict entry)
                  (JDict registration) input_path stream upload_to_ipfs true)
        |apply (pipeline_result_keys compression (failed e) (JDict entry)
                  (JDict registration) input_path stream upload_to_ipfs
                  false)].
  - exists s, (initial_pipeline_result input_path). split_and!; try done.
    unfold process_video, bind, in_machine, path_exists.
    rewrite Hin. cbn [negb]. by destruct s.
Qed.

(** X27. The pipeline never streams.  [process_video] is a coroutine,
    and [stream_video] hands the session to [asyncio.run], which refuses
    to run in a running event loop: with streaming asked for, on an
    input that exists and a configuration that has its [livepeer]
    section, the [streaming] entry of the result is a failure with the
    message of that refusal, and no GET is issued. *)
Theorem pipeline_never_streams (E : Env) (T : Tools) (S : Session)
    (config livepeer api_key stream_name cache_enabled server_port : json)
    (input_path : list N) (title description : option (list N))
    (price : list N) (upload_to_ipfs register_blockchain : bool)
    (s : Machine) :
  exists_in (fs (machine_world s)) (env_cwd E) input_path = true ->
  subscript config k_livepeer = inr livepeer ->
  subscript livepeer k_api_key = inr api_key ->
  putenv T (lit "LIVEPEER_API_KEY") api_key = None ->
  subscript livepeer k_stream_name = inr stream_name ->
  subscript livepeer k_cache_enabled = inr cache_enabled ->
  subscript livepeer k_server_port = inr server_port ->
  exists s' res,
    process_video E T S config input_path title description price true
                  upload_to_ipfs register_blockchain s
    = (s', inr res)
    /\ dict_get k_streaming res
       = Some (JDict [(k_success, JBool false);
                      (k_error, JStr running_loop_message)])
    /\ gets (machine_world s') = gets (machine_world s).
Proof.
  intros Hin H1 H2 H3 H4 H5 H6.
  destruct (process_video_run E T S config input_path title description
              price true upload_to_ipfs register_blockchain s Hin)
    as (s' & compression & e & entry & registration & Hrun & _ & Hg & He).
  cbv zeta in Hrun.
  specialize (He _ _ _ _ _ eq_refl H1 H2 H3 H4 H5 H6).
  eexists _, _. split; [exact Hrun |]. split; [| done].
  rewrite <- He.
  destruct (registrable _ _);
    [apply (pipeline_result_keys compression (failed e) (JDict entry)
              (JDict registration) input_path true upload_to_ipfs true)
    |apply (pipeline_result_keys compression (failed e) (JDict entry)
              (JDict registration) input_path true upload_to_ipfs false)].
Qed.

(** X28. Nothing is registered that was not uploaded.  Whenever the
    result of [process_video] has a [blockchain] entry, registration was
    asked for, the upload to IPFS was asked for as well, and the [ipfs]
    entry of the result is a dict whose [success] is true. *)
Theorem registration_follows_the_upload (E : Env) (T : Tools) (S : Session)
    (config : json) (input_path : list N)
    (title description : option (list N)) (price : list N)
    (stream upload_to_ipfs register_blockchain : bool) (s : Machine)
    (res registration : list (list N * json)) :
  snd (process_video E T S config input_path title description price stream
                     upload_to_ipfs register_blockchain s)
  = inr res ->
  dict_get k_blockchain res = Some (JDict registration) ->
  register_blockchain = true /\ upload_to_ipfs = true
  /\ exists entry,
       dict_get k_ipfs res = Some (JDict entry)
       /\ truthy (default JNull (dict_get k_success entry)) = true.
Proof.
  destruct (exists_in (fs (machine_world s)) (env_cwd E) input_path)
    eqn:Hin.
  2:{ rewrite process_video_needs_its_input_run by done.
      by intros [= <-]. }
  destruct (process_video_run E T S config input_path title description
              price stream upload_to_ipfs register_blockchain s Hin)
    as (s1 & compression & e & entry & r & -> & _ & _ & _).
  cbv zeta. cbn [snd].
  destruct (registrable register_blockchain _) as [metadata |] eqn:Hreg.
  2:{ intros Hres Hb. apply (inj inr) in Hres. subst res.
      destruct (pipeline_result_keys compression (failed e) (JDict entry)
                  JNull input_path stream upload_to_ipfs false)
        as (_ & _ & _ & _ & _ & H5).
      cbv zeta in H5. by rewrite H5 in Hb. }
  intros Hres _. apply (inj inr) in Hres. subst res.
  revert Hreg. unfold registrable.
  destruct register_blockchain; [| done].
  destruct (pipeline_result_keys compression (failed e) (JDict entry)
              (JDict r) input_path stream upload_to_ipfs true)
    as (_ & _ & _ & H4 & H3 & _).
  cbv zeta in H3, H4. rewrite H3.
  destruct upload_to_ipfs; [| done].
  destruct (truthy (JDict entry) && _) eqn:Ht; [| done]. intros _.
  apply andb_true_iff in Ht as [_ Ht].
  split_and!; [done | done |]. exists entry. by split.
Qed.

(** ** The configuration on the disk *)

Lemma makedirs_from_adds_directories (fs fs' : gmap (list (list N)) node)
    (comps cur : list (list N)) (name : list N) :
  makedirs_from fs cur comps name = inr fs' ->
  forall q nd, fs' !! q = Some nd -> fs !! q = Some nd \/ nd = Dir true.
Proof.
  revert fs cur. induction comps as [|c cs IH]; intros fs cur.
  - intros [= <-] q nd Hq. by left.
  - cbn [makedirs_from]. destruct (is_dir fs cur); [| done].
    destruct (node_at fs (step cur c)) as [[| ] |] eqn:Hn;
      [done | apply IH |].
    intros Hm q nd Hq. destruct (IH _ _ Hm q nd Hq) as [Hq' | ->];
      [| by right].
    destruct (decide (q = step cur c)) as [-> | Hne].
    + rewrite lookup_insert_eq in Hq'. right. congruence.
    + rewrite lookup_insert_ne in Hq' by done. by left.
Qed.

Lemma makedirs_adds_directories (E : Env) (p : list N) (w w' : World)
    (r : exn + unit) :
  makedirs E p w = (w', r) ->
  forall q nd, fs w' !! q = Some nd -> fs w !! q = Some nd \/ nd = Dir true.
Proof.
  unfold makedirs. destruct p as [|c p]; [intros [= <- _]; by left |].
  destruct (makedirs_from _ _ _ _) as [e | fs'] eqn:Hm.
  - intros [= <- _]. by left.
  - intros [= <- _]. cbn [fs]. by eapply makedirs_from_adds_directories.
Qed.

Lemma makedirs_raises_same (E : Env) (p : list N) (w w' : World) (e : exn) :
  makedirs E p w = (w', inl e) -> w' = w.
Proof.
  unfold makedirs. destruct p as [|c p]; [by intros [= <- _] |].
  destruct (makedirs_from _ _ _ _); [by intros [= <- _] | done].
Qed.

(** X18. [_save_config] never raises, and it writes no secret: every
    file that is not as it was before holds the text [json.dump] gives
    for the copy of the configuration that [_get_safe_config] returns. *)
Theorem saved_file_holds_the_safe_configuration (E : Env) (T : Tools)
    (config : list (list N * json)) (config_path : list N) (w : World) :
  exists w',
    _save_config E T config config_path w = (w', inr tt)
    /\ forall q r data,
         fs w' !! q = Some (File r data) ->
         fs w !! q = Some (File r data)
         \/ exists safe_config,
              _get_safe_config config = inr safe_config
              /\ data = env_encode E (json_dump T (JDict safe_config)).
Proof.
  unfold _save_config, except_Exception, bind at 1.
  destruct (makedirs E _ w) as [w1 [e | []]] eqn:Hm.
  { apply makedirs_raises_same in Hm as ->. exists w.
    split; [done |]. intros; by left. }
  pose proof (makedirs_adds_directories E _ _ _ _ Hm) as Hdirs.
  assert (forall q r data,
             fs w1 !! q = Some (File r data) -> fs w !! q = Some (File r data))
    as Hsame.
  { intros q r data Hq. by destruct (Hdirs _ _ Hq) as [? | ?]. }
  unfold bind at 1.
  destruct (_get_safe_config config) as [e | safe_config] eqn:Hsafe.
  { exists w1. split; [done |]. intros q r data Hq. left. by eauto. }
  cbn [of_result]. unfold ret at 1, bind at 1.
  destruct (open_w E config_path w1) as [w2 [e | f]] eqn:Ho.
  { apply open_w_raises_same in Ho as ->. exists w1. split; [done |].
    intros q r data Hq. left. by eauto. }
  apply open_w_returns in Ho as (_ & _ & Hfs).
  eexists. split; [done |]. unfold write. cbn [fst fs]. intros q r data.
  assert (exists r0 old, fs w2 = <[f := File r0 old]> (fs w1))
    as (r0 & old & ->).
  { destruct Hfs as [[_ ->] | (r1 & d & _ & ->)]; by eexists _, _. }
  rewrite lookup_insert_eq, insert_insert_eq.
  destruct (decide (q = f)) as [-> | Hne].
  - rewrite lookup_insert_eq. intros [= <- <-]. right. by exists safe_config.
  - rewrite lookup_insert_ne by done. intros Hq. left. by eauto.
Qed.

Lemma dict_set_same (k : list N) (v : json) (d : list (list N * json)) :
  dict_get k d = Some v -> dict_set k v d = d.
Proof.
  induction d as [|[k0 v0] d IH]; [done |]. cbn [dict_get dict_set].
  destruct (decide (k0 = k)) as [-> | Hne].
  - rewrite !bool_decide_true by done. by intros [= ->].
  - rewrite !bool_decide_false by done. intros H. by rewrite IH.
Qed.

Lemma from_environ_default (T : Tools) :
  from_environ T (lit "LIVEPEER_API_KEY") k_livepeer k_api_key
               (default_config T) = inr (default_config T)
  /\ from_environ T (lit "WEB3STORAGE_TOKEN") k_ipfs k_token
                  (default_config T) = inr (default_config T).
Proof.
  unfold from_environ, default_config, environ_get. split.
  - by destruct (environ T (lit "LIVEPEER_API_KEY")).
  - by destruct (environ T (lit "WEB3STORAGE_TOKEN")).
Qed.

(** X19. A configuration file that cannot be used is ignored.  When
    the file exists but cannot be read, or does not parse, or holds a
    value that is no dict, [_load_config] returns the default
    configuration, with the secrets the environment provides, and
    changes nothing. *)
Theorem unusable_configuration_file_gives_the_defaults (E : Env) (T : Tools)
    (config_path : list N) (w : World) :
  exists_in (fs w) (env_cwd E) config_path = true ->
  (exists e, snd (read_rb E config_path w) = inl e)
  \/ (exists content,
         snd (read_rb E config_path w) = inr content
         /\ ((exists e, json_load T content = inl e)
             \/ exists loaded_config,
                  json_load T content = inr loaded_config
                  /\ is_dict loaded_config = false)) ->
  _load_config E T config_path w = (w, inr (default_config T)).
Proof.
  intros Hin Hcase. destruct (from_environ_default T) as [H1 H2].
  assert (read_rb E config_path w = (w, snd (read_rb E config_path w)))
    as Hread by done.
  unfold _load_config, bind at 1, except_Exception, bind at 1, path_exists.
  rewrite Hin. unfold bind at 1. rewrite Hread.
  destruct Hcase as [[e ->] | (content & -> & Hcase)].
  { unfold ret at 1, bind at 1. rewrite H1. cbn [of_result].
    unfold ret at 1. by rewrite H2. }
  unfold bind at 1.
  destruct Hcase as [[e ->] | (loaded_config & -> & Hd)].
  { cbn [of_result]. unfold raise at 1, ret at 1, bind at 1.
    rewrite H1. cbn [of_result]. unfold ret at 1. by rewrite H2. }
  cbn [of_result]. unfold ret at 1.
  destruct loaded_config as [| | | | | |u]; try done;
    unfold raise at 1, ret at 1, bind at 1; rewrite H1; cbn [of_result];
    unfold ret at 1; by rewrite H2.
Qed.

Lemma from_environ_returns (T : Tools) (name section key : list N)
    (config config' : list (list N * json)) :
  from_environ T name section key config = inr config' ->
  (forall value, environ T name = Some value ->
                 get_path [section; key] (JDict config')
                 = Some (JStr value))
  /\ forall s k, s <> section ->
                 get_path [s; k] (JDict config')
                 = get_path [s; k] (JDict config).
Proof.
  unfold from_environ. destruct (environ T name) as [value |].
  2:{ intros [= <-]. by split. }
  destruct (subscript (JDict config) section) as [e | held]; [done |].
  destruct held as [| | | | | |items]; try done. cbn [assign_item].
  intros [= <-]. split.
  - intros v [= <-]. cbn [get_path]. by rewrite !dict_get_set_eq.
  - intros s k Hne. cbn [get_path]. by rewrite dict_get_set_ne.
Qed.

(** X20. The environment wins over the configuration file.  In the
    configuration [_load_config] returns, [livepeer.api_key] is the
    value of [LIVEPEER_API_KEY] and [ipfs.token] the value of
    [WEB3STORAGE_TOKEN] whenever the environment sets them, whatever the
    file holds. *)
Theorem environment_wins_over_the_file (E : Env) (T : Tools)
    (config_path : list N) (w : World) (config : list (list N * json)) :
  snd (_load_config E T config_path w) = inr config ->
  (forall value,
      environ T (lit "LIVEPEER_API_KEY") = Some value ->
      get_path [k_livepeer; k_api_key] (JDict config) = Some (JStr value))
  /\ (forall value,
         environ T (lit "WEB3STORAGE_TOKEN") = Some value ->
         get_path [k_ipfs; k_token] (JDict config) = Some (JStr value)).
Proof.
  unfold _load_config, bind at 1.
  destruct (except_Exception _ _ w) as [w1 [e | c0]]; [done |].
  unfold bind at 1.
  destruct (from_environ T (lit "LIVEPEER_API_KEY") k_livepeer k_api_key c0)
    as [e | c1] eqn:H1; [done |].
  cbn [of_result]. unfold ret at 1.
  destruct (from_environ T (lit "WEB3STORAGE_TOKEN") k_ipfs k_token c1)
    as [e | c2] eqn:H2; [done |].
  cbn [of_result]. intros [= <-].
  apply from_environ_returns in H1 as [A1 _].
  apply from_environ_returns in H2 as [A2 O2].
  split; [| done]. intros value Hv. rewrite O2 by done. by apply A1.
Qed.

(** ** The directories of the pipeline *)

Lemma makedirs_from_makes (fs fs' : gmap (list (list N)) node)
    (comps cur : list (list N)) (name : list N) :
  comps <> [] -> makedirs_from fs cur comps name = inr fs' ->
  exists q, walk fs' cur comps = Some q /\ is_dir fs' q = true.
Proof.
  revert fs cur. induction comps as [|c cs IH]; intros fs cur Hne; [done |].
  cbn [makedirs_from walk]. destruct (is_dir fs cur) eqn:Hcur; [| done].
  assert (forall fs1,
             fs ⊆ fs1 -> is_dir fs1 (step cur c) = true ->
             makedirs_from fs1 (step cur c) cs name = inr fs' ->
             exists q,
               (if is_dir fs' cur then walk fs' (step cur c) cs else None)
               = Some q /\ is_dir fs' q = true) as Hstep.
  { intros fs1 Hsub Hnxt Hm.
    pose proof (makedirs_from_extends _ _ _ _ _ Hm) as Hext.
    assert (is_dir fs' cur = true) as ->.
    { eapply is_dir_keeps; [| exact Hcur].
      apply fs_keeps_subseteq. by etrans. }
    destruct cs as [|c' cs'].
    - injection Hm as <-. by exists (step cur c).
    - by apply (IH fs1). }
  destruct (node_at fs (step cur c)) as [[| r] |] eqn:Hn; [done | |].
  - apply Hstep; [done |]. unfold is_dir. by rewrite Hn.
  - apply Hstep.
    + apply insert_subseteq. by apply node_at_None.
    + unfold is_dir. destruct (step cur c) as [|x nxt]; [done |].
      cbn [node_at]. by rewrite lookup_insert_eq.
Qed.

(** After [os.makedirs] has returned the path names a directory. *)
Lemma makedirs_makes (E : Env) (p : list N) (w w' : World) :
  makedirs E p w = (w', inr tt) ->
  exists q, resolve (fs w') (env_cwd E) p = Some q
            /\ is_dir (fs w') q = true.
Proof.
  unfold makedirs, resolve, start_dir. destruct p as [|c p]; [done |].
  destruct (makedirs_from _ _ _ _) as [e | fs'] eqn:Hm; [done |].
  intros [= <-]. cbn [fs].
  eapply makedirs_from_makes; [apply split_nonempty | exact Hm].
Qed.

(** X21. When [init_directories] returns, every directory of the
    configuration is there: each path under [directories] names a
    directory. *)
Theorem init_directories_makes_the_directories (E : Env) (config : json)
    (items : list (list N * json)) (w w' : World) :
  subscript config k_directories = inr (JDict items) ->
  init_directories E config w = (w', inr tt) ->
  forall dir_name dir_path,
    (dir_name, JStr dir_path) ∈ items ->
    exists q, resolve (fs w') (env_cwd E) dir_path = Some q
              /\ is_dir (fs w') q = true.
Proof.
  intros Hd. unfold init_directories. rewrite Hd. cbn [of_result].
  unfold bind at 1, ret at 1. clear Hd. revert w.
  induction items as [|[k v] items IH]; intros w Hrun dir_name dir_path Hin.
  { by apply elem_of_nil in Hin. }
  revert Hrun. cbn [for_each]. unfold bind at 1. cbn [snd].
  destruct v as [| | | |p| |]; try done.
  destruct (makedirs E p w) as [w1 [e | []]] eqn:Hm; [done |].
  intros Hrest. apply elem_of_cons in Hin as [[= -> ->] | Hin].
  - destruct (makedirs_makes E _ _ _ Hm) as (q & Hq & Hdq).
    exists q.
    assert (fs_keeps (fs w1) (fs w')) as Hk.
    { clear -Hrest. revert w1 Hrest.
      induction items as [|[k v] items IH]; intros w1.
      - intros [= <-]. by apply fs_keeps_subseteq.
      - cbn [for_each]. unfold bind at 1. cbn [snd].
        destruct v as [| | | |p| |]; try done.
        destruct (makedirs E p w1) as [w2 [e | []]] eqn:Hm; [done |].
        intros Hrest. apply makedirs_extends in Hm as [Hs _].
        intros q nd Hq.
        apply (IH w2 Hrest). by eapply lookup_weaken. }
    split.
    + eapply resolve_keeps; [| exact Hq]. intros x. by apply is_dir_keeps.
    + by eapply is_dir_keeps.
  - by apply (IH w1 Hrest dir_name).
Qed.

(** ** The upload *)

(** X22. What [run_ipfs_upload] returns once the script has ended with
    code 0.  If [output/metadata.json] is there, a readable file, the
    function returns what [json.load] makes of it, whatever the script
    has printed; if nothing is there, it returns the hash parsed from
    the output with the title and the description.  One command is
    started, [node] with the script, the video, the title and the
    description. *)
Theorem upload_returns_what_the_metadata_file_holds (E : Env) (T : Tools)
    (config : json) (video_path title description : list N) (s : Machine)
    (env : list (list N * json)) (fs' : gmap (list (list N)) node)
    (p : process) (output : list N) :
  let ipfs_script :=
    if exists_in (fs (machine_world s)) (env_cwd E) ipfs_handler_web3storage
    then ipfs_handler_web3storage else lit "ipfs_handler.js" in
  let cmd := [JStr (lit "node"); JStr ipfs_script; JStr video_path;
              JStr title; JStr description] in
  let run := run_ipfs_upload E T config video_path title description s in
  exists_in (fs (machine_world s)) (env_cwd E) video_path = true ->
  upload_environment config = inr env ->
  run_command T cmd env (fs (machine_world s)) = (fs', inr p) ->
  returncode p = 0%Z -> stdout_decode p = inr output ->
  spawned (fst run) = spawned s ++ [cmd]
  /\ (exists_in fs' (env_cwd E) metadata_path = false ->
      snd run
      = inr (JDict [(k_ipfsHash, parse_after (lit "Video IPFS Hash:") output);
                    (k_title, JStr title);
                    (k_description, JStr description)]))
  /\ (forall q content,
         resolve fs' (env_cwd E) metadata_path = Some q ->
         node_at fs' q = Some (File true content) ->
         snd run = json_load T content).
Proof.
  intros ipfs_script cmd run Hin Henv Hrun Hrc Hout.
  set (w' := {| fs := fs'; gets := gets (machine_world s) |}).
  assert (run
          = ({| machine_world := w'; spawned := spawned s ++ [cmd] |},
             if exists_in fs' (env_cwd E) metadata_path
             then match snd (read_rb E metadata_path w') with
                  | inl e => inl e
                  | inr content => json_load T content
                  end
             else inr (JDict [(k_ipfsHash,
                               parse_after (lit "Video IPFS Hash:") output);
                              (k_title, JStr title);
                              (k_description, JStr description)])))
    as ->.
  { subst run.
    unfold run_ipfs_upload, bind at 1, in_machine at 1, path_exists at 1.
    rewrite Hin. cbn [negb]. unfold bind at 1. rewrite Henv.
    cbn [of_result]. unfold ret at 1.
    unfold bind at 1, in_machine at 1, path_exists at 1.
    cbn [machine_world spawned]. fold ipfs_script. fold cmd.
    unfold bind at 1, communicate, bind at 1, create_subprocess_exec.
    cbn [machine_world spawned]. rewrite Hrun, Hrc. cbn [Z.eqb negb].
    rewrite Hout. cbn [of_result]. unfold ret at 1.
    unfold bind at 1, in_machine at 1, path_exists at 1.
    cbn [machine_world spawned fs]. fold w'.
    destruct (exists_in fs' (env_cwd E) metadata_path); [| done].
    unfold bind, in_machine. cbn [machine_world spawned].
    assert (read_rb E metadata_path w'
            = (w', snd (read_rb E metadata_path w'))) as -> by done.
    cbn [snd]. destruct (snd (read_rb E metadata_path w')); [done |].
    by destruct (json_load T _). }
  cbn [fst snd]. split_and!; [done | by intros -> |].
  intros q content Hq Hn. unfold exists_in, read_rb. subst w'.
  cbn [fs snd]. by rewrite Hq, Hn.
Qed.

(** ** The theorems at work *)

Lemma loaded_values_win_and_defaults_survive_witness :
  get_path [k_livepeer; k_server_port]
           (JDict (_update_nested_dict demo_config loaded_config))
  = Some (JInt 9090)
  /\ get_path [k_livepeer; k_api_key]
              (JDict (_update_nested_dict demo_config loaded_config))
     = get_path [k_livepeer; k_api_key] (JDict demo_config).
Proof.
  assert (json_ok (JDict loaded_config) = true) as Hok
    by (vm_compute; reflexivity).
  split.
  - apply (proj1 (loaded_values_win_and_defaults_survive
                    demo_config loaded_config
                    [k_livepeer; k_server_port] Hok));
      vm_compute; reflexivity.
  - apply (proj2 (loaded_values_win_and_defaults_survive
                    demo_config loaded_config
                    [k_livepeer; k_api_key] Hok));
      vm_compute; reflexivity.
Defined.

Lemma saved_configuration_has_no_secret_witness :
  map fst demo_safe_config = map fst demo_config
  /\ (forall section key,
         (section, key) ∈ secrets ->
         get_path [section; key] (JDict demo_safe_config) = None
         \/ get_path [section; key] (JDict demo_safe_config)
            = Some (JStr []))
  /\ (forall section key,
         (section, key) ∉ secrets ->
         get_path [section; key] (JDict demo_safe_config)
         = get_path [section; key] (JDict demo_config)).
Proof.
  apply saved_configuration_has_no_secret. vm_compute. reflexivity.
Defined.

Lemma registration_needs_address_key_and_hash_witness :
  exists reason,
    reason ∈ [lit "No contract address provided";
              lit "No private key provided";
              lit "No IPFS hash in metadata"]
    /\ register_on_blockchain demo_tools config_without_contract
                              demo_metadata (lit "0.1") demo_machine
       = (demo_machine, inr (not_registered reason)).
Proof.
  apply (registration_needs_address_key_and_hash demo_tools
           config_without_contract
           (JDict [(lit "provider_url", JStr (lit "http://localhost:8545"));
                   (lit "contract_address", JStr []);
                   (lit "private_key", JStr (lit "0xKEY"))])
           (JStr [])).
  - vm_compute. reflexivity.
  - vm_compute. reflexivity.
  - left. vm_compute. reflexivity.
Defined.

Lemma registration_reports_the_script_witness :
  let cmd := [JStr (lit "node"); JStr (lit "web3client.js");
              JStr (lit "upload");
              default JNull (dict_get k_title demo_metadata);
              default (JStr []) (dict_get k_description demo_metadata);
              default JNull (dict_get k_ipfsHash demo_metadata);
              JStr (lit "0.1")] in
  let env := [(lit "PROVIDER_URL", JStr (lit "http://localhost:8545"));
              (lit "CONTRACT_ADDRESS", JStr (lit "0xC0FFEE"));
              (lit "PRIVATE_KEY", JStr (lit "0xKEY"))] in
  exists s' r,
    register_on_blockchain demo_tools (JDict demo_config) demo_metadata
                           (lit "0.1") demo_machine
    = (s', inr (JDict r))
    /\ gets (machine_world s') = gets (machine_world demo_machine)
    /\ (exists registered, dict_get k_registered r = Some (JBool registered))
    /\ (dict_get k_registered r = Some (JBool true) ->
        spawned s' = spawned demo_machine ++ [cmd]
        /\ exists p output,
             snd (run_command demo_tools cmd env
                              (fs (machine_world demo_machine))) = inr p
             /\ returncode p = 0%Z /\ stdout_decode p = inr output
             /\ dict_get k_output r = Some (JStr output)).
Proof.
  apply (registration_reports_the_script demo_tools (JDict demo_config)
           (JDict [(lit "provider_url", JStr (lit "http://localhost:8545"));
                   (lit "contract_address", JStr (lit "0xC0FFEE"));
                   (lit "private_key", JStr (lit "0xKEY"))]));
    vm_compute; reflexivity.
Defined.

Lemma process_video_needs_its_input_witness :
  process_video session_env demo_tools session_pushed (JDict demo_config)
                (lit "missing.mp4") None None (lit "0.1") true true true
                demo_machine
  = (demo_machine,
     inr [(k_input, JStr (lit "missing.mp4")); (k_compression, JNull);
          (k_streaming, JNull); (k_ipfs, JNull); (k_blockchain, JNull)]).
Proof. apply process_video_needs_its_input. by_computation. Defined.

Lemma pipeline_never_streams_witness :
  exists s' res,
    process_video session_env demo_tools session_pushed (JDict demo_config)
                  video_path None None (lit "0.1") true true true
                  demo_machine
    = (s', inr res)
    /\ dict_get k_streaming res
       = Some (JDict [(k_success, JBool false);
                      (k_error, JStr running_loop_message)])
    /\ gets (machine_world s') = gets (machine_world demo_machine).
Proof.
  apply (pipeline_never_streams session_env demo_tools session_pushed
           (JDict demo_config)
           (JDict [(lit "api_key", JStr (lit "lp-secret"));
                   (lit "stream_name",
                    JStr (lit "decentralized-video-stream"));
                   (lit "cache_enabled", JBool true);
                   (lit "server_port", JInt 8080)])
           (JStr (lit "lp-secret"))
           (JStr (lit "decentralized-video-stream")) (JBool true)
           (JInt 8080));
    first [by_computation | vm_compute; reflexivity].
Defined.

Lemma registration_follows_the_upload_witness :
  true = true /\ true = true
  /\ exists entry,
       dict_get k_ipfs demo_result = Some (JDict entry)
       /\ truthy (default JNull (dict_get k_success entry)) = true.
Proof.
  apply (registration_follows_the_upload session_env demo_tools
           session_pushed (JDict demo_config) video_path None
           (Some (lit "a video")) (lit "0.1") true true true demo_machine
           demo_result
           [(k_registered, JBool true); (k_videoId, JStr (lit "7"));
            (k_output, JStr (lit "Video uploaded successfully with ID: 7"))]);
    vm_compute; reflexivity.
Defined.

Lemma unusable_configuration_file_gives_the_defaults_witness :
  _load_config session_env demo_tools (lit "config.json")
               world_with_bad_config
  = (world_with_bad_config, inr (default_config demo_tools)).
Proof.
  apply unusable_configuration_file_gives_the_defaults.
  - by_computation.
  - right. exists (lit "{oops"). split; [vm_compute; reflexivity |].
    left. by eexists.
Defined.

Lemma environment_wins_over_the_file_witness :
  (forall value,
      environ demo_tools (lit "LIVEPEER_API_KEY") = Some value ->
      get_path [k_livepeer; k_api_key] (JDict demo_loaded_config)
      = Some (JStr value))
  /\ (forall value,
         environ demo_tools (lit "WEB3STORAGE_TOKEN") = Some value ->
         get_path [k_ipfs; k_token] (JDict demo_loaded_config)
         = Some (JStr value)).
Proof.
  apply (environment_wins_over_the_file session_env demo_tools
           (lit "config.json") session_world).
  vm_compute. reflexivity.
Defined.

Lemma init_directories_makes_the_directories_witness :
  (exists q,
      resolve (fs world_with_directories) (env_cwd session_env) (lit "cache")
      = Some q
      /\ is_dir (fs world_with_directories) q = true)
  /\ (exists q,
         resolve (fs world_with_directories) (env_cwd session_env)
                 (lit "output") = Some q
         /\ is_dir (fs world_with_directories) q = true).
Proof.
  assert (subscript (JDict demo_config) k_directories
          = inr (JDict [(lit "input", JStr (lit "input"));
                        (lit "output", JStr (lit "output"));
                        (lit "model", JStr (lit "model"));
                        (lit "cache", JStr (lit "cache"))])) as Hd
    by (vm_compute; reflexivity).
  assert (init_directories session_env (JDict demo_config) session_world
          = (world_with_directories, inr tt)) as Hrun by by_computation.
  split.
  - apply (init_directories_makes_the_directories session_env
             (JDict demo_config) _ session_world world_with_directories
             Hd Hrun (lit "cache")).
    do 3 right. left.
  - apply (init_directories_makes_the_directories session_env
             (JDict demo_config) _ session_world world_with_directories
             Hd Hrun (lit "output")).
    right. left.
Defined.

Lemma upload_returns_what_the_metadata_file_holds_witness :
  let run :=
    run_ipfs_upload session_env demo_tools (JDict demo_config) video_path
                    (lit "a title") (lit "a video") machine_with_metadata in
  spawned (fst run) = spawned machine_with_metadata ++ [upload_command]
  /\ (exists_in (fs (machine_world machine_with_metadata))
                (env_cwd session_env) metadata_path = false ->
      snd run
      = inr (JDict [(k_ipfsHash,
                     parse_after (lit "Video IPFS Hash:")
                                 (lit "Video IPFS Hash: bafy123"));
                    (k_title, JStr (lit "a title"));
                    (k_description, JStr (lit "a video"))]))
  /\ (forall q content,
         resolve (fs (machine_world machine_with_metadata))
                 (env_cwd session_env) metadata_path = Some q ->
         node_at (fs (machine_world machine_with_metadata)) q
         = Some (File true content) ->
         snd run = json_load demo_tools content).
Proof.
  apply (upload_returns_what_the_metadata_file_holds session_env demo_tools
           (JDict demo_config) video_path (lit "a title") (lit "a video")
           machine_with_metadata
           [(lit "WEB3STORAGE_TOKEN", JStr (lit "w3-secret"))]
           (fs (machine_world machine_with_metadata))
           {| returncode := 0;
              stdout_decode := inr (lit "Video IPFS Hash: bafy123");
              stderr_decode := inr [] |}
           (lit "Video IPFS Hash: bafy123"));
    first [by_computation | vm_compute; reflexivity].
Defined.
